(** * LanggraphIdeas: the routing graph, its SQL tools and the retrieval glue

    A shallow embedding of the Python sources

    - [agent_app/tools/sql.py]      (safety checker and SQL tools),
    - [agent_app/graph/nodes.py]    (router, retrieval, SQL and response nodes),
    - [agent_app/graph/graph.py]    (the LangGraph wiring),
    - [backend/graph/state.py]      (the state record),
    - [backend/services/vector.py]  (filter conversion, retriever set-up),
    - [backend/tools/rag.py]        (document retrieval),
    - [ui.py]                       (one chat turn),

    together with what LangChain does with a prompt template (its fields
    are read with [string.Formatter], and a field without an input raises
    [KeyError]) and what LangGraph does with the graph they build: the
    channels start empty, nodes return partial dictionaries, [messages] is
    merged by appending, every other key keeps the last value written, the
    nodes of one step all run, and a run proceeds in steps until no node is
    active.

    Python strings are lists of 8-bit characters where the text is that of
    prompts, queries and keys; this is exact on ASCII text.  The safety
    checker is also embedded on strings of Unicode code points, with the
    white space of Unicode and with the upper-case mapping of the code
    points beyond ASCII left as a parameter.  Calls that leave the process
    (language model, database, vector store) are fields of a [World] record,
    and every call is recorded in a log, so that "the database was not
    contacted" is a statement about that log. *)

From Stdlib Require Import Ascii String List Bool Arith NArith Lia.
From Stdlib Require DecimalString.
Import ListNotations.

Set Implicit Arguments.
Set Warnings "-register-all".

(* ================================================================== *)
(** * The Python runtime the sources rely on *)
(* ================================================================== *)

Module Py.

(** A Python [str]. *)
Definition str := list ascii.

(** String literals of the sources are written [L "text"]. *)
Definition L (s : string) : str := list_ascii_of_string s.

Definition ascii_eqb (a b : ascii) : bool := Ascii.eqb a b.

Fixpoint str_eqb (a b : str) : bool :=
  match a, b with
  | [], [] => true
  | x :: a', y :: b' => ascii_eqb x y && str_eqb a' b'
  | _, _ => false
  end.

(** [x in xs] for a list of strings. *)
Definition str_in (x : str) (xs : list str) : bool := existsb (str_eqb x) xs.

(** [str.isspace] on one character; the regular-expression class [\s] of a
    [str] pattern is the same set: TAB..CR, FS..US, space, NEL and NBSP. *)
Definition isspace (c : ascii) : bool :=
  let n := nat_of_ascii c in
  ((9 <=? n) && (n <=? 13)) || ((28 <=? n) && (n <=? 32))
  || (n =? 133) || (n =? 160).

(** [str.upper] on ASCII text, character by character: [a]..[z] go to
    [A]..[Z]; [Unicode.upper] is the mapping on every string. *)
Definition upper_char (c : ascii) : ascii :=
  let n := nat_of_ascii c in
  if (97 <=? n) && (n <=? 122) then ascii_of_nat (n - 32) else c.

Definition upper (s : str) : str := map upper_char s.

(** [str.lstrip()]: drop the leading whitespace. *)
Fixpoint lstrip (s : str) : str :=
  match s with
  | [] => []
  | c :: t => if isspace c then lstrip t else s
  end.

(** [str.rstrip()]: drop the trailing whitespace. *)
Fixpoint rstrip (s : str) : str :=
  match s with
  | [] => []
  | c :: t =>
      match rstrip t with
      | [] => if isspace c then [] else [c]
      | t' => c :: t'
      end
  end.

(** [str.strip()]. *)
Definition strip (s : str) : str := rstrip (lstrip s).

(** [s.startswith(p)], returning what follows the prefix. *)
Fixpoint strip_prefix (p s : str) : option str :=
  match p, s with
  | [], _ => Some s
  | _ :: _, [] => None
  | x :: p', y :: s' => if ascii_eqb x y then strip_prefix p' s' else None
  end.

Definition startswith (s p : str) : bool :=
  match strip_prefix p s with Some _ => true | None => false end.

(** [s.replace(old, new)] for a non-empty [old]: a left-to-right scan that
    replaces every non-overlapping occurrence.  [fuel] bounds the number of
    characters still to be read. *)
Fixpoint replace_fuel (fuel : nat) (old new s : str) : str :=
  match fuel with
  | O => s
  | S fuel' =>
      match strip_prefix old s with
      | Some rest =>
          match old with
          | [] => s
          | _ :: _ => new ++ replace_fuel fuel' old new rest
          end
      | None =>
          match s with
          | [] => []
          | c :: t => c :: replace_fuel fuel' old new t
          end
      end
  end.

Definition replace (s old new : str) : str :=
  replace_fuel (S (length s)) old new s.

(** [sep.join(parts)]. *)
Fixpoint join (sep : str) (parts : list str) : str :=
  match parts with
  | [] => []
  | [p] => p
  | p :: rest => p ++ sep ++ join sep rest
  end.

(** A run of whitespace. *)
Definition all_space (ws : str) : Prop := Forall (fun c => isspace c = true) ws.

(** Truthiness of a string: [if s:]. *)
Definition truthy_str (s : str) : bool :=
  match s with [] => false | _ :: _ => true end.

End Py.

(* ================================================================== *)
(** * The fragment of [re] used by the safety checker *)
(* ================================================================== *)

Module Re.
Import Py.

(** Patterns built from [^], [$], a character class, literal text,
    alternation and concatenation. *)
Inductive regex : Type :=
| Bol
| Eol
| Class (p : ascii -> bool)
| Lit (w : str)
| Alt (r1 r2 : regex)
| Cat (r1 r2 : regex).

(** A position in the subject: whether it is the start of the string, and
    the text still to be read. *)
Definition pos : Type := (bool * str)%type.

(** All the positions at which a match of [r] started at [(bos, s)] can end.
    [$] matches at the end of the string and just before a newline that
    ends the string, as in Python without [re.MULTILINE]. *)
Fixpoint match_at (r : regex) (bos : bool) (s : str) : list pos :=
  match r with
  | Bol => if bos then [(bos, s)] else []
  | Eol =>
      match s with
      | [] => [(bos, s)]
      | [c] => if ascii_eqb c "010"%char then [(bos, s)] else []
      | _ => []
      end
  | Class p =>
      match s with
      | c :: t => if p c then [(false, t)] else []
      | [] => []
      end
  | Lit w =>
      match strip_prefix w s with
      | Some t => [(match w with [] => bos | _ :: _ => false end, t)]
      | None => []
      end
  | Alt r1 r2 => match_at r1 bos s ++ match_at r2 bos s
  | Cat r1 r2 =>
      flat_map (fun p : pos => match_at r2 (fst p) (snd p)) (match_at r1 bos s)
  end.

Definition matches_here (r : regex) (bos : bool) (s : str) : bool :=
  match match_at r bos s with [] => false | _ :: _ => true end.

(** [re.search]: try every start offset, left to right. *)
Fixpoint search_from (r : regex) (bos : bool) (s : str) : bool :=
  if matches_here r bos s then true
  else match s with
       | [] => false
       | _ :: t => search_from r false t
       end.

(** Truth value of [re.search(r, s)]. *)
Definition search (r : regex) (s : str) : bool := search_from r true s.

End Re.

(* ================================================================== *)
(** * agent_app/tools/sql.py: the safety checker *)
(* ================================================================== *)

Module Sql.
Import Py Re.

Definition forbidden : list str :=
  [ L "INSERT"; L "UPDATE"; L "DELETE"; L "DROP"; L "ALTER"; L "TRUNCATE";
    L "CREATE"; L "GRANT"; L "REVOKE"; L "EXEC"; L "EXECUTE" ].

(** The class [[\s;]]. *)
Definition sep_class (c : ascii) : bool := isspace c || ascii_eqb c ";"%char.

(** [r'(^|[\s;])' + word + r'([\s;]|$)']. *)
Definition pattern (word : str) : regex :=
  Cat (Alt Bol (Class sep_class))
      (Cat (Lit word) (Alt (Class sep_class) Eol)).

(** The [for word in forbidden] loop: [False] at the first hit. *)
Fixpoint scan_forbidden (words : list str) (sql_upper : str) : bool :=
  match words with
  | [] => true
  | word :: rest =>
      if search (pattern word) sql_upper then false
      else scan_forbidden rest sql_upper
  end.

Definition is_readonly_sql (sql : str) : bool :=
  let sql_upper := strip (upper sql) in
  scan_forbidden forbidden sql_upper.

End Sql.

(* ================================================================== *)
(** * What the safety checker is specified to detect *)
(* ================================================================== *)

Module SqlSpec.
Import Py Sql.

(** The text before a token ends the left boundary: nothing (start of the
    string), or a last character that is whitespace or a semicolon. *)
Definition boundary_before (pre : str) : Prop :=
  pre = [] \/ exists p c, pre = p ++ [c] /\ sep_class c = true.

(** The text after a token starts with the right boundary: nothing (end of
    the string), or a first character that is whitespace or a semicolon. *)
Definition boundary_after (post : str) : Prop :=
  post = [] \/ exists c t, post = c :: t /\ sep_class c = true.

(** [w] occurs in [s] as a whole token. *)
Definition token_in (w s : str) : Prop :=
  exists pre post,
    s = pre ++ w ++ post /\ boundary_before pre /\ boundary_after post.

(** Some forbidden verb occurs in [s] as a whole token. *)
Definition contains_forbidden_token (s : str) : Prop :=
  exists w, In w forbidden /\ token_in w s.

(** The word followed by its right boundary. *)
Definition word_then_boundary (w s : str) : Prop :=
  exists post, s = w ++ post /\ boundary_after post.

(** The word after a separator, somewhere in the string. *)
Definition sep_word_boundary (w s : str) : Prop :=
  exists p c post,
    s = p ++ c :: w ++ post /\ sep_class c = true /\ boundary_after post.

(** A word of the forbidden list: not empty, and free of whitespace. *)
Definition plain_word (w : str) : Prop :=
  w <> [] /\ Forall (fun c => isspace c = false) w.

(** A search term with every single quote written twice. *)
Definition double_quotes (term : str) : str :=
  flat_map (fun c => if ascii_eqb "'"%char c then L "''" else [c]) term.

(** The body of a SQL string literal, read from just after its opening
    quote: two quotes in a row stand for one quote, a single quote closes
    the literal.  The result is the text denoted and what follows the
    closing quote; an unterminated literal gives [None]. *)
Fixpoint read_literal_body (s : str) : option (str * str) :=
  match s with
  | [] => None
  | c :: t =>
      if ascii_eqb c "'"%char then
        match t with
        | d :: t' =>
            if ascii_eqb d "'"%char then
              match read_literal_body t' with
              | Some (body, rest) => Some ("'"%char :: body, rest)
              | None => None
              end
            else Some ([], t)
        | [] => Some ([], [])
        end
      else
        match read_literal_body t with
        | Some (body, rest) => Some (c :: body, rest)
        | None => None
        end
  end.

End SqlSpec.


(* ================================================================== *)
(** * Python strings as sequences of code points *)
(* ================================================================== *)

Module Unicode.

(** A Python [str]: its code points. *)
Definition ustr := list N.

(** A literal of the sources; they are written in ASCII. *)
Definition U (s : string) : ustr := map N_of_ascii (list_ascii_of_string s).

(** [str.isspace] on one code point, which is also the class [\s] of a
    [str] pattern: the controls TAB..CR and FS..US, the space, NEL, the
    no-break space, and the spaces and separators beyond Latin-1. *)
Definition isspace (c : N) : bool :=
  (((9 <=? c) && (c <=? 13)) || ((28 <=? c) && (c <=? 32))
   || (c =? 133) || (c =? 160) || (c =? 5760)
   || ((8192 <=? c) && (c <=? 8202))
   || (c =? 8232) || (c =? 8233) || (c =? 8239) || (c =? 8287)
   || (c =? 12288))%N.

(** The upper-case mapping of the Unicode database beyond ASCII: a code
    point may be written with several.  The sources do not fix it. *)
Definition casing : Type := N -> list N.

(** [str.upper] on one code point: within ASCII, [a]..[z] go to [A]..[Z]
    and nothing else moves. *)
Definition upper_point (ucd : casing) (c : N) : list N :=
  if (c <? 128)%N
  then [if ((97 <=? c) && (c <=? 122))%N then (c - 32)%N else c]
  else ucd c.

(** [str.upper]: code point by code point, without regard to context. *)
Definition upper (ucd : casing) (s : ustr) : ustr :=
  flat_map (upper_point ucd) s.

Fixpoint lstrip (s : ustr) : ustr :=
  match s with
  | [] => []
  | c :: t => if isspace c then lstrip t else s
  end.

Fixpoint rstrip (s : ustr) : ustr :=
  match s with
  | [] => []
  | c :: t =>
      match rstrip t with
      | [] => if isspace c then [] else [c]
      | t' => c :: t'
      end
  end.

(** [str.strip()]. *)
Definition strip (s : ustr) : ustr := rstrip (lstrip s).

Fixpoint strip_prefix (p s : ustr) : option ustr :=
  match p, s with
  | [], _ => Some s
  | _ :: _, [] => None
  | x :: p', y :: s' => if N.eqb x y then strip_prefix p' s' else None
  end.

Definition all_space (ws : ustr) : Prop :=
  Forall (fun c => isspace c = true) ws.

(** The code points of a string of 8-bit characters, and the strings that
    are ASCII. *)
Definition codes (s : list ascii) : ustr := map N_of_ascii s.

Definition is_ascii (s : list ascii) : Prop :=
  Forall (fun c => (N_of_ascii c < 128)%N) s.

End Unicode.

(* ================================================================== *)
(** * The fragment of [re] and the safety checker, on code points *)
(* ================================================================== *)

Module ReU.
Import Unicode.

Inductive regex : Type :=
| Bol
| Eol
| Class (p : N -> bool)
| Lit (w : ustr)
| Alt (r1 r2 : regex)
| Cat (r1 r2 : regex).

Definition pos : Type := (bool * ustr)%type.

(** As [Re.match_at]: [$] matches at the end of the string and just before
    a newline that ends it. *)
Fixpoint match_at (r : regex) (bos : bool) (s : ustr) : list pos :=
  match r with
  | Bol => if bos then [(bos, s)] else []
  | Eol =>
      match s with
      | [] => [(bos, s)]
      | [c] => if N.eqb c 10 then [(bos, s)] else []
      | _ => []
      end
  | Class p =>
      match s with
      | c :: t => if p c then [(false, t)] else []
      | [] => []
      end
  | Lit w =>
      match strip_prefix w s with
      | Some t => [(match w with [] => bos | _ :: _ => false end, t)]
      | None => []
      end
  | Alt r1 r2 => match_at r1 bos s ++ match_at r2 bos s
  | Cat r1 r2 =>
      flat_map (fun p : pos => match_at r2 (fst p) (snd p)) (match_at r1 bos s)
  end.

Definition matches_here (r : regex) (bos : bool) (s : ustr) : bool :=
  match match_at r bos s with [] => false | _ :: _ => true end.

Fixpoint search_from (r : regex) (bos : bool) (s : ustr) : bool :=
  if matches_here r bos s then true
  else match s with
       | [] => false
       | _ :: t => search_from r false t
       end.

Definition search (r : regex) (s : ustr) : bool := search_from r true s.

End ReU.

Module SqlU.
Import Unicode ReU.

Definition forbidden : list ustr :=
  [ U "INSERT"; U "UPDATE"; U "DELETE"; U "DROP"; U "ALTER"; U "TRUNCATE";
    U "CREATE"; U "GRANT"; U "REVOKE"; U "EXEC"; U "EXECUTE" ].

(** The class [[\s;]]. *)
Definition sep_class (c : N) : bool := isspace c || N.eqb c 59.

(** [r'(^|[\s;])' + word + r'([\s;]|$)']. *)
Definition pattern (word : ustr) : regex :=
  Cat (Alt Bol (Class sep_class))
      (Cat (Lit word) (Alt (Class sep_class) Eol)).

Fixpoint scan_forbidden (words : list ustr) (sql_upper : ustr) : bool :=
  match words with
  | [] => true
  | word :: rest =>
      if search (pattern word) sql_upper then false
      else scan_forbidden rest sql_upper
  end.

(** [is_readonly_sql(sql)] on any Python string. *)
Definition is_readonly_sql (ucd : casing) (sql : ustr) : bool :=
  let sql_upper := strip (upper ucd sql) in
  scan_forbidden forbidden sql_upper.

End SqlU.

(* ================================================================== *)
(** * The two embeddings of the checker, side by side *)
(* ================================================================== *)

Module Sides.
Import Unicode.

(** A pattern on 8-bit characters and the same pattern on code points. *)
Inductive same_pattern : Re.regex -> ReU.regex -> Prop :=
| same_bol : same_pattern Re.Bol ReU.Bol
| same_eol : same_pattern Re.Eol ReU.Eol
| same_class (p : ascii -> bool) (q : N -> bool) :
    (forall c, q (N_of_ascii c) = p c) ->
    same_pattern (Re.Class p) (ReU.Class q)
| same_lit (w : list ascii) : same_pattern (Re.Lit w) (ReU.Lit (codes w))
| same_alt (r1 r2 : Re.regex) (u1 u2 : ReU.regex) :
    same_pattern r1 u1 -> same_pattern r2 u2 ->
    same_pattern (Re.Alt r1 r2) (ReU.Alt u1 u2)
| same_cat (r1 r2 : Re.regex) (u1 u2 : ReU.regex) :
    same_pattern r1 u1 -> same_pattern r2 u2 ->
    same_pattern (Re.Cat r1 r2) (ReU.Cat u1 u2).

(** A position of the one as a position of the other. *)
Definition pos_codes (p : Re.pos) : ReU.pos := (fst p, codes (snd p)).

End Sides.

(* ================================================================== *)
(** * What the safety checker is specified to detect, on code points *)
(* ================================================================== *)

Module SqlUSpec.
Import Unicode.

(** The eleven forbidden verbs. *)
Definition verbs : list ustr :=
  [ U "INSERT"; U "UPDATE"; U "DELETE"; U "DROP"; U "ALTER"; U "TRUNCATE";
    U "CREATE"; U "GRANT"; U "REVOKE"; U "EXEC"; U "EXECUTE" ].

(** The white space of Unicode, code point by code point. *)
Definition whitespace : list N :=
  [ 9; 10; 11; 12; 13; 28; 29; 30; 31; 32; 133; 160; 5760;
    8192; 8193; 8194; 8195; 8196; 8197; 8198; 8199; 8200; 8201; 8202;
    8232; 8233; 8239; 8287; 12288 ]%N.

(** What may stand next to a token: white space or a semicolon. *)
Definition boundary (c : N) : Prop := c = 59%N \/ In c whitespace.

(** The text before a token: nothing, or text that ends in a boundary. *)
Definition starts_token (pre : ustr) : Prop :=
  pre = [] \/ exists p c, pre = p ++ [c] /\ boundary c.

(** The text after a token: nothing, or text that starts with a boundary. *)
Definition ends_token (post : ustr) : Prop :=
  post = [] \/ exists c t, post = c :: t /\ boundary c.

(** [w] stands in [s] as a whole token. *)
Definition whole_token (w s : ustr) : Prop :=
  exists pre post,
    s = pre ++ w ++ post /\ starts_token pre /\ ends_token post.

Definition small_letters : ustr := U "abcdefghijklmnopqrstuvwxyz".
Definition capital_letters : ustr := U "ABCDEFGHIJKLMNOPQRSTUVWXYZ".

(** How one code point is written in upper case: a small letter of ASCII
    becomes the capital letter at the same place of the alphabet, any other
    code point of ASCII stays, and beyond ASCII the Unicode database
    decides. *)
Inductive capital_of (ucd : casing) : N -> list N -> Prop :=
| cap_letter (i : nat) (small capital : N) :
    nth_error small_letters i = Some small ->
    nth_error capital_letters i = Some capital ->
    capital_of ucd small [capital]
| cap_ascii (c : N) :
    (c < 128)%N -> ~ In c small_letters -> capital_of ucd c [c]
| cap_beyond (c : N) :
    (128 <= c)%N -> capital_of ucd c (ucd c).

(** The statement in upper case. *)
Inductive uppercased (ucd : casing) : ustr -> ustr -> Prop :=
| up_nil : uppercased ucd [] []
| up_cons (c : N) (cs : list N) (s s' : ustr) :
    capital_of ucd c cs -> uppercased ucd s s' ->
    uppercased ucd (c :: s) (cs ++ s').

(** Some forbidden verb stands in the upper-cased statement as a whole
    token. *)
Definition holds_forbidden_verb (ucd : casing) (sql : ustr) : Prop :=
  exists sql_upper verb,
    uppercased ucd sql sql_upper /\ In verb verbs
    /\ whole_token verb sql_upper.

(** The same notions with the class of the pattern, used in the proofs. *)
Definition boundary_before_u (pre : ustr) : Prop :=
  pre = [] \/ exists p c, pre = p ++ [c] /\ SqlU.sep_class c = true.

Definition boundary_after_u (post : ustr) : Prop :=
  post = [] \/ exists c t, post = c :: t /\ SqlU.sep_class c = true.

Definition token_in_u (w s : ustr) : Prop :=
  exists pre post,
    s = pre ++ w ++ post /\ boundary_before_u pre /\ boundary_after_u post.

Definition word_then_boundary_u (w s : ustr) : Prop :=
  exists post, s = w ++ post /\ boundary_after_u post.

Definition sep_word_boundary_u (w s : ustr) : Prop :=
  exists p c post,
    s = p ++ c :: w ++ post /\ SqlU.sep_class c = true
    /\ boundary_after_u post.

Definition plain_word_u (w : ustr) : Prop :=
  w <> [] /\ Forall (fun c => isspace c = false) w.

End SqlUSpec.

(* ================================================================== *)
(** * Exceptions, external calls and their log *)
(* ================================================================== *)

Module Effects.
Import Py.

(** An instance of [Exception]: its class and what [str(e)] gives. *)
Record exn : Type := Exn { exn_class : str; exn_str : str }.

Inductive result (A : Type) : Type :=
| Ok (a : A)
| Raise (e : exn).
Arguments Ok {A} a.
Arguments Raise {A} e.

(** JSON-like Python values: filter values, metadata, search filters. *)
Inductive pyval : Type :=
| PNone
| PBool (b : bool)
| PInt (n : nat)
| PStr (s : str)
| PList (l : list pyval)
| PDict (d : list (str * pyval)).

(** A [dict] with string keys, in insertion order. *)
Definition dict : Type := list (str * pyval).

(** [Optional[A]]: [None] is Python's [None]. *)
Definition Optional (A : Type) : Type := option A.

Fixpoint dict_lookup (A : Type) (k : str) (d : list (str * A)) : option A :=
  match d with
  | [] => None
  | (k', v) :: rest => if str_eqb k k' then Some v else dict_lookup k rest
  end.

(** [k in d]. *)
Definition dict_mem (A : Type) (k : str) (d : list (str * A)) : bool :=
  match dict_lookup k d with Some _ => true | None => false end.

(** A conversation turn: [HumanMessage(content=...)], [AIMessage(content=...)]. *)
Inductive BaseMessage : Type :=
| HumanMessage (content : str)
| AIMessage (content : str).

Definition content (m : BaseMessage) : str :=
  match m with HumanMessage c => c | AIMessage c => c end.

(** [RouterOutput] of nodes.py. *)
Record RouterOutput : Type :=
  { ro_intent : str; ro_filters : dict }.

(** [Document] of langchain_core. *)
Record Document : Type :=
  { page_content : str; metadata : dict }.

(** What [get_retriever] hands to [vectorstore.as_retriever]: the search
    type and the [search_kwargs] dictionary, whose ["filter"] and
    ["score_threshold"] keys may be absent.  The threshold is a float that
    is carried along and never computed with; it is kept as its text. *)
Record Retriever : Type :=
  { search_type : str;
    kw_k : nat;
    kw_filter : option pyval;
    kw_score_threshold : option str }.

(** A connected [SQLDatabase]. *)
Record SQLDatabase : Type :=
  { get_table_names : result (list str);
    run : str -> result str }.

(** Everything the sources do not decide.  Each field answers one kind of
    call; [py_repr] is the interpreter's [repr] on values; [first_failure]
    is the race between the nodes that LangGraph runs in one step: of the
    exceptions raised in the step, the position of the one it sees first. *)
Record World : Type :=
  { connect : result SQLDatabase;
    chat : str -> str -> result str;
    structured_router : str -> str -> result RouterOutput;
    react_agent : str -> list BaseMessage -> result (list BaseMessage);
    open_vectorstore : result unit;
    similarity_search : Retriever -> str -> result (list Document);
    py_repr : pyval -> str;
    first_failure : list exn -> nat }.

(** One entry of the log per external call. *)
Inductive event : Type :=
| EvGetDb
| EvGetTableNames
| EvRun (query : str)
| EvChat (system input : str)
| EvRouter (system input : str)
| EvAgent (system : str) (msgs : list BaseMessage)
| EvVectorStore
| EvSearch (r : Retriever) (query : str).

(** A computation: the calls it made, and a value or a raised exception. *)
Definition M (A : Type) : Type := (list event * result A)%type.

Definition ret (A : Type) (a : A) : M A := ([], Ok a).

Definition raise (A : Type) (e : exn) : M A := ([], Raise e).
Arguments raise {A} e.

Definition bind (A B : Type) (m : M A) (k : A -> M B) : M B :=
  match m with
  | (log, Ok a) => let (log', r) := k a in (log ++ log', r)
  | (log, Raise e) => (log, Raise e)
  end.

(** [try: body / except Exception as e: handler(e)]. *)
Definition try_except (A : Type) (body : M A) (handler : exn -> M A) : M A :=
  match body with
  | (log, Ok a) => (log, Ok a)
  | (log, Raise e) => let (log', r) := handler e in (log ++ log', r)
  end.

(** An external call: one log entry and the world's answer. *)
Definition call (A : Type) (ev : event) (answer : result A) : M A :=
  ([ev], answer).

Definition log_of (A : Type) (m : M A) : list event := fst m.
Definition outcome (A : Type) (m : M A) : result A := snd m.

(** [str(v)]: a string is itself, anything else prints as its [repr]. *)
Definition py_str (w : World) (v : pyval) : str :=
  match v with PStr s => s | _ => py_repr w v end.

(** Truthiness of the values the nodes test. *)
Definition truthy_opt_str (v : Optional str) : bool :=
  match v with None => false | Some s => truthy_str s end.

Definition truthy_opt_dict (v : Optional dict) : bool :=
  match v with None => false | Some [] => false | Some (_ :: _) => true end.

(** [f"{v}"] for an [Optional[str]]. *)
Definition format_opt_str (v : Optional str) : str :=
  match v with None => L "None" | Some s => s end.

End Effects.

Declare Scope py_scope.
Delimit Scope py_scope with py.
Notation "x <- m ;; k" := (Effects.bind m (fun x => k))
  (at level 61, m at next level, right associativity) : py_scope.
Open Scope py_scope.

(* ================================================================== *)
(** * agent_app/tools/sql.py: the tools *)
(* ================================================================== *)

Module SqlTools.
Import Py Sql Effects.

(** [get_db()] of services/database.py: connect, and re-raise on failure. *)
Definition get_db (w : World) : M SQLDatabase :=
  call EvGetDb (connect w).

Definition refusal : str :=
  L "Error: The query contains forbidden (write/modify) keywords. Execution aborted for safety.".

Definition sql_db_is_readonly (query : str) : M bool :=
  ret (is_readonly_sql query).

Definition sql_db_list_tables (w : World) : M str :=
  db <- get_db w ;;
  tables <- call EvGetTableNames (get_table_names db) ;;
  ret (join (L ", ") tables).

Definition sql_db_query (w : World) (query : str) : M str :=
  if negb (is_readonly_sql query) then ret refusal
  else
    db <- get_db w ;;
    try_except
      (call (EvRun query) (run db query))
      (fun e => ret (L "Error executing SQL: " ++ exn_str e)).

(** The statement built by [sql_db_column_value_checker]. *)
Definition value_query (table column search_term : str) : str :=
  let safe_term := replace search_term (L "'") (L "''") in
  L "SELECT DISTINCT TOP 10 " ++ column ++ L " FROM " ++ table
    ++ L " WHERE " ++ column ++ L " LIKE '%" ++ safe_term ++ L "%'".

Definition sql_db_column_value_checker
    (w : World) (table column search_term : str) : M str :=
  db <- get_db w ;;
  all_tables <- call EvGetTableNames (get_table_names db) ;;
  if negb (str_in table all_tables)
  then ret (L "Error: Table '" ++ table ++ L "' does not exist.")
  else
    try_except
      (let query := value_query table column search_term in
       call (EvRun query) (run db query))
      (fun e => ret (L "Error checking values: " ++ exn_str e)).

End SqlTools.

(* ================================================================== *)
(** * backend/services/vector.py *)
(* ================================================================== *)

Module Vector.
Import Py Effects.

Definition dsl_keywords : list str :=
  [ L "bool"; L "term"; L "match"; L "range" ].

(** [any(k in filter_dict for k in ["bool", "term", "match", "range"])]. *)
Definition looks_like_dsl (filter_dict : dict) : bool :=
  existsb (fun k => dict_mem k filter_dict) dsl_keywords.

(** [key if key.startswith("metadata.") else f"metadata.{key}"]. *)
Definition field_name (key : str) : str :=
  if startswith key (L "metadata.") then key else L "metadata." ++ key.

(** One round of the [for key, value in filter_dict.items()] loop: the
    clause appended to [filters]. *)
Definition clause (key : str) (value : pyval) : pyval :=
  let field_name := field_name key in
  match value with
  | PStr _ => PDict [(L "term", PDict [(field_name ++ L ".keyword", value)])]
  | PList _ => PDict [(L "terms", PDict [(field_name ++ L ".keyword", value)])]
  | _ => PDict [(L "term", PDict [(field_name, value)])]
  end.

Fixpoint clauses (items : dict) : list pyval :=
  match items with
  | [] => []
  | (key, value) :: rest => clause key value :: clauses rest
  end.

(** The result is [None] or a dictionary. *)
Definition _convert_to_opensearch_filter (filter_dict : dict) : pyval :=
  match filter_dict with
  | [] => PNone
  | _ :: _ =>
      if looks_like_dsl filter_dict then PDict filter_dict
      else
        let filters := clauses filter_dict in
        match filters with
        | [only] => PDict [(L "bool", PDict [(L "filter", only)])]
        | _ => PDict [(L "bool", PDict [(L "filter", PList filters)])]
        end
  end.

(** [get_vectorstore()]: build the embeddings and the OpenSearch client. *)
Definition get_vectorstore (w : World) : M unit :=
  call EvVectorStore (open_vectorstore w).

(** [get_retriever(k=4, filter=None, score_threshold=None)]; an omitted
    [k] is [None] here and takes the default. *)
Definition get_retriever
    (w : World) (k : option nat) (filter : Optional dict)
    (score_threshold : Optional str) : M Retriever :=
  let k := match k with Some k => k | None => 4 end in
  _ <- get_vectorstore w ;;
  let kw_filter :=
    if truthy_opt_dict filter
    then match filter with
         | Some d => Some (_convert_to_opensearch_filter d)
         | None => None
         end
    else None in
  match score_threshold with
  | Some t =>
      ret {| search_type := L "similarity_score_threshold"; kw_k := k;
             kw_filter := kw_filter; kw_score_threshold := Some t |}
  | None =>
      ret {| search_type := L "similarity"; kw_k := k;
             kw_filter := kw_filter; kw_score_threshold := None |}
  end.

End Vector.

(* ================================================================== *)
(** * What the filter conversion is specified to produce *)
(* ================================================================== *)

Module VectorSpec.
Import Py Effects.

Definition has_prefix (p s : str) : Prop := exists rest, s = p ++ rest.

(** The field a key is filed under: itself when it already starts with
    [metadata.], else the key with that prefix. *)
Inductive namespaced (key : str) : str -> Prop :=
| ns_kept : has_prefix (L "metadata.") key -> namespaced key key
| ns_added :
    ~ has_prefix (L "metadata.") key -> namespaced key (L "metadata." ++ key).

(** The clause for one item of a flat filter. *)
Inductive clause_for : str * pyval -> pyval -> Prop :=
| cf_str key s field :
    namespaced key field ->
    clause_for (key, PStr s)
      (PDict [(L "term", PDict [(field ++ L ".keyword", PStr s)])])
| cf_list key l field :
    namespaced key field ->
    clause_for (key, PList l)
      (PDict [(L "terms", PDict [(field ++ L ".keyword", PList l)])])
| cf_other key v field :
    namespaced key field ->
    (forall s, v <> PStr s) -> (forall l, v <> PList l) ->
    clause_for (key, v) (PDict [(L "term", PDict [(field, v)])]).

(** A boolean filter over clauses: one clause stands alone, several form a
    list. *)
Definition bool_filter (cs : list pyval) : pyval :=
  PDict [(L "bool",
          PDict [(L "filter", match cs with [c] => c | _ => PList cs end)])].

(** Some key of the dictionary is one of [bool], [term], [match], [range]. *)
Definition contains_dsl_keyword (d : dict) : Prop :=
  exists k v,
    In k [L "bool"; L "term"; L "match"; L "range"] /\ In (k, v) d.

End VectorSpec.

(* ================================================================== *)
(** * backend/tools/rag.py *)
(* ================================================================== *)

Module Rag.
Import Py Effects Vector.

Definition nl : str := ["010"%char].

Definition no_documents : str := L "No relevant documents found.".

(** [doc.metadata.get("source", "Unknown")], as printed by the f-string. *)
Definition source_of (w : World) (doc : Document) : str :=
  match dict_lookup (L "source") (metadata doc) with
  | Some v => py_str w v
  | None => L "Unknown"
  end.

(** [f"Content: {doc.page_content}\nSource: {source}\nMetadata: {doc.metadata}\n"]. *)
Definition format_doc (w : World) (doc : Document) : str :=
  L "Content: " ++ page_content doc ++ nl
    ++ L "Source: " ++ source_of w doc ++ nl
    ++ L "Metadata: " ++ py_repr w (PDict (metadata doc)) ++ nl.

Definition separator : str := nl ++ L "---" ++ nl.

(** [retrieve_documents(query, k=4, filters=None)]. *)
Definition retrieve_documents
    (w : World) (query : str) (k : option nat) (filters : Optional dict)
    : M str :=
  let k := match k with Some k => k | None => 4 end in
  retriever <- get_retriever w (Some k) filters None ;;
  docs <- call (EvSearch retriever query) (similarity_search w retriever query) ;;
  match docs with
  | [] => ret no_documents
  | _ :: _ => ret (join separator (map (format_doc w) docs))
  end.

End Rag.

(* ================================================================== *)
(** * backend/graph/state.py *)
(* ================================================================== *)

Module State.
Import Py Effects.

(** [AgentState]: a [TypedDict]; a field is [None] when the key is absent,
    and a key declared [Optional[...]] may hold Python's [None].  The
    dictionaries the nodes return are partial states of the same shape. *)
Record AgentState : Type :=
  { messages : option (list BaseMessage);
    clarification_needed : option bool;
    sql_query : option (Optional str);
    rag_context : option (Optional str);
    sql_result : option (Optional str);
    intent : option (Optional str);
    filters : option (Optional dict);
    final_answer : option (Optional str) }.

(** The dictionary [{}]. *)
Definition empty : AgentState :=
  {| messages := None; clarification_needed := None; sql_query := None;
     rag_context := None; sql_result := None; intent := None;
     filters := None; final_answer := None |}.

(** [d.get(key, default)] on one field. *)
Definition get (A : Type) (field : option A) (default : A) : A :=
  match field with Some v => v | None => default end.

(** [key in d] on one field. *)
Definition present (A : Type) (field : option A) : bool :=
  match field with Some _ => true | None => false end.

(** The keys a dictionary holds, in the order of the declaration. *)
Definition keys (u : AgentState) : list str :=
  (if present (messages u) then [L "messages"] else [])
  ++ (if present (clarification_needed u) then [L "clarification_needed"] else [])
  ++ (if present (sql_query u) then [L "sql_query"] else [])
  ++ (if present (rag_context u) then [L "rag_context"] else [])
  ++ (if present (sql_result u) then [L "sql_result"] else [])
  ++ (if present (intent u) then [L "intent"] else [])
  ++ (if present (filters u) then [L "filters"] else [])
  ++ (if present (final_answer u) then [L "final_answer"] else []).

(** A key without a reducer keeps the last value written. *)
Definition last_value (A : Type) (old new : option A) : option A :=
  match new with Some v => Some v | None => old end.

(** [add_messages], the reducer of [messages]: new turns are appended. *)
Definition add_messages (old new : option (list BaseMessage))
    : option (list BaseMessage) :=
  match new with
  | None => old
  | Some n => Some (get old [] ++ n)
  end.

(** The state after a node's dictionary [u] is written into [s]. *)
Definition apply_update (s u : AgentState) : AgentState :=
  {| messages := add_messages (messages s) (messages u);
     clarification_needed :=
       last_value (clarification_needed s) (clarification_needed u);
     sql_query := last_value (sql_query s) (sql_query u);
     rag_context := last_value (rag_context s) (rag_context u);
     sql_result := last_value (sql_result s) (sql_result u);
     intent := last_value (intent s) (intent u);
     filters := last_value (filters s) (filters u);
     final_answer := last_value (final_answer s) (final_answer u) |}.

(** [state['messages']]. *)
Definition state_messages (s : AgentState) : M (list BaseMessage) :=
  match messages s with
  | Some ms => ret ms
  | None => raise (Exn (L "KeyError") (L "'messages'"))
  end.

(** [messages[-1]]. *)
Definition last_of (ms : list BaseMessage) : M BaseMessage :=
  match rev ms with
  | m :: _ => ret m
  | [] => raise (Exn (L "IndexError") (L "list index out of range"))
  end.

(** [messages[-1].content]. *)
Definition last_content (ms : list BaseMessage) : M str :=
  m <- last_of ms ;; ret (content m).

End State.

(* ================================================================== *)
(** * Prompt templates: [str.format] fields and [ChatPromptTemplate] *)
(* ================================================================== *)

Module Template.
Import Py Effects.

Definition value_error (message : string) : exn :=
  Exn (L "ValueError") (L message).

(** Where the scanner of [string.Formatter().parse] is: in literal text,
    just after a brace of the literal text, in the name of a field, inside
    brackets in the name, at or after a conversion, or in the format
    specification with [depth] braces open. *)
Inductive mode : Type :=
| Literal
| AfterOpen
| AfterClose
| Name (name : str)
| Index (name : str)
| Conversion (name : str)
| AfterConversion (name : str)
| Spec (name : str) (depth : nat).

Inductive stepped : Type :=
| Go (m : mode)
| Emit (name : str)
| Fail (e : exn).

(** One character of a field name. *)
Definition name_char (name : str) (c : ascii) : stepped :=
  if ascii_eqb c "{"%char then
    Fail (value_error "unexpected '{' in field name")
  else if ascii_eqb c "["%char then Go (Index (name ++ [c]))
  else if ascii_eqb c "}"%char then Emit name
  else if ascii_eqb c ":"%char then Go (Spec name 0)
  else if ascii_eqb c "!"%char then Go (Conversion name)
  else Go (Name (name ++ [c])).

Definition step (m : mode) (c : ascii) : stepped :=
  match m with
  | Literal =>
      if ascii_eqb c "{"%char then Go AfterOpen
      else if ascii_eqb c "}"%char then Go AfterClose
      else Go Literal
  | AfterOpen =>
      if ascii_eqb c "{"%char then Go Literal else name_char [] c
  | AfterClose =>
      if ascii_eqb c "}"%char then Go Literal
      else Fail (value_error "Single '}' encountered in format string")
  | Name name => name_char name c
  | Index name =>
      if ascii_eqb c "]"%char then Go (Name (name ++ [c]))
      else Go (Index (name ++ [c]))
  | Conversion name => Go (AfterConversion name)
  | AfterConversion name =>
      if ascii_eqb c "}"%char then Emit name
      else if ascii_eqb c ":"%char then Go (Spec name 0)
      else Fail (value_error "expected ':' after conversion specifier")
  | Spec name depth =>
      if ascii_eqb c "{"%char then Go (Spec name (S depth))
      else if ascii_eqb c "}"%char then
        match depth with
        | O => Emit name
        | S depth' => Go (Spec name depth')
        end
      else Go (Spec name depth)
  end.

Definition at_end (m : mode) : result (list str) :=
  match m with
  | Literal => Ok []
  | AfterOpen =>
      Raise (value_error "Single '{' encountered in format string")
  | AfterClose =>
      Raise (value_error "Single '}' encountered in format string")
  | Name _ | Index _ =>
      Raise (value_error "expected '}' before end of string")
  | Conversion _ =>
      Raise (value_error
               "end of string while looking for conversion specifier")
  | AfterConversion _ | Spec _ _ =>
      Raise (value_error "unmatched '{' in format spec")
  end.

(** The field names of a format string, in order; a doubled brace is a
    brace of the text. *)
Fixpoint scan (m : mode) (s : str) : result (list str) :=
  match s with
  | [] => at_end m
  | c :: t =>
      match step m c with
      | Go m' => scan m' t
      | Emit name =>
          match scan Literal t with
          | Ok names => Ok (name :: names)
          | Raise e => Raise e
          end
      | Fail e => Raise e
      end
  end.

(** [get_template_variables(template, "f-string")], before the set is
    sorted. *)
Definition template_variables (template : str) : result (list str) :=
  scan Literal template.

(** The input variables of
    [ChatPromptTemplate.from_messages([("system", system), ("user", user)])]:
    those of both templates.  A malformed template raises here, where the
    prompt is built. *)
Definition chat_prompt_variables (system user : str) : M (list str) :=
  match template_variables system with
  | Raise e => raise e
  | Ok from_system =>
      match template_variables user with
      | Raise e => raise e
      | Ok from_user => ret (from_system ++ from_user)
      end
  end.

(** The first thing [prompt.invoke(inputs)] does: every input variable of
    the prompt must be a key of [inputs], or [KeyError] is raised. *)
Definition check_inputs (w : World) (variables given : list str) : M unit :=
  match filter (fun v => negb (str_in v given)) variables with
  | [] => ret tt
  | v :: missing =>
      raise (Exn (L "KeyError")
               (L "Input to ChatPromptTemplate is missing variables "
                  ++ py_repr w (PList (map PStr (v :: missing)))))
  end.

End Template.

(* ================================================================== *)
(** * agent_app/graph/nodes.py *)
(* ================================================================== *)

Module Nodes.
Import Py Effects State Rag Template.

(** The double quote, and a text given line by line. *)
Definition dq : str := ["034"%char].
Definition text (lines : list str) : str := join nl lines.

Definition router_system_prompt : str :=
  text
    [ L "You are an intelligent router for an AI assistant.";
      L "    Your task is to classify the user's query and extract any metadata filters.";
      L "    ";
      L "    INTENT CATEGORIES:";
      L "    - " ++ dq ++ L "RAG" ++ dq ++ L ": about documents, text, policies (unstructured).";
      L "    - " ++ dq ++ L "SQL" ++ dq ++ L ": about structured data, counting records, statistics.";
      L "    - " ++ dq ++ L "BOTH" ++ dq ++ L ": requires both.";
      L "    - " ++ dq ++ L "OFFTOPIC" ++ dq ++ L ": unrelated.";
      L "    ";
      L "    FILTERS:";
      L "    If the user mentions specific categories, dates, departments, or sources that acts as a filter, extract them.";
      L "    Examples:";
      L "    " ++ dq ++ L "Show me sales reports" ++ dq ++ L " -> filters: {"
        ++ dq ++ L "department" ++ dq ++ L ": " ++ dq ++ L "sales" ++ dq ++ L "}";
      L "    " ++ dq ++ L "Policies from 2024" ++ dq ++ L " -> filters: {"
        ++ dq ++ L "year" ++ dq ++ L ": " ++ dq ++ L "2024" ++ dq ++ L "}";
      L "    " ].

Definition valid_intents : list str :=
  [ L "RAG"; L "SQL"; L "BOTH"; L "OFFTOPIC" ].

(** The prompt of the router's chain, built from [system_prompt] and
    ["{input}"]: its input variables.  The braces of the two examples in
    [system_prompt] are read as fields. *)
Definition router_prompt : M (list str) :=
  chat_prompt_variables router_system_prompt (L "{input}").

(** [router_chain.invoke({"input": last_message})]: the prompt checks its
    inputs, then the model is called. *)
Definition router_chain (w : World) (variables : list str) (input : str)
    : M RouterOutput :=
  _ <- check_inputs w variables [L "input"] ;;
  call (EvRouter router_system_prompt input)
       (structured_router w router_system_prompt input).

(** [{"intent": intent, "filters": filters}]. *)
Definition router_dict (intent : str) (filters : dict) : AgentState :=
  {| State.messages := None; clarification_needed := None;
     sql_query := None; rag_context := None; sql_result := None;
     State.intent := Some (Some intent);
     State.filters := Some (Some filters);
     final_answer := None |}.

Definition router_node (w : World) (state : AgentState) : M AgentState :=
  messages <- state_messages state ;;
  last_message <- last_content messages ;;
  variables <- router_prompt ;;
  decided <-
    try_except
      (result <- router_chain w variables last_message ;;
       let intent := upper (strip (ro_intent result)) in
       let filters := ro_filters result in
       ret (intent, filters))
      (fun _ => ret (L "OFFTOPIC", [])) ;;
  let intent :=
    if negb (str_in (fst decided) valid_intents) then L "OFFTOPIC"
    else fst decided in
  let filters := snd decided in
  ret (router_dict intent filters).

(** [{"rag_context": context}]. *)
Definition rag_dict (context : str) : AgentState :=
  {| State.messages := None; clarification_needed := None;
     sql_query := None; rag_context := Some (Some context);
     sql_result := None; intent := None; State.filters := None;
     final_answer := None |}.

Definition rag_node (w : World) (state : AgentState) : M AgentState :=
  messages <- state_messages state ;;
  query <- last_content messages ;;
  let filters := get (State.filters state) (Some []) in
  context <- retrieve_documents w query None filters ;;
  ret (rag_dict context).

(** [f"\n    CRITICAL: ...\n    {filters}"]. *)
Definition filter_context (w : World) (filters : Optional dict) : str :=
  if truthy_opt_dict filters
  then nl ++ L "    CRITICAL: The user has specified the following context/filters. You MUST apply them:"
       ++ nl ++ L "    "
       ++ match filters with
          | Some d => py_repr w (PDict d)
          | None => L "None"
          end
  else [].

Definition sql_system_prompt (filter_context : str) : str :=
  text
    [ L "You are an advanced SQL agent for Microsoft SQL Server.";
      L "    Your goal is to answer the user's question by querying the database.";
      L "    ";
      L "    CRITICAL SECURITY CONSTRAINT:";
      L "    - You must NEVER return raw data rows. ";
      L "    - You MUST ONLY return aggregated data (COUNT, SUM, AVG, MIN, MAX, GROUP BY).";
      L "    - If the user asks for raw records (e.g. " ++ dq ++ L "Show me all sales"
        ++ dq ++ L "), you must aggregate them (e.g. " ++ dq ++ L "Count of sales"
        ++ dq ++ L ", " ++ dq ++ L "Sales by region" ++ dq
        ++ L ") or explain you can only show summaries.";
      L "    - Queries like `SELECT *` or `SELECT col1, col2` without aggregation are STRICTLY FORBIDDEN.";
      L "    ";
      L "    You have access to tools to:";
      L "    1. List tables (`sql_db_list_tables`)";
      L "    2. Get table schema (`sql_db_schema`)";
      L "    3. Check specific column values for fuzzy matching (`sql_db_column_value_checker`)";
      L "    4. Check your query syntax (`sql_db_query_checker`)";
      L "    5. Verify query only returns aggregates (`sql_db_is_aggregate_only`)";
      L "    6. Execute the query (`sql_db_query`)";
      L "    ";
      L "    Workflow:";
      L "    1. Start by listing tables to understand what's available.";
      L "    2. Get schema for relevant tables.";
      L "    3. If the user filter is vague (e.g. " ++ dq ++ L "Sales" ++ dq
        ++ L "), use `sql_db_column_value_checker` to find the exact database value.";
      L "    4. CRITICAL: Verify your query is aggregation-only using `sql_db_is_aggregate_only`.";
      L "    5. Validate your query logic with `sql_db_query_checker`.";
      L "    6. Execute the query with `sql_db_query`.";
      L "    ";
      L "    " ++ filter_context;
      L "    ";
      L "    Output the final answer based on the query result.";
      L "    " ].

(** The ReAct agent built by [create_react_agent] and run on the messages;
    its tools are those of sql.py. *)
Definition agent_executor (w : World) (system_prompt : str)
    (messages : list BaseMessage) : M (list BaseMessage) :=
  call (EvAgent system_prompt messages) (react_agent w system_prompt messages).

(** [{"sql_result": last_message.content}]. *)
Definition sql_dict (answer : str) : AgentState :=
  {| State.messages := None; clarification_needed := None;
     sql_query := None; rag_context := None;
     sql_result := Some (Some answer); intent := None;
     State.filters := None; final_answer := None |}.

Definition sql_gen_node (w : World) (state : AgentState) : M AgentState :=
  messages <- state_messages state ;;
  query <- last_content messages ;;
  let filters := get (State.filters state) (Some []) in
  let system_prompt := sql_system_prompt (filter_context w filters) in
  result <- agent_executor w system_prompt messages ;;
  last_message <- last_of result ;;
  ret (sql_dict (content last_message)).

(** [sql_exec_node]: deprecated, returns [{}]. *)
Definition sql_exec_node (w : World) (state : AgentState) : M AgentState :=
  ret State.empty.

Definition response_system_prompt : str :=
  text
    [ L "You are a helpful assistant.";
      L "    Answer the user's question based on the provided context.";
      L "    If the context contains database results, interpret them friendly.";
      L "    If the context contains document excerpts, cite the source if available.";
      L "    If you don't know, say you don't know.";
      L "    " ].

(** The two [if ...: full_context += ...] statements of [response_node]. *)
Definition full_context (rag_context sql_result : Optional str) : str :=
  let full_context := [] in
  let full_context :=
    if truthy_opt_str rag_context
    then full_context ++ L "Document Context:" ++ nl
           ++ format_opt_str rag_context ++ nl ++ nl
    else full_context in
  let full_context :=
    if truthy_opt_str sql_result
    then full_context ++ L "Database Result:" ++ nl
           ++ format_opt_str sql_result ++ nl ++ nl
    else full_context in
  full_context.

(** [f"Context:\n{full_context}\n\nQuestion: {original_query}"]. *)
Definition input_text (full_context original_query : str) : str :=
  L "Context:" ++ nl ++ full_context ++ nl ++ nl
    ++ L "Question: " ++ original_query.

(** [response_chain.invoke({"input": input_text})]. *)
Definition response_chain (w : World) (input : str) : M str :=
  call (EvChat response_system_prompt input)
       (chat w response_system_prompt input).

(** [{"final_answer": answer, "messages": [AIMessage(content=answer)]}]. *)
Definition response_dict (answer : str) : AgentState :=
  {| State.messages := Some [AIMessage answer];
     clarification_needed := None; sql_query := None;
     State.rag_context := None; State.sql_result := None;
     State.intent := None; State.filters := None;
     final_answer := Some (Some answer) |}.

Definition response_node (w : World) (state : AgentState) : M AgentState :=
  messages <- state_messages state ;;
  original_query <- last_content messages ;;
  let intent := get (State.intent state) None in
  let rag_context := get (State.rag_context state) (Some []) in
  let sql_result := get (State.sql_result state) (Some []) in
  let full_context := full_context rag_context sql_result in
  let input_text := input_text full_context original_query in
  answer <- response_chain w input_text ;;
  ret (response_dict answer).

End Nodes.

(* ================================================================== *)
(** * What the response synthesizer is specified to assemble *)
(* ================================================================== *)

Module NodesSpec.
Import Py Effects Rag.

(** The value stored under a key is the non-empty string [r]. *)
Definition nonempty_string (v : option (Optional str)) (r : str) : Prop :=
  v = Some (Some r) /\ r <> [].

(** The value is absent: no key, [None], or the empty string. *)
Definition absent (v : option (Optional str)) : Prop :=
  forall r, ~ nonempty_string v r.

Definition doc_section (r : str) : str :=
  L "Document Context:" ++ nl ++ r ++ nl ++ nl.

Definition db_section (q : str) : str :=
  L "Database Result:" ++ nl ++ q ++ nl ++ nl.

(** The user message built around a context block. *)
Definition prompt_around (context query : str) : str :=
  L "Context:" ++ nl ++ context ++ nl ++ nl ++ L "Question: " ++ query.

End NodesSpec.

(* ================================================================== *)
(** * agent_app/graph/graph.py *)
(* ================================================================== *)

Module Graph.
Import Py Effects State Nodes.

(** LangGraph's [END]. *)
Definition END : str := L "__end__".

Definition node_fn : Type := World -> AgentState -> M AgentState.

(** What a path function may return: one name, or a list of names. *)
Inductive route : Type :=
| One (name : str)
| Many (names : list str).

(** A conditional edge: its source, path function and path map. *)
Record Branch : Type :=
  { br_source : str;
    br_path : AgentState -> route;
    br_map : list (str * str) }.

(** A [StateGraph(AgentState)] under construction. *)
Record StateGraph : Type :=
  { nodes : list (str * node_fn);
    entry_point : option str;
    branches : list Branch;
    edges : list (str * str) }.

Definition new_graph : StateGraph :=
  {| nodes := []; entry_point := None; branches := []; edges := [] |}.

Definition add_node (name : str) (fn : node_fn) (g : StateGraph) : StateGraph :=
  {| nodes := nodes g ++ [(name, fn)]; entry_point := entry_point g;
     branches := branches g; edges := edges g |}.

Definition set_entry_point (name : str) (g : StateGraph) : StateGraph :=
  {| nodes := nodes g; entry_point := Some name;
     branches := branches g; edges := edges g |}.

Definition add_conditional_edges (source : str) (path : AgentState -> route)
    (path_map : list (str * str)) (g : StateGraph) : StateGraph :=
  {| nodes := nodes g; entry_point := entry_point g;
     branches := branches g
       ++ [{| br_source := source; br_path := path; br_map := path_map |}];
     edges := edges g |}.

Definition add_edge (source target : str) (g : StateGraph) : StateGraph :=
  {| nodes := nodes g; entry_point := entry_point g;
     branches := branches g; edges := edges g ++ [(source, target)] |}.

(** [intent == "..."] on the value of [state.get("intent")]. *)
Definition intent_is (intent : Optional str) (name : str) : bool :=
  match intent with Some s => str_eqb s name | None => false end.

Definition route_decision (state : AgentState) : route :=
  let intent := get (State.intent state) None in
  if intent_is intent (L "RAG") then One (L "rag")
  else if intent_is intent (L "SQL") then One (L "sql_gen")
  else if intent_is intent (L "BOTH") then Many [L "rag"; L "sql_gen"]
  else One (L "response").

(** [build_graph()], statement by statement. *)
Definition build_graph : StateGraph :=
  let workflow := new_graph in
  let workflow := add_node (L "router") router_node workflow in
  let workflow := add_node (L "rag") rag_node workflow in
  let workflow := add_node (L "sql_gen") sql_gen_node workflow in
  let workflow := add_node (L "response") response_node workflow in
  let workflow := set_entry_point (L "router") workflow in
  let workflow :=
    add_conditional_edges (L "router") route_decision
      [ (L "rag", L "rag"); (L "sql_gen", L "sql_gen");
        (L "response", L "response") ] workflow in
  let workflow := add_edge (L "rag") (L "response") workflow in
  let workflow := add_edge (L "sql_gen") (L "response") workflow in
  let workflow := add_edge (L "response") END workflow in
  workflow.

(** ** How the compiled graph runs *)

Definition route_names (r : route) : list str :=
  match r with One n => [n] | Many ns => ns end.

(** The nodes a conditional edge selects in [state]: each name the path
    function returns, looked up in the path map. *)
Definition branch_targets (b : Branch) (state : AgentState) : list str :=
  flat_map
    (fun n => match dict_lookup n (br_map b) with
              | Some target => [target]
              | None => []
              end)
    (route_names (br_path b state)).

(** Where control goes after node [name] has written its result: the
    targets of its conditional edges, then those of its plain edges. *)
Definition successors (g : StateGraph) (name : str) (state : AgentState)
    : list str :=
  flat_map
    (fun b => if str_eqb (br_source b) name then branch_targets b state else [])
    (branches g)
  ++ flat_map
       (fun e => if str_eqb (fst e) name then [snd e] else [])
       (edges g).

(** Names without repetition, first occurrences kept. *)
Fixpoint dedup (names : list str) : list str :=
  match names with
  | [] => []
  | n :: rest => n :: filter (fun m => negb (str_eqb n m)) (dedup rest)
  end.

(** One node of a step: its dictionary, and where it sends control, read on
    the state with that dictionary written. *)
Definition run_node (g : StateGraph) (w : World) (state : AgentState)
    (name : str) : M (AgentState * list str) :=
  match dict_lookup name (nodes g) with
  | None => raise (Exn (L "KeyError") name)
  | Some fn =>
      update <- fn w state ;;
      ret (update, successors g name (apply_update state update))
  end.

(** The exceptions raised, and the values returned, in order. *)
Definition failures (A : Type) (rs : list (result A)) : list exn :=
  flat_map (fun r => match r with Raise e => [e] | Ok _ => [] end) rs.

Definition returned (A : Type) (rs : list (result A)) : list A :=
  flat_map (fun r => match r with Ok a => [a] | Raise _ => [] end) rs.

(** One step: all its nodes are started on the same state and each runs to
    its end, so the calls of every node are made.  The log lists them node
    by node; between the calls of two nodes of one step the order means
    nothing.  When some node raised, the step raises the exception the
    engine saw first. *)
Definition run_step (g : StateGraph) (w : World) (state : AgentState)
    (active : list str) : M (list (AgentState * list str)) :=
  let tasks := map (run_node g w state) active in
  let log := flat_map (fun task => log_of task) tasks in
  let results := map (fun task => outcome task) tasks in
  match failures results with
  | [] => (log, Ok (returned results))
  | e :: es =>
      (log,
       Raise (nth (first_failure w (e :: es) mod length (e :: es))
                  (e :: es) e))
  end.

(** Steps until no node is active; [limit] is the recursion limit. *)
Fixpoint run_steps (limit : nat) (g : StateGraph) (w : World)
    (active : list str) (state : AgentState) : M AgentState :=
  match active with
  | [] => ret state
  | _ :: _ =>
      match limit with
      | O => raise (Exn (L "GraphRecursionError") (L "Recursion limit reached"))
      | S limit' =>
          outs <- run_step g w state active ;;
          let state' := fold_left apply_update (map fst outs) state in
          let next :=
            dedup (filter (fun n => negb (str_eqb n END))
                          (flat_map snd outs)) in
          run_steps limit' g w next state'
      end
  end.

Definition recursion_limit : nat := 25.

(** The channels before the input is written: a key with a reducer holds
    the empty value of its type, every other key is absent. *)
Definition channels_at_start : AgentState :=
  {| messages := Some []; clarification_needed := None; sql_query := None;
     rag_context := None; sql_result := None; intent := None;
     filters := None; final_answer := None |}.

(** [graph.invoke(inputs)]: the input is written into the channels like the
    dictionary of a node, then the steps run. *)
Definition invoke (g : StateGraph) (w : World) (inputs : AgentState)
    : M AgentState :=
  match entry_point g with
  | Some start =>
      run_steps recursion_limit g w [start]
        (apply_update channels_at_start inputs)
  | None => raise (Exn (L "ValueError") (L "Graph must have an entrypoint"))
  end.

End Graph.

(* ================================================================== *)
(** * ui.py: one chat turn *)
(* ================================================================== *)

Module Ui.
Import Py Effects State Graph.

(** An entry of [st.session_state.messages]. *)
Record chat_message : Type := { role : str; shown : str }.

(** What the assistant placeholder ends up showing. *)
Inductive placeholder : Type :=
| Markdown (text : str)
| Error (text : str).

(** The body of [if prompt := st.chat_input(...)]: the new history, and the
    placeholder. *)
Definition on_prompt (w : World) (history : list chat_message) (prompt : str)
    : M (list chat_message * placeholder) :=
  let history := history ++ [{| role := L "user"; shown := prompt |}] in
  try_except
    (let inputs :=
       {| messages := Some [HumanMessage prompt];
          clarification_needed := None; sql_query := None;
          rag_context := None; sql_result := None; intent := None;
          filters := None; final_answer := None |} in
     result <- invoke build_graph w inputs ;;
     let final_answer :=
       format_opt_str
         (get (final_answer result) (Some (L "No response generated."))) in
     ret (history ++ [{| role := L "assistant"; shown := final_answer |}],
          Markdown final_answer))
    (fun e => ret (history, Error (L "Error: " ++ exn_str e))).

End Ui.

(* ================================================================== *)
(** * More of the Python runtime *)
(* ================================================================== *)

Module PyMore.
Import Py Effects.

(** [str.lower], character by character: [A]..[Z] go to [a]..[z]. *)
Definition lower_char (c : ascii) : ascii :=
  let n := nat_of_ascii c in
  if (65 <=? n) && (n <=? 90) then ascii_of_nat (n + 32) else c.

Definition lower (s : str) : str := map lower_char s.

(** [s.split(sep)] for a one-character separator: a piece between every two
    separators, so at least one piece. *)
Fixpoint split_char (sep : ascii) (s : str) : list str :=
  match s with
  | [] => [[]]
  | c :: t =>
      if ascii_eqb c sep then [] :: split_char sep t
      else match split_char sep t with
           | p :: ps => (c :: p) :: ps
           | [] => [[c]]
           end
  end.

(** [os.path.basename]: what follows the last slash. *)
Fixpoint basename (path : str) : str :=
  match path with
  | [] => []
  | c :: t =>
      if existsb (ascii_eqb "/"%char) t then basename t
      else if ascii_eqb c "/"%char then t else path
  end.

(** [str(n)] for a natural number. *)
Definition str_of_nat (n : nat) : str :=
  list_ascii_of_string
    (DecimalString.NilEmpty.string_of_uint (Nat.to_uint n)).

(** [d[k] = v]: the value of an existing key is replaced in place, a new key
    goes to the end. *)
Fixpoint dict_set (A : Type) (k : str) (v : A) (d : list (str * A))
    : list (str * A) :=
  match d with
  | [] => [(k, v)]
  | (k', v') :: rest =>
      if str_eqb k k' then (k, v) :: rest else (k', v') :: dict_set k v rest
  end.

(** The keys of a dictionary, in order. *)
Definition dict_keys (A : Type) (d : list (str * A)) : list str := map fst d.

(** [s[:n]]. *)
Definition take (n : nat) (s : str) : str := firstn n s.

(** The back-tick. *)
Definition tick : ascii := "`"%char.

(** [sub] occurs in [s]. *)
Definition occurs_in (sub s : str) : Prop :=
  exists pre post, s = pre ++ sub ++ post.

(** The number of leading characters of [s] equal to [c]. *)
Fixpoint leading (c : ascii) (s : str) : nat :=
  match s with
  | [] => 0
  | d :: t => if ascii_eqb d c then S (leading c t) else 0
  end.

End PyMore.

(* ================================================================== *)
(** * Calls of the tools and scripts outside the graph *)
(* ================================================================== *)

Module IO.
Import Py Effects.

(** A table as [pd.read_excel] returns it: the column labels, and for each
    row its index label and the text [str(row[col])] of each cell. *)
Record Row : Type := { row_label : nat; cell : str -> str }.
Record DataFrame : Type := { df_columns : list str; df_rows : list Row }.

(** What the schema tool and the ingestion script reach besides the
    [World]: the table description of a database, the file system, the
    spreadsheet reader and the vector store's [add_documents]. *)
Record Outside : Type :=
  { get_table_info : SQLDatabase -> list str -> result str;
    path_exists : str -> bool;
    read_excel : str -> result DataFrame;
    add_documents : list Document -> result unit }.

(** The log of these programs: the calls of the graph's log, and theirs. *)
Inductive action : Type :=
| Old (e : event)
| ActTableInfo (tables : list str)
| ActExists (path : str)
| ActReadExcel (path : str)
| ActPrint (line : str)
| ActAddDocuments (docs : list Document).

Definition IO (A : Type) : Type := (list action * result A)%type.

Definition io_ret (A : Type) (a : A) : IO A := ([], Ok a).

Definition io_raise (A : Type) (e : exn) : IO A := ([], Raise e).
Arguments io_raise {A} e.

Definition io_bind (A B : Type) (m : IO A) (k : A -> IO B) : IO B :=
  match m with
  | (log, Ok a) => let (log', r) := k a in (log ++ log', r)
  | (log, Raise e) => (log, Raise e)
  end.

(** [try: body / except Exception as e: handler(e)]. *)
Definition io_try (A : Type) (body : IO A) (handler : exn -> IO A) : IO A :=
  match body with
  | (log, Ok a) => (log, Ok a)
  | (log, Raise e) => let (log', r) := handler e in (log ++ log', r)
  end.

Definition io_call (A : Type) (act : action) (answer : result A) : IO A :=
  ([act], answer).

(** A computation of the graph's kind, run here. *)
Definition lift (A : Type) (m : M A) : IO A := (map Old (fst m), snd m).

(** [print(line)]. *)
Definition print (line : str) : IO unit := io_call (ActPrint line) (Ok tt).

Definition io_log (A : Type) (m : IO A) : list action := fst m.
Definition io_outcome (A : Type) (m : IO A) : result A := snd m.

End IO.

Notation "x <-- m ;; k" := (IO.io_bind m (fun x => k))
  (at level 61, m at next level, right associativity) : py_scope.

(* ================================================================== *)
(** * agent_app/tools/sql.py: the schema tool and the two model-backed tools *)
(* ================================================================== *)

Module SqlMoreTools.
Import Py Effects SqlTools PyMore IO Rag Nodes.

(** [[t.strip() for t in table_names.split(",") if t.strip()]]. *)
Definition parse_table_names (table_names : str) : list str :=
  map strip
      (filter (fun t => truthy_str (strip t))
              (split_char ","%char table_names)).

Definition sql_db_schema (w : World) (o : Outside) (table_names : str)
    : IO str :=
  db <-- lift (get_db w) ;;
  let tables := parse_table_names table_names in
  io_try
    (info <-- io_call (ActTableInfo tables) (get_table_info o db tables) ;;
     io_ret info)
    (fun e =>
       io_ret (L "Error getting schema for "
                 ++ py_repr w (PList (map PStr tables))
                 ++ L ": " ++ exn_str e)).

Definition dialect : str := L "Microsoft SQL Server".

(** The template of [sql_db_query_checker] with its two fields filled. *)
Definition checker_prompt (query dialect : str) : str :=
  text
    [ [];
      L "    " ++ query;
      L "    Double check the " ++ dialect
        ++ L " query above for common mistakes, including:";
      L "    - Using NOT IN with NULL values";
      L "    - Using UNION when UNION ALL should have been used";
      L "    - Using BETWEEN for exclusive ranges";
      L "    - Data type mismatch in predicates";
      L "    - Properly quoting identifiers";
      L "    - Using the correct number of arguments for functions";
      L "    - Casting to the correct data type";
      L "    - Using the proper columns for joins";
      [];
      L "    If there are any of the above mistakes, rewrite the query. If there are no mistakes, just reproduce the original query.";
      [];
      L "    Output the final SQL query only.";
      [];
      L "    SQL Query: " ].

(** [response.replace("```sql", "").replace("```", "").strip()]. *)
Definition unfence (response : str) : str :=
  strip (replace (replace response (L "```sql") []) (L "```") []).

(** The chain has no system message: the template is the user's message. *)
Definition sql_db_query_checker (w : World) (query : str) : M str :=
  let prompt := checker_prompt query dialect in
  response <- call (EvChat [] prompt) (chat w [] prompt) ;;
  ret (unfence response).

Definition aggregate_system_prompt : str :=
  text
    [ L "You are a SQL compliance checker.";
      L "    Validate if the following SQL query returns ONLY aggregated results (e.g. using COUNT, SUM, AVG, MIN, MAX or GROUP BY).";
      L "    Queries selecting raw rows (like SELECT * FROM) are FORBIDDEN.";
      L "    ";
      L "    If the query is aggregate-only, return " ++ dq ++ L "True"
        ++ dq ++ L ".";
      L "    If it returns raw data, return " ++ dq
        ++ L "False: <brief explanation>" ++ dq ++ L ".";
      L "    " ].

Definition sql_db_is_aggregate_only (w : World) (query : str) : M str :=
  call (EvChat aggregate_system_prompt query)
       (chat w aggregate_system_prompt query).

End SqlMoreTools.

(* ================================================================== *)
(** * backend/services/vector.py: ingestion *)
(* ================================================================== *)

Module Ingest.
Import Py Effects Vector PyMore IO.

(** The [for col in metadata_columns] loop on one row. *)
Fixpoint add_columns (df : DataFrame) (row : Row) (cols : list str)
    (metadata : dict) : dict :=
  match cols with
  | [] => metadata
  | col :: rest =>
      let metadata :=
        if str_in col (df_columns df)
        then dict_set col (PStr (cell row col)) metadata
        else metadata in
      add_columns df row rest metadata
  end.

(** The metadata of one row. *)
Definition row_metadata (file_path : str) (df : DataFrame) (row : Row)
    (metadata_columns : Optional (list str)) : dict :=
  let metadata :=
    [ (L "source", PStr (basename file_path));
      (L "row_index", PInt (row_label row)) ] in
  match metadata_columns with
  | Some (col :: cols) => add_columns df row (col :: cols) metadata
  | _ => metadata
  end.

(** [not text_content or text_content.lower() == 'nan']. *)
Definition skipped (text_content : str) : bool :=
  negb (truthy_str text_content) || str_eqb (lower text_content) (L "nan").

(** The [for index, row in df.iterrows()] loop: the documents appended. *)
Fixpoint prepare_documents (file_path text_column : str) (df : DataFrame)
    (metadata_columns : Optional (list str)) (rows : list Row)
    : list Document :=
  match rows with
  | [] => []
  | row :: rest =>
      let text_content := cell row text_column in
      if skipped text_content
      then prepare_documents file_path text_column df metadata_columns rest
      else
        {| page_content := text_content;
           metadata := row_metadata file_path df row metadata_columns |}
        :: prepare_documents file_path text_column df metadata_columns rest
  end.

(** [ingest_excel(file_path, text_column, metadata_columns=None)]. *)
Definition ingest_excel (w : World) (o : Outside) (file_path text_column : str)
    (metadata_columns : Optional (list str)) : IO unit :=
  found <-- io_call (ActExists file_path) (Ok (path_exists o file_path)) ;;
  if negb found
  then io_raise (Exn (L "FileNotFoundError") (L "File not found: " ++ file_path))
  else
    _ <-- print (L "Loading data from " ++ file_path ++ L "...") ;;
    df <-- io_call (ActReadExcel file_path) (read_excel o file_path) ;;
    if negb (str_in text_column (df_columns df))
    then io_raise
           (Exn (L "ValueError")
                (L "Column '" ++ text_column
                   ++ L "' not found in Excel file. Available columns: "
                   ++ py_repr w (PList (map PStr (df_columns df)))))
    else
      let documents :=
        prepare_documents file_path text_column df metadata_columns
          (df_rows df) in
      _ <-- print (L "Prepared " ++ str_of_nat (length documents)
                     ++ L " documents. Adding to vector store...") ;;
      _ <-- lift (get_vectorstore w) ;;
      _ <-- io_call (ActAddDocuments documents) (add_documents o documents) ;;
      print (L "Ingestion complete!").

End Ingest.

(* ================================================================== *)
(** * ui.py: the panels under the answer *)
(* ================================================================== *)

Module UiPanels.
Import Py Effects State PyMore.

Inductive widget : Type :=
| Markdown (body : str)
| Text (body : str)
| Code (body language : str).

(** The title of the expander: [f"Agent Logic (Intent: {intent})"]. *)
Definition expander_title (result : AgentState) : str :=
  L "Agent Logic (Intent: "
    ++ format_opt_str (get (intent result) (Some (L "Unknown"))) ++ L ")".

(** The widgets written inside the expander, in order. *)
Definition expander_body (result : AgentState) : list widget :=
  (if truthy_opt_str (get (rag_context result) None)
   then [ Markdown (L "**RAG Context Used**");
          Text (take 500 (format_opt_str (get (rag_context result) None))
                  ++ L "...") ]
   else [])
  ++ (if truthy_opt_str (get (sql_query result) None)
      then [ Markdown (L "**SQL Query Generated**");
             Code (format_opt_str (get (sql_query result) None)) (L "sql") ]
      else [])
  ++ (if truthy_opt_str (get (sql_result result) None)
      then [ Markdown (L "**SQL Result**");
             Text (take 500 (format_opt_str (get (sql_result result) None))) ]
      else []).

End UiPanels.

(* ================================================================== *)
(** * Concrete worlds and states used in the examples *)
(* ================================================================== *)

Module Scenarios.
Import Py Effects State Nodes Graph.

Definition unreachable (what : str) : exn := Exn (L "ConnectionError") what.

(** Nothing outside the process answers. *)
Definition world_down : World :=
  {| connect := Raise (unreachable (L "database unreachable"));
     chat := fun _ _ => Raise (unreachable (L "model unreachable"));
     structured_router := fun _ _ => Raise (unreachable (L "model unreachable"));
     react_agent := fun _ _ => Raise (unreachable (L "model unreachable"));
     open_vectorstore := Raise (unreachable (L "vector store unreachable"));
     similarity_search := fun _ _ => Raise (unreachable (L "vector store unreachable"));
     py_repr := fun _ => L "{...}";
     first_failure := fun _ => 0 |}.

(** A database with two tables that answers one counting query. *)
Definition sales_db : SQLDatabase :=
  {| get_table_names := Ok [L "sales"; L "users"];
     run := fun q =>
       if str_eqb q (L "SELECT COUNT(id) FROM sales") then Ok (L "[(42,)]")
       else Raise (Exn (L "ProgrammingError") (L "Invalid object name")) |}.

Definition handbook : Document :=
  {| page_content := L "Refunds within 30 days.";
     metadata := [(L "source", PStr (L "handbook.xlsx")); (L "row_index", PInt 3)] |}.

Definition memo : Document :=
  {| page_content := L "Sales rose in Q2."; metadata := [(L "year", PStr (L "2024"))] |}.

(** Everything answers; the router's answer is a parameter. *)
Definition world_up (decision : result RouterOutput) : World :=
  {| connect := Ok sales_db;
     chat := fun _ _ => Ok (L "Here is what I found.");
     structured_router := fun _ _ => decision;
     react_agent := fun _ msgs => Ok (msgs ++ [AIMessage (L "There are 42 sales.")]);
     open_vectorstore := Ok tt;
     similarity_search := fun _ _ => Ok [handbook; memo];
     py_repr := fun _ => L "{...}";
     first_failure := fun _ => 0 |}.

(** The model answers, the database cannot be reached. *)
Definition world_no_db : World :=
  {| connect := Raise (unreachable (L "database unreachable"));
     chat := fun _ _ => Ok (L "Here is what I found.");
     structured_router := fun _ _ => Ok {| ro_intent := L "SQL"; ro_filters := [] |};
     react_agent := fun _ msgs => Ok (msgs ++ [AIMessage (L "There are 42 sales.")]);
     open_vectorstore := Ok tt;
     similarity_search := fun _ _ => Ok [];
     py_repr := fun _ => L "{...}";
     first_failure := fun _ => 0 |}.


Definition both_decision : RouterOutput :=
  {| ro_intent := L "both"; ro_filters := [] |}.

(** The input of one turn: [{"messages": [HumanMessage(content=prompt)]}]. *)
Definition turn (prompt : str) : AgentState :=
  {| messages := Some [HumanMessage prompt];
     clarification_needed := None; sql_query := None; rag_context := None;
     sql_result := None; intent := None; filters := None;
     final_answer := None |}.

End Scenarios.

(* ================================================================== *)
(** * Predicates used to state the further properties *)
(* ================================================================== *)

Module MoreSpec.
Import Py Effects PyMore IO.

(** A table name as a database reports it: not empty, no blank at either
    end, no comma. *)
Definition clean_name (t : str) : Prop :=
  t <> [] /\ strip t = t /\ ~ In ","%char t.

(** No whitespace at either end. *)
Definition trimmed (s : str) : Prop :=
  (forall c t, s = c :: t -> isspace c = false)
  /\ (forall p c, s = p ++ [c] -> isspace c = false).

(** The text of a cell that the ingestion keeps. *)
Definition kept_text (body : str) : Prop :=
  body <> [] /\ lower body <> L "nan".

(** The keys of a dictionary are pairwise different. *)
Definition unique_keys (d : dict) : Prop := NoDup (dict_keys d).

(** A column that goes into the metadata of a row: one that is asked for
    and that the sheet has. *)
Definition listed (df : DataFrame) (metadata_columns : Optional (list str))
    (k : str) : bool :=
  match metadata_columns with
  | Some cols => str_in k cols && str_in k (df_columns df)
  | None => false
  end.

End MoreSpec.

(* ================================================================== *)
(** * Concrete tables and files used in the examples *)
(* ================================================================== *)

Module MoreScenarios.
Import Py Effects IO Scenarios.

(** A spreadsheet of three rows: one cell of text, one empty ([NaN] prints
    as [nan]), one more cell of text. *)
Definition policy_row (label : nat) (body department : str) : Row :=
  {| row_label := label;
     cell := fun col =>
       if str_eqb col (L "text") then body
       else if str_eqb col (L "department") then department
       else L "nan" |}.

Definition policies : DataFrame :=
  {| df_columns := [L "text"; L "department"];
     df_rows :=
       [ policy_row 0 (L "Refunds within 30 days.") (L "sales");
         policy_row 1 (L "NaN") (L "sales");
         policy_row 2 (L "Travel needs approval.") (L "finance") ] |}.

(** One file exists and reads as [policies]; the store accepts documents;
    the database describes the table [sales] only. *)
Definition office : Outside :=
  {| get_table_info := fun _ tables =>
       if str_in (L "sales") tables && Nat.eqb (length tables) 1
       then Ok (L "CREATE TABLE sales (id INT, region VARCHAR(20))")
       else Raise (Exn (L "ValueError") (L "table_names not found in database"));
     path_exists := fun path => str_eqb path (L "data/policies.xlsx");
     read_excel := fun _ => Ok policies;
     add_documents := fun _ => Ok tt |}.

(** A model that wraps the query it returns in a Markdown fence. *)
Definition fenced_answer : str :=
  L "```sql" ++ Rag.nl ++ L "SELECT COUNT(id) FROM sales" ++ Rag.nl ++ L "```"
    ++ Rag.nl.

Definition world_fenced : World :=
  {| connect := Ok sales_db;
     chat := fun _ _ => Ok fenced_answer;
     structured_router := fun _ _ => Ok both_decision;
     react_agent := fun _ msgs => Ok msgs;
     open_vectorstore := Ok tt;
     similarity_search := fun _ _ => Ok [];
     py_repr := fun _ => L "{...}";
     first_failure := fun _ => 0 |}.

End MoreScenarios.

(* ================================================================== *)
(** * Notions used to state the properties of the nodes and of a run *)
(* ================================================================== *)

Module RunSpec.
Import Py Effects Vector State Nodes Graph.

(** The retriever that [retrieve_documents] asks for. *)
Definition retriever_for (k : option nat) (filters : Optional dict)
    : Retriever :=
  {| search_type := L "similarity";
     kw_k := match k with Some k => k | None => 4 end;
     kw_filter :=
       match filters with
       | Some (item :: d) => Some (_convert_to_opensearch_filter (item :: d))
       | _ => None
       end;
     kw_score_threshold := None |}.

(** The instructions of the SQL agent, as nodes.py prints them: the text
    before the paragraph on filters and the text after it. *)
Definition instructions_before : str :=
  L "You are an advanced SQL agent for Microsoft SQL Server.
    Your goal is to answer the user's question by querying the database.
    
    CRITICAL SECURITY CONSTRAINT:
    - You must NEVER return raw data rows. 
    - You MUST ONLY return aggregated data (COUNT, SUM, AVG, MIN, MAX, GROUP BY).
    - If the user asks for raw records (e.g. "
  ++ dq ++ L "Show me all sales" ++ dq
  ++ L "), you must aggregate them (e.g. "
  ++ dq ++ L "Count of sales" ++ dq ++ L ", " ++ dq ++ L "Sales by region"
  ++ dq
  ++ L ") or explain you can only show summaries.
    - Queries like `SELECT *` or `SELECT col1, col2` without aggregation are STRICTLY FORBIDDEN.
    
    You have access to tools to:
    1. List tables (`sql_db_list_tables`)
    2. Get table schema (`sql_db_schema`)
    3. Check specific column values for fuzzy matching (`sql_db_column_value_checker`)
    4. Check your query syntax (`sql_db_query_checker`)
    5. Verify query only returns aggregates (`sql_db_is_aggregate_only`)
    6. Execute the query (`sql_db_query`)
    
    Workflow:
    1. Start by listing tables to understand what's available.
    2. Get schema for relevant tables.
    3. If the user filter is vague (e.g. "
  ++ dq ++ L "Sales" ++ dq
  ++ L "), use `sql_db_column_value_checker` to find the exact database value.
    4. CRITICAL: Verify your query is aggregation-only using `sql_db_is_aggregate_only`.
    5. Validate your query logic with `sql_db_query_checker`.
    6. Execute the query with `sql_db_query`.
    
    ".

Definition instructions_after : str :=
  L "
    
    Output the final answer based on the query result.
    ".

(** The paragraph on filters, around the printed dictionary. *)
Definition filter_paragraph (printed : str) : str :=
  L "
    CRITICAL: The user has specified the following context/filters. You MUST apply them:
    " ++ printed.

(** [sub in s]. *)
Fixpoint occursb (sub s : str) : bool :=
  startswith s sub
  || match s with
     | [] => false
     | _ :: t => occursb sub t
     end.

(** The state the router leaves to the response node in a run on [inputs]:
    the input written into the channels, then the router's default. *)
Definition after_router (inputs : AgentState) : AgentState :=
  apply_update (apply_update channels_at_start inputs)
    (router_dict (L "OFFTOPIC") []).

End RunSpec.

(* ================================================================== *)
(** * Facts about the runtime functions *)
(* ================================================================== *)

Module PyFacts.
Import Py.

Lemma ascii_eqb_eq (a b : ascii) : ascii_eqb a b = true <-> a = b.
Proof. unfold ascii_eqb. apply Ascii.eqb_eq. Qed.

Lemma ascii_eqb_refl (a : ascii) : ascii_eqb a a = true.
Proof. apply ascii_eqb_eq. reflexivity. Qed.

Lemma str_eqb_eq (a b : str) : str_eqb a b = true <-> a = b.
Proof.
  revert b. induction a as [|x a IH]; intros [|y b]; simpl;
    try (split; [discriminate | discriminate]); try tauto.
  rewrite andb_true_iff, ascii_eqb_eq, IH.
  split.
  - intros [-> ->]. reflexivity.
  - intros H. injection H as -> ->. tauto.
Qed.

Lemma str_eqb_refl (a : str) : str_eqb a a = true.
Proof. apply str_eqb_eq. reflexivity. Qed.

Lemma str_in_In (x : str) (xs : list str) : str_in x xs = true <-> In x xs.
Proof.
  unfold str_in. rewrite existsb_exists. split.
  - intros [y [Hy E]]. apply str_eqb_eq in E. subst. exact Hy.
  - intros H. exists x. split; [exact H | apply str_eqb_refl].
Qed.

Lemma strip_prefix_Some (p s t : str) :
  strip_prefix p s = Some t <-> s = p ++ t.
Proof.
  revert s. induction p as [|x p IH]; intros s; simpl.
  - split; [intros H; injection H as ->; reflexivity | intros ->; reflexivity].
  - destruct s as [|y s].
    + split; discriminate.
    + destruct (ascii_eqb x y) eqn:E.
      * apply ascii_eqb_eq in E. subst y. rewrite IH. split.
        -- intros ->. reflexivity.
        -- intros H. injection H as ->. reflexivity.
      * split; [discriminate |].
        intros H. injection H as -> _. rewrite ascii_eqb_refl in E. discriminate.
Qed.

Lemma strip_prefix_app (p t : str) : strip_prefix p (p ++ t) = Some t.
Proof. apply strip_prefix_Some. reflexivity. Qed.

Lemma lstrip_split (s : str) :
  exists ws, s = ws ++ lstrip s /\ all_space ws.
Proof.
  induction s as [|c t [ws [E A]]]; simpl.
  - exists []. split; [reflexivity | constructor].
  - destruct (isspace c) eqn:Hc.
    + exists (c :: ws). split.
      * simpl. f_equal. exact E.
      * constructor; assumption.
    + exists []. split; [reflexivity | constructor].
Qed.

Lemma rstrip_split (s : str) :
  exists ws, s = rstrip s ++ ws /\ all_space ws.
Proof.
  induction s as [|c t [ws [E A]]]; simpl.
  - exists []. split; [reflexivity | constructor].
  - destruct (rstrip t) as [|d t'] eqn:R.
    + simpl in E. subst ws. destruct (isspace c) eqn:Hc.
      * exists (c :: t). split; [reflexivity | constructor; assumption].
      * exists t. split; [reflexivity | assumption].
    + exists ws. split; [| assumption].
      simpl. f_equal. exact E.
Qed.

(** What is left by [rstrip] does not end in whitespace, and what is left by
    [lstrip] does not start with it. *)
Lemma lstrip_head (s : str) (c : ascii) (t : str) :
  lstrip s = c :: t -> isspace c = false.
Proof.
  induction s as [|d s IH]; simpl; [discriminate |].
  destruct (isspace d) eqn:Hd; [exact IH |].
  intros H. injection H as -> _. exact Hd.
Qed.

Lemma rstrip_last (s p : str) (c : ascii) :
  rstrip s = p ++ [c] -> isspace c = false.
Proof.
  revert p. induction s as [|d s IH]; intros p; simpl.
  - destruct p; discriminate.
  - destruct (rstrip s) as [|e t'] eqn:R.
    + destruct (isspace d) eqn:Hd.
      * destruct p; discriminate.
      * intros H. destruct p as [|x p]; simpl in H.
        -- injection H as ->. exact Hd.
        -- injection H as _ H. destruct p; discriminate.
    + intros H. destruct p as [|x p]; simpl in H.
      * discriminate.
      * injection H as _ H. apply (IH p). exact H.
Qed.

(** With a one-character [old], [replace] rewrites character by character. *)
Lemma replace_fuel_char (o : ascii) (new s : str) (fuel : nat) :
  length s < fuel ->
  replace_fuel fuel [o] new s
  = flat_map (fun c => if ascii_eqb o c then new else [c]) s.
Proof.
  revert s. induction fuel as [|fuel IH]; intros s Hlt; [lia |].
  destruct s as [|c t]; [reflexivity |].
  simpl in Hlt. simpl.
  destruct (ascii_eqb o c) eqn:E; rewrite IH by lia; reflexivity.
Qed.

Lemma replace_char (o : ascii) (new s : str) :
  replace s [o] new = flat_map (fun c => if ascii_eqb o c then new else [c]) s.
Proof. unfold replace. apply replace_fuel_char. lia. Qed.

End PyFacts.

(* ================================================================== *)
(** * The safety checker finds exactly the whole-token occurrences *)
(* ================================================================== *)

Module SqlFacts.
Import Py Re Sql SqlSpec PyFacts.

Lemma matches_cat (r1 r2 : regex) (bos : bool) (s : str) :
  matches_here (Cat r1 r2) bos s
  = existsb (fun p : pos => matches_here r2 (fst p) (snd p)) (match_at r1 bos s).
Proof.
  unfold matches_here. simpl.
  induction (match_at r1 bos s) as [|p l IH]; simpl; [reflexivity |].
  destruct (match_at r2 (fst p) (snd p)); simpl; [exact IH | reflexivity].
Qed.

Lemma search_from_unfold (r : regex) (bos : bool) (s : str) :
  search_from r bos s
  = matches_here r bos s
    || match s with [] => false | _ :: t => search_from r false t end.
Proof. destruct s; simpl; destruct (matches_here r bos _); reflexivity. Qed.

Lemma newline_is_sep : sep_class "010"%char = true.
Proof. reflexivity. Qed.

Lemma tail_matches (w : str) (bos : bool) (s : str) :
  matches_here (Cat (Lit w) (Alt (Class sep_class) Eol)) bos s = true
  <-> word_then_boundary w s.
Proof.
  rewrite matches_cat. simpl. split.
  - destruct (strip_prefix w s) as [t|] eqn:E; simpl; [| discriminate].
    apply strip_prefix_Some in E. rewrite orb_false_r. intros H.
    exists t. split; [exact E |].
    unfold matches_here in H. simpl in H.
    destruct t as [|c t]; [left; reflexivity |].
    right. exists c, t. split; [reflexivity |].
    destruct (sep_class c) eqn:Hc; [reflexivity |].
    simpl in H. destruct t; [| discriminate].
    destruct (ascii_eqb c "010") eqn:Hn; [| discriminate].
    apply ascii_eqb_eq in Hn. subst c. rewrite newline_is_sep in Hc. discriminate.
  - intros [post [-> B]]. rewrite strip_prefix_app. simpl. rewrite orb_false_r.
    unfold matches_here. simpl.
    destruct B as [-> | [c [t [-> Hc]]]]; [reflexivity |].
    rewrite Hc. reflexivity.
Qed.

Lemma or_iff_both (A A' B B' : Prop) :
  (A <-> A') -> (B <-> B') -> (A \/ B <-> A' \/ B').
Proof. tauto. Qed.

Lemma head_matches (w : str) (bos : bool) (s : str) :
  matches_here (pattern w) bos s = true
  <-> (bos = true /\ word_then_boundary w s)
      \/ (exists c t, s = c :: t /\ sep_class c = true /\ word_then_boundary w t).
Proof.
  unfold pattern. rewrite matches_cat. simpl match_at.
  rewrite existsb_app, orb_true_iff. apply or_iff_both.
  - destruct bos; simpl.
    + rewrite orb_false_r, tail_matches. tauto.
    + split; [discriminate | intros [H _]; discriminate].
  - destruct s as [|c t]; simpl.
    + split; [discriminate | intros [c [t [H _]]]; discriminate].
    + destruct (sep_class c) eqn:Hc; simpl.
      * rewrite orb_false_r, tail_matches. split.
        -- intros H. exists c, t. auto.
        -- intros [c' [t' [E [_ H]]]]. injection E as <- <-. exact H.
      * split; [discriminate |].
        intros [c' [t' [E [Hc' _]]]]. injection E as <- <-.
        rewrite Hc in Hc'. discriminate.
Qed.

Lemma search_from_false (w s : str) :
  search_from (pattern w) false s = true <-> sep_word_boundary w s.
Proof.
  induction s as [|a s IH]; rewrite search_from_unfold, orb_true_iff, head_matches.
  - split.
    + intros [[[H _] | [c [t [H _]]]] | H]; discriminate.
    + intros [p [c [post [H _]]]]. destruct p; discriminate.
  - rewrite IH. split.
    + intros [[[H _] | [c [t [E [Hc [post [-> B]]]]]]] | [p [c [post [-> [Hc B]]]]]].
      * discriminate.
      * injection E as <- ->. exists [], a, post. auto.
      * exists (a :: p), c, post. auto.
    + intros [p [c [post [E [Hc B]]]]]. destruct p as [|b p]; simpl in E.
      * injection E as -> ->. left. right. exists c, (w ++ post).
        split; [reflexivity | split; [exact Hc |]]. exists post. auto.
      * injection E as -> ->. right. exists p, c, post. auto.
Qed.

Lemma search_token (w s : str) :
  search (pattern w) s = true <-> token_in w s.
Proof.
  unfold search. rewrite search_from_unfold, orb_true_iff, head_matches.
  assert (Hrest : match s with [] => false | _ :: t => search_from (pattern w) false t end = true
                  <-> exists a t, s = a :: t /\ sep_word_boundary w t).
  { destruct s as [|a t].
    - split; [discriminate | intros [a [t [H _]]]; discriminate].
    - rewrite search_from_false. split.
      + intros H. exists a, t. auto.
      + intros [a' [t' [E H]]]. injection E as <- <-. exact H. }
  rewrite Hrest. clear Hrest. split.
  - intros [[[_ [post [-> B]]] | [c [t [-> [Hc [post [-> B]]]]]]]
           | [a [t [-> [p [c [post [-> [Hc B]]]]]]]]].
    + exists [], post. split; [reflexivity | split; [left; reflexivity | exact B]].
    + exists [c], post. split; [reflexivity | split; [| exact B]].
      right. exists [], c. auto.
    + exists (a :: p ++ [c]), post. split; [| split; [| exact B]].
      * simpl. rewrite <- app_assoc. reflexivity.
      * right. exists (a :: p), c. auto.
  - intros [pre [post [-> [[-> | [p [c [-> Hc]]]] B]]]].
    + left. left. split; [reflexivity |]. exists post. auto.
    + destruct p as [|a p]; simpl.
      * left. right. exists c, (w ++ post).
        split; [reflexivity | split; [exact Hc |]]. exists post. auto.
      * right. exists a, ((p ++ [c]) ++ w ++ post). split; [reflexivity |].
        exists p, c, post. split; [| auto].
        rewrite <- app_assoc. reflexivity.
Qed.

Lemma space_is_sep (c : ascii) : isspace c = true -> sep_class c = true.
Proof. intros H. unfold sep_class. rewrite H. reflexivity. Qed.

Lemma token_cons_space (w : str) (c : ascii) (s : str) :
  plain_word w -> isspace c = true ->
  (token_in w (c :: s) <-> token_in w s).
Proof.
  intros [Hne Hw] Hc. split.
  - intros [pre [post [E [Bb Ba]]]]. destruct pre as [|a pre]; simpl in E.
    + destruct w as [|x w]; [contradiction |].
      simpl in E. injection E as <- _.
      inversion Hw as [|? ? Hx _]. rewrite Hc in Hx. discriminate.
    + injection E as <- ->. exists pre, post.
      split; [reflexivity | split; [| exact Ba]].
      destruct Bb as [Bb | [p [d [Bb Hd]]]]; [discriminate |].
      destruct p as [|b p]; simpl in Bb.
      * injection Bb as _ ->. left. reflexivity.
      * injection Bb as _ ->. right. exists p, d. auto.
  - intros [pre [post [-> [Bb Ba]]]]. exists (c :: pre), post.
    split; [reflexivity | split; [| exact Ba]].
    right. destruct Bb as [-> | [p [d [-> Hd]]]].
    + exists [], c. split; [reflexivity | apply space_is_sep; exact Hc].
    + exists (c :: p), d. auto.
Qed.

Lemma token_snoc_space (w : str) (c : ascii) (s : str) :
  plain_word w -> isspace c = true ->
  (token_in w (s ++ [c]) <-> token_in w s).
Proof.
  intros [Hne Hw] Hc. split.
  - intros [pre [post [E [Bb Ba]]]].
    destruct post as [|d post _] using rev_ind.
    + rewrite app_nil_r in E.
      destruct w as [|x w _] using rev_ind; [contradiction |].
      rewrite app_assoc in E. apply app_inj_tail in E. destruct E as [_ <-].
      apply Forall_app in Hw. destruct Hw as [_ Hx].
      inversion Hx as [|? ? Hx' _]. rewrite Hc in Hx'. discriminate.
    + rewrite !app_assoc in E. apply app_inj_tail in E. destruct E as [-> _].
      exists pre, post. split; [rewrite app_assoc; reflexivity |].
      split; [exact Bb |].
      destruct Ba as [Ba | [e [t [Ba He]]]].
      * destruct post; discriminate.
      * destruct post as [|e' post']; [left; reflexivity |].
        simpl in Ba. injection Ba as <- _. right. exists e', post'. auto.
  - intros [pre [post [-> [Bb Ba]]]]. exists pre, (post ++ [c]).
    split; [rewrite <- !app_assoc; reflexivity |].
    split; [exact Bb |]. right.
    destruct Ba as [-> | [e [t [-> He]]]].
    + exists c, []. split; [reflexivity | apply space_is_sep; exact Hc].
    + exists e, (t ++ [c]). auto.
Qed.

Lemma token_app_space_l (w ws s : str) :
  plain_word w -> all_space ws ->
  (token_in w (ws ++ s) <-> token_in w s).
Proof.
  intros Hw A. induction A as [|c ws Hc _ IH]; simpl; [tauto |].
  rewrite token_cons_space by assumption. exact IH.
Qed.

Lemma token_app_space_r (w ws s : str) :
  plain_word w -> all_space ws ->
  (token_in w (s ++ ws) <-> token_in w s).
Proof.
  intros Hw A. revert s. induction A as [|c ws Hc _ IH]; intros s.
  - rewrite app_nil_r. tauto.
  - change (s ++ c :: ws) with (s ++ [c] ++ ws). rewrite app_assoc, IH.
    apply token_snoc_space; assumption.
Qed.

(** Stripping the statement neither hides nor creates a token. *)
Lemma token_strip (w s : str) :
  plain_word w -> (token_in w (strip s) <-> token_in w s).
Proof.
  intros Hw. unfold strip.
  destruct (lstrip_split s) as [wl [El Al]].
  destruct (rstrip_split (lstrip s)) as [wr [Er Ar]].
  rewrite El at 2. rewrite token_app_space_l by assumption.
  rewrite Er at 2. rewrite token_app_space_r by assumption.
  tauto.
Qed.

Lemma forbidden_plain : Forall plain_word forbidden.
Proof.
  unfold forbidden.
  repeat (constructor;
          [split; [discriminate | repeat (constructor; [reflexivity |]); constructor] |]).
  constructor.
Qed.

Lemma scan_forbidden_false (words : list str) (sql_upper : str) :
  scan_forbidden words sql_upper = false
  <-> exists w, In w words /\ search (pattern w) sql_upper = true.
Proof.
  induction words as [|w words IH]; simpl.
  - split; [discriminate | intros [w [[] _]]].
  - destruct (search (pattern w) sql_upper) eqn:E.
    + split; [| reflexivity]. intros _. exists w. auto.
    + rewrite IH. split.
      * intros [v [Hin Hv]]. exists v. auto.
      * intros [v [[<- | Hin] Hv]]; [rewrite E in Hv; discriminate |].
        exists v. auto.
Qed.

Lemma is_readonly_sql_false (sql : str) :
  is_readonly_sql sql = false <-> contains_forbidden_token (upper sql).
Proof.
  unfold is_readonly_sql, contains_forbidden_token.
  rewrite scan_forbidden_false. split.
  - intros [w [Hin Hs]]. exists w. split; [exact Hin |].
    apply search_token in Hs.
    apply (token_strip (upper sql)
             (proj1 (Forall_forall _ _) forbidden_plain w Hin)).
    exact Hs.
  - intros [w [Hin Ht]]. exists w. split; [exact Hin |].
    apply search_token.
    apply (token_strip (upper sql)
             (proj1 (Forall_forall _ _) forbidden_plain w Hin)).
    exact Ht.
Qed.

End SqlFacts.

(* ================================================================== *)
(** * The safety checker on code points finds the whole-token occurrences *)
(* ================================================================== *)

Module SqlUFacts.
Import Unicode ReU SqlU SqlUSpec.

Lemma strip_prefix_Some_u (p s t : ustr) :
  strip_prefix p s = Some t <-> s = p ++ t.
Proof.
  revert s. induction p as [|x p IH]; intros s; simpl.
  - split; [intros H; injection H as ->; reflexivity | intros ->; reflexivity].
  - destruct s as [|y s].
    + split; discriminate.
    + destruct (N.eqb x y) eqn:E.
      * apply N.eqb_eq in E. subst y. rewrite IH. split.
        -- intros ->. reflexivity.
        -- intros H. injection H as ->. reflexivity.
      * split; [discriminate |].
        intros H. injection H as -> _. rewrite N.eqb_refl in E. discriminate.
Qed.

Lemma strip_prefix_app_u (p t : ustr) : strip_prefix p (p ++ t) = Some t.
Proof. apply strip_prefix_Some_u. reflexivity. Qed.

Lemma lstrip_split_u (s : ustr) :
  exists ws, s = ws ++ lstrip s /\ all_space ws.
Proof.
  induction s as [|c t [ws [E A]]]; simpl.
  - exists []. split; [reflexivity | constructor].
  - destruct (isspace c) eqn:Hc.
    + exists (c :: ws). split.
      * simpl. f_equal. exact E.
      * constructor; assumption.
    + exists []. split; [reflexivity | constructor].
Qed.

Lemma rstrip_split_u (s : ustr) :
  exists ws, s = rstrip s ++ ws /\ all_space ws.
Proof.
  induction s as [|c t [ws [E A]]]; simpl.
  - exists []. split; [reflexivity | constructor].
  - destruct (rstrip t) as [|d t'] eqn:R.
    + simpl in E. subst ws. destruct (isspace c) eqn:Hc.
      * exists (c :: t). split; [reflexivity | constructor; assumption].
      * exists t. split; [reflexivity | assumption].
    + exists ws. split; [| assumption].
      simpl. f_equal. exact E.
Qed.


Lemma matches_cat_u (r1 r2 : regex) (bos : bool) (s : ustr) :
  matches_here (Cat r1 r2) bos s
  = existsb (fun p : pos => matches_here r2 (fst p) (snd p)) (match_at r1 bos s).
Proof.
  unfold matches_here. simpl.
  induction (match_at r1 bos s) as [|p l IH]; simpl; [reflexivity |].
  destruct (match_at r2 (fst p) (snd p)); simpl; [exact IH | reflexivity].
Qed.

Lemma search_from_unfold_u (r : regex) (bos : bool) (s : ustr) :
  search_from r bos s
  = matches_here r bos s
    || match s with [] => false | _ :: t => search_from r false t end.
Proof. destruct s; simpl; destruct (matches_here r bos _); reflexivity. Qed.

Lemma newline_is_sep_u : sep_class 10%N = true.
Proof. reflexivity. Qed.

Lemma tail_matches_u (w : ustr) (bos : bool) (s : ustr) :
  matches_here (Cat (Lit w) (Alt (Class sep_class) Eol)) bos s = true
  <-> word_then_boundary_u w s.
Proof.
  rewrite matches_cat_u. simpl. split.
  - destruct (strip_prefix w s) as [t|] eqn:E; simpl; [| discriminate].
    apply strip_prefix_Some_u in E. rewrite orb_false_r. intros H.
    exists t. split; [exact E |].
    unfold matches_here in H. simpl in H.
    destruct t as [|c t]; [left; reflexivity |].
    right. exists c, t. split; [reflexivity |].
    destruct (sep_class c) eqn:Hc; [reflexivity |].
    simpl in H. destruct t; [| discriminate].
    destruct (N.eqb c 10%N) eqn:Hn; [| discriminate].
    apply N.eqb_eq in Hn. subst c. rewrite newline_is_sep_u in Hc. discriminate.
  - intros [post [-> B]]. rewrite strip_prefix_app_u. simpl. rewrite orb_false_r.
    unfold matches_here. simpl.
    destruct B as [-> | [c [t [-> Hc]]]]; [reflexivity |].
    rewrite Hc. reflexivity.
Qed.

Lemma or_iff_both_u (A A' B B' : Prop) :
  (A <-> A') -> (B <-> B') -> (A \/ B <-> A' \/ B').
Proof. tauto. Qed.

Lemma head_matches_u (w : ustr) (bos : bool) (s : ustr) :
  matches_here (pattern w) bos s = true
  <-> (bos = true /\ word_then_boundary_u w s)
      \/ (exists c t, s = c :: t /\ sep_class c = true /\ word_then_boundary_u w t).
Proof.
  unfold pattern. rewrite matches_cat_u. simpl match_at.
  rewrite existsb_app, orb_true_iff. apply or_iff_both_u.
  - destruct bos; simpl.
    + rewrite orb_false_r, tail_matches_u. tauto.
    + split; [discriminate | intros [H _]; discriminate].
  - destruct s as [|c t]; simpl.
    + split; [discriminate | intros [c [t [H _]]]; discriminate].
    + destruct (sep_class c) eqn:Hc; simpl.
      * rewrite orb_false_r, tail_matches_u. split.
        -- intros H. exists c, t. auto.
        -- intros [c' [t' [E [_ H]]]]. injection E as <- <-. exact H.
      * split; [discriminate |].
        intros [c' [t' [E [Hc' _]]]]. injection E as <- <-.
        rewrite Hc in Hc'. discriminate.
Qed.

Lemma search_from_false_u (w s : ustr) :
  search_from (pattern w) false s = true <-> sep_word_boundary_u w s.
Proof.
  induction s as [|a s IH]; rewrite search_from_unfold_u, orb_true_iff, head_matches_u.
  - split.
    + intros [[[H _] | [c [t [H _]]]] | H]; discriminate.
    + intros [p [c [post [H _]]]]. destruct p; discriminate.
  - rewrite IH. split.
    + intros [[[H _] | [c [t [E [Hc [post [-> B]]]]]]] | [p [c [post [-> [Hc B]]]]]].
      * discriminate.
      * injection E as <- ->. exists [], a, post. auto.
      * exists (a :: p), c, post. auto.
    + intros [p [c [post [E [Hc B]]]]]. destruct p as [|b p]; simpl in E.
      * injection E as -> ->. left. right. exists c, (w ++ post).
        split; [reflexivity | split; [exact Hc |]]. exists post. auto.
      * injection E as -> ->. right. exists p, c, post. auto.
Qed.

Lemma search_token_u (w s : ustr) :
  search (pattern w) s = true <-> token_in_u w s.
Proof.
  unfold search. rewrite search_from_unfold_u, orb_true_iff, head_matches_u.
  assert (Hrest : match s with [] => false | _ :: t => search_from (pattern w) false t end = true
                  <-> exists a t, s = a :: t /\ sep_word_boundary_u w t).
  { destruct s as [|a t].
    - split; [discriminate | intros [a [t [H _]]]; discriminate].
    - rewrite search_from_false_u. split.
      + intros H. exists a, t. auto.
      + intros [a' [t' [E H]]]. injection E as <- <-. exact H. }
  rewrite Hrest. clear Hrest. split.
  - intros [[[_ [post [-> B]]] | [c [t [-> [Hc [post [-> B]]]]]]]
           | [a [t [-> [p [c [post [-> [Hc B]]]]]]]]].
    + exists [], post. split; [reflexivity | split; [left; reflexivity | exact B]].
    + exists [c], post. split; [reflexivity | split; [| exact B]].
      right. exists [], c. auto.
    + exists (a :: p ++ [c]), post. split; [| split; [| exact B]].
      * simpl. rewrite <- app_assoc. reflexivity.
      * right. exists (a :: p), c. auto.
  - intros [pre [post [-> [[-> | [p [c [-> Hc]]]] B]]]].
    + left. left. split; [reflexivity |]. exists post. auto.
    + destruct p as [|a p]; simpl.
      * left. right. exists c, (w ++ post).
        split; [reflexivity | split; [exact Hc |]]. exists post. auto.
      * right. exists a, ((p ++ [c]) ++ w ++ post). split; [reflexivity |].
        exists p, c, post. split; [| auto].
        rewrite <- app_assoc. reflexivity.
Qed.

Lemma space_is_sep_u (c : N) : isspace c = true -> sep_class c = true.
Proof. intros H. unfold sep_class. rewrite H. reflexivity. Qed.

Lemma token_cons_space_u (w : ustr) (c : N) (s : ustr) :
  plain_word_u w -> isspace c = true ->
  (token_in_u w (c :: s) <-> token_in_u w s).
Proof.
  intros [Hne Hw] Hc. split.
  - intros [pre [post [E [Bb Ba]]]]. destruct pre as [|a pre]; simpl in E.
    + destruct w as [|x w]; [contradiction |].
      simpl in E. injection E as <- _.
      inversion Hw as [|? ? Hx _]. rewrite Hc in Hx. discriminate.
    + injection E as <- ->. exists pre, post.
      split; [reflexivity | split; [| exact Ba]].
      destruct Bb as [Bb | [p [d [Bb Hd]]]]; [discriminate |].
      destruct p as [|b p]; simpl in Bb.
      * injection Bb as _ ->. left. reflexivity.
      * injection Bb as _ ->. right. exists p, d. auto.
  - intros [pre [post [-> [Bb Ba]]]]. exists (c :: pre), post.
    split; [reflexivity | split; [| exact Ba]].
    right. destruct Bb as [-> | [p [d [-> Hd]]]].
    + exists [], c. split; [reflexivity | apply space_is_sep_u; exact Hc].
    + exists (c :: p), d. auto.
Qed.

Lemma token_snoc_space_u (w : ustr) (c : N) (s : ustr) :
  plain_word_u w -> isspace c = true ->
  (token_in_u w (s ++ [c]) <-> token_in_u w s).
Proof.
  intros [Hne Hw] Hc. split.
  - intros [pre [post [E [Bb Ba]]]].
    destruct post as [|d post _] using rev_ind.
    + rewrite app_nil_r in E.
      destruct w as [|x w _] using rev_ind; [contradiction |].
      rewrite app_assoc in E. apply app_inj_tail in E. destruct E as [_ <-].
      apply Forall_app in Hw. destruct Hw as [_ Hx].
      inversion Hx as [|? ? Hx' _]. rewrite Hc in Hx'. discriminate.
    + rewrite !app_assoc in E. apply app_inj_tail in E. destruct E as [-> _].
      exists pre, post. split; [rewrite app_assoc; reflexivity |].
      split; [exact Bb |].
      destruct Ba as [Ba | [e [t [Ba He]]]].
      * destruct post; discriminate.
      * destruct post as [|e' post']; [left; reflexivity |].
        simpl in Ba. injection Ba as <- _. right. exists e', post'. auto.
  - intros [pre [post [-> [Bb Ba]]]]. exists pre, (post ++ [c]).
    split; [rewrite <- !app_assoc; reflexivity |].
    split; [exact Bb |]. right.
    destruct Ba as [-> | [e [t [-> He]]]].
    + exists c, []. split; [reflexivity | apply space_is_sep_u; exact Hc].
    + exists e, (t ++ [c]). auto.
Qed.

Lemma token_app_space_l_u (w ws s : ustr) :
  plain_word_u w -> all_space ws ->
  (token_in_u w (ws ++ s) <-> token_in_u w s).
Proof.
  intros Hw A. induction A as [|c ws Hc _ IH]; simpl; [tauto |].
  rewrite token_cons_space_u by assumption. exact IH.
Qed.

Lemma token_app_space_r_u (w ws s : ustr) :
  plain_word_u w -> all_space ws ->
  (token_in_u w (s ++ ws) <-> token_in_u w s).
Proof.
  intros Hw A. revert s. induction A as [|c ws Hc _ IH]; intros s.
  - rewrite app_nil_r. tauto.
  - change (s ++ c :: ws) with (s ++ [c] ++ ws). rewrite app_assoc, IH.
    apply token_snoc_space_u; assumption.
Qed.

(** Stripping the statement neither hides nor creates a token. *)
Lemma token_strip_u (w s : ustr) :
  plain_word_u w -> (token_in_u w (strip s) <-> token_in_u w s).
Proof.
  intros Hw. unfold strip.
  destruct (lstrip_split_u s) as [wl [El Al]].
  destruct (rstrip_split_u (lstrip s)) as [wr [Er Ar]].
  rewrite El at 2. rewrite token_app_space_l_u by assumption.
  rewrite Er at 2. rewrite token_app_space_r_u by assumption.
  tauto.
Qed.

Lemma forbidden_plain_u : Forall plain_word_u forbidden.
Proof.
  unfold forbidden.
  repeat (constructor;
          [split; [discriminate | repeat (constructor; [reflexivity |]); constructor] |]).
  constructor.
Qed.

Lemma scan_forbidden_false_u (words : list ustr) (sql_upper : ustr) :
  scan_forbidden words sql_upper = false
  <-> exists w, In w words /\ search (pattern w) sql_upper = true.
Proof.
  induction words as [|w words IH]; simpl.
  - split; [discriminate | intros [w [[] _]]].
  - destruct (search (pattern w) sql_upper) eqn:E.
    + split; [| reflexivity]. intros _. exists w. auto.
    + rewrite IH. split.
      * intros [v [Hin Hv]]. exists v. auto.
      * intros [v [[<- | Hin] Hv]]; [rewrite E in Hv; discriminate |].
        exists v. auto.
Qed.

Lemma is_readonly_sql_false_u (ucd : casing) (sql : ustr) :
  is_readonly_sql ucd sql = false
  <-> exists w, In w forbidden /\ token_in_u w (upper ucd sql).
Proof.
  unfold is_readonly_sql.
  rewrite scan_forbidden_false_u. split.
  - intros [w [Hin Hs]]. exists w. split; [exact Hin |].
    apply search_token_u in Hs.
    apply (token_strip_u (upper ucd sql)
             (proj1 (Forall_forall _ _) forbidden_plain_u w Hin)).
    exact Hs.
  - intros [w [Hin Ht]]. exists w. split; [exact Hin |].
    apply search_token_u.
    apply (token_strip_u (upper ucd sql)
             (proj1 (Forall_forall _ _) forbidden_plain_u w Hin)).
    exact Ht.
Qed.

(** The class [\s] is the white space listed code point by code point. *)
Lemma isspace_whitespace (c : N) : isspace c = true <-> In c whitespace.
Proof.
  unfold isspace, whitespace. cbn [In].
  rewrite !orb_true_iff, !andb_true_iff, !N.leb_le, !N.eqb_eq. lia.
Qed.

Lemma sep_class_boundary (c : N) : sep_class c = true <-> boundary c.
Proof.
  unfold sep_class, boundary.
  rewrite orb_true_iff, isspace_whitespace, N.eqb_eq. tauto.
Qed.

Lemma token_in_whole (w s : ustr) : token_in_u w s <-> whole_token w s.
Proof.
  unfold token_in_u, whole_token, boundary_before_u, boundary_after_u,
    starts_token, ends_token.
  split; intros [pre [post [E [Hb Ha]]]]; exists pre, post;
    (split; [exact E |]); split.
  - destruct Hb as [Hb | [p [c [Hp Hc]]]]; [left; exact Hb |].
    right. exists p, c. split; [exact Hp | apply sep_class_boundary; exact Hc].
  - destruct Ha as [Ha | [c [t [Hp Hc]]]]; [left; exact Ha |].
    right. exists c, t. split; [exact Hp | apply sep_class_boundary; exact Hc].
  - destruct Hb as [Hb | [p [c [Hp Hc]]]]; [left; exact Hb |].
    right. exists p, c. split; [exact Hp | apply sep_class_boundary; exact Hc].
  - destruct Ha as [Ha | [c [t [Hp Hc]]]]; [left; exact Ha |].
    right. exists c, t. split; [exact Hp | apply sep_class_boundary; exact Hc].
Qed.

Lemma small_letter_range (c : N) :
  In c small_letters <-> (97 <= c /\ c <= 122)%N.
Proof. unfold small_letters, U. cbn. lia. Qed.

(** The upper case of a code point is what [str.upper] computes. *)
Lemma capital_of_upper_point (ucd : casing) (c : N) (cs : list N) :
  capital_of ucd c cs <-> cs = upper_point ucd c.
Proof.
  split.
  - intros H. destruct H as [i small capital Hs Hc | c Hlt Hno | c Hge].
    + do 26 (destruct i as [|i];
             [cbn in Hs, Hc; injection Hs as <-; injection Hc as <-;
              reflexivity |]).
      cbn in Hs. destruct i; discriminate.
    + unfold upper_point.
      apply N.ltb_lt in Hlt. rewrite Hlt.
      destruct ((97 <=? c) && (c <=? 122))%N eqn:E; [| reflexivity].
      apply andb_true_iff in E. destruct E as [E1 E2].
      apply N.leb_le in E1, E2. exfalso. apply Hno.
      apply small_letter_range. split; assumption.
    + unfold upper_point.
      destruct (c <? 128)%N eqn:E; [| reflexivity].
      apply N.ltb_lt in E. lia.
  - intros ->. unfold upper_point.
    destruct (c <? 128)%N eqn:Hlt.
    + destruct ((97 <=? c) && (c <=? 122))%N eqn:E.
      * apply andb_true_iff in E. destruct E as [E1 E2].
        apply N.leb_le in E1, E2.
        apply (@cap_letter ucd (N.to_nat (c - 97)) c (c - 32)).
        -- assert (H : In c small_letters)
             by (apply small_letter_range; split; assumption).
           unfold small_letters, U in H. cbn in H.
           repeat (destruct H as [<- | H]; [reflexivity |]). destruct H.
        -- assert (H : In c small_letters)
             by (apply small_letter_range; split; assumption).
           unfold small_letters, U in H. cbn in H.
           repeat (destruct H as [<- | H]; [reflexivity |]). destruct H.
      * apply cap_ascii; [apply N.ltb_lt; exact Hlt |].
        intros H. apply small_letter_range in H. destruct H as [H1 H2].
        apply N.leb_le in H1, H2. rewrite H1, H2 in E. discriminate.
    + apply cap_beyond. apply N.ltb_ge. exact Hlt.
Qed.

Lemma uppercased_upper (ucd : casing) (s s' : ustr) :
  uppercased ucd s s' <-> s' = upper ucd s.
Proof.
  split.
  - intros H. induction H as [|c cs s s' Hc _ IH]; [reflexivity |].
    apply capital_of_upper_point in Hc. subst. reflexivity.
  - intros ->. induction s as [|c s IH]; [constructor |].
    cbn [upper flat_map]. constructor; [| exact IH].
    apply capital_of_upper_point. reflexivity.
Qed.

(** The checker answers [False] exactly for the statements that hold a
    forbidden verb. *)
Lemma is_readonly_sql_holds (ucd : casing) (sql : ustr) :
  is_readonly_sql ucd sql = false <-> holds_forbidden_verb ucd sql.
Proof.
  rewrite is_readonly_sql_false_u. unfold holds_forbidden_verb. split.
  - intros [w [Hin Ht]]. exists (upper ucd sql), w.
    split; [apply uppercased_upper; reflexivity |].
    split; [exact Hin | apply token_in_whole; exact Ht].
  - intros [sql_upper [verb [Hu [Hin Ht]]]].
    apply uppercased_upper in Hu. subst sql_upper.
    exists verb. split; [exact Hin | apply token_in_whole; exact Ht].
Qed.

End SqlUFacts.

(* ================================================================== *)
(** * On ASCII text the two embeddings of the checker agree *)
(* ================================================================== *)

Module SidesFacts.
Import Unicode Sides.

Lemma point_eqb (x y : ascii) :
  N.eqb (N_of_ascii x) (N_of_ascii y) = Py.ascii_eqb x y.
Proof.
  unfold Py.ascii_eqb. destruct (Ascii.eqb x y) eqn:E.
  - apply Ascii.eqb_eq in E. subst. apply N.eqb_refl.
  - apply N.eqb_neq. intros H. apply (f_equal ascii_of_N) in H.
    rewrite !ascii_N_embedding in H. subst.
    rewrite Ascii.eqb_refl in E. discriminate.
Qed.

Lemma isspace_codes (c : ascii) : isspace (N_of_ascii c) = Py.isspace c.
Proof.
  destruct c as [b0 b1 b2 b3 b4 b5 b6 b7].
  destruct b0, b1, b2, b3, b4, b5, b6, b7; reflexivity.
Qed.

Lemma sep_class_codes (c : ascii) :
  SqlU.sep_class (N_of_ascii c) = Sql.sep_class c.
Proof.
  unfold SqlU.sep_class, Sql.sep_class. rewrite isspace_codes.
  change 59%N with (N_of_ascii ";"%char). rewrite point_eqb. reflexivity.
Qed.

Lemma upper_point_codes (ucd : casing) (c : ascii) :
  (N_of_ascii c < 128)%N ->
  upper_point ucd (N_of_ascii c) = [N_of_ascii (Py.upper_char c)].
Proof.
  destruct c as [b0 b1 b2 b3 b4 b5 b6 b7].
  destruct b7.
  - intros H. exfalso.
    destruct b0, b1, b2, b3, b4, b5, b6; vm_compute in H; discriminate.
  - intros _. destruct b0, b1, b2, b3, b4, b5, b6; reflexivity.
Qed.

Lemma upper_codes (ucd : casing) (s : list ascii) :
  is_ascii s -> upper ucd (codes s) = codes (Py.upper s).
Proof.
  intros H. induction H as [|c s Hc _ IH]; [reflexivity |].
  cbn [codes map upper flat_map Py.upper].
  rewrite (upper_point_codes ucd c Hc).
  unfold upper, codes, Py.upper in IH. rewrite IH. reflexivity.
Qed.

Lemma lstrip_codes (s : list ascii) : lstrip (codes s) = codes (Py.lstrip s).
Proof.
  induction s as [|c s IH]; [reflexivity |].
  cbn [codes map lstrip Py.lstrip]. rewrite isspace_codes.
  destruct (Py.isspace c); [exact IH | reflexivity].
Qed.

Lemma rstrip_codes (s : list ascii) : rstrip (codes s) = codes (Py.rstrip s).
Proof.
  induction s as [|c s IH]; [reflexivity |].
  cbn [codes map rstrip Py.rstrip]. fold (codes s). rewrite IH, isspace_codes.
  destruct (Py.rstrip s); [| reflexivity].
  cbn [codes map]. destruct (Py.isspace c); reflexivity.
Qed.

Lemma strip_codes (s : list ascii) : strip (codes s) = codes (Py.strip s).
Proof. unfold strip, Py.strip. rewrite lstrip_codes, rstrip_codes. reflexivity. Qed.

Lemma strip_prefix_codes (p s : list ascii) :
  strip_prefix (codes p) (codes s)
  = match Py.strip_prefix p s with
    | Some t => Some (codes t)
    | None => None
    end.
Proof.
  revert s. induction p as [|x p IH]; intros s; [reflexivity |].
  destruct s as [|y s]; [reflexivity |].
  cbn [codes map strip_prefix Py.strip_prefix]. rewrite point_eqb.
  destruct (Py.ascii_eqb x y); [apply IH | reflexivity].
Qed.

(** The same pattern finds the same matches. *)
Lemma match_at_codes (r : Re.regex) (u : ReU.regex) :
  same_pattern r u ->
  forall bos s,
    ReU.match_at u bos (codes s) = map pos_codes (Re.match_at r bos s).
Proof.
  intros H. induction H as [| | p q Hq | w | r1 r2 u1 u2 _ IH1 _ IH2
                            | r1 r2 u1 u2 _ IH1 _ IH2]; intros bos s.
  - cbn. destruct bos; reflexivity.
  - destruct s as [|c [|d s]]; cbn [codes map ReU.match_at Re.match_at];
      try reflexivity.
    change 10%N with (N_of_ascii "010"%char). rewrite point_eqb.
    destruct (Py.ascii_eqb c "010"); reflexivity.
  - destruct s as [|c s]; cbn [codes map ReU.match_at Re.match_at];
      [reflexivity |].
    rewrite Hq. destruct (p c); reflexivity.
  - cbn [ReU.match_at Re.match_at]. rewrite strip_prefix_codes.
    destruct (Py.strip_prefix w s); [| reflexivity].
    destruct w; reflexivity.
  - cbn [ReU.match_at Re.match_at]. rewrite IH1, IH2, map_app. reflexivity.
  - cbn [ReU.match_at Re.match_at]. rewrite IH1.
    induction (Re.match_at r1 bos s) as [|x l IHl]; [reflexivity |].
    cbn [map flat_map]. rewrite map_app, <- IHl. f_equal.
    destruct x as [b t]. unfold pos_codes. cbn [fst snd]. apply IH2.
Qed.

Lemma search_from_codes (r : Re.regex) (u : ReU.regex) :
  same_pattern r u ->
  forall bos s,
    ReU.search_from u bos (codes s) = Re.search_from r bos s.
Proof.
  intros H bos s. revert bos. induction s as [|c s IH]; intros bos.
  - pose proof (match_at_codes H bos []) as E.
    cbn [codes map] in E.
    cbn [codes map ReU.search_from Re.search_from].
    unfold ReU.matches_here, Re.matches_here. rewrite E.
    destruct (Re.match_at r bos []); reflexivity.
  - pose proof (match_at_codes H bos (c :: s)) as E.
    cbn [codes map] in E. fold (codes s) in E.
    cbn [codes map ReU.search_from Re.search_from]. fold (codes s).
    unfold ReU.matches_here, Re.matches_here. rewrite E.
    destruct (Re.match_at r bos (c :: s)); [apply IH | reflexivity].
Qed.

Lemma pattern_codes (word : list ascii) :
  same_pattern (Sql.pattern word) (SqlU.pattern (codes word)).
Proof.
  unfold Sql.pattern, SqlU.pattern.
  repeat constructor; apply sep_class_codes.
Qed.

Lemma scan_forbidden_codes (words : list (list ascii)) (t : list ascii) :
  SqlU.scan_forbidden (map codes words) (codes t)
  = Sql.scan_forbidden words t.
Proof.
  induction words as [|word words IH]; [reflexivity |].
  cbn [map SqlU.scan_forbidden Sql.scan_forbidden].
  unfold ReU.search, Re.search.
  rewrite (search_from_codes (pattern_codes word) true t).
  destruct (Re.search_from (Sql.pattern word) true t); [reflexivity | exact IH].
Qed.

(** On an ASCII statement the checker on code points and the checker on
    8-bit characters give the same answer. *)
Lemma is_readonly_sql_codes (ucd : casing) (sql : list ascii) :
  is_ascii sql ->
  SqlU.is_readonly_sql ucd (codes sql) = Sql.is_readonly_sql sql.
Proof.
  intros H. unfold SqlU.is_readonly_sql, Sql.is_readonly_sql.
  rewrite (upper_codes ucd H), strip_codes.
  change SqlU.forbidden with (map codes Sql.forbidden).
  apply scan_forbidden_codes.
Qed.

End SidesFacts.

(* ================================================================== *)
(** * Facts about computations *)
(* ================================================================== *)

Module EffectsFacts.
Import Py Effects.

Lemma bind_ok (A B : Type) (log : list event) (a : A) (k : A -> M B) :
  bind (log, Ok a) k = (log ++ log_of (k a), outcome (k a)).
Proof. unfold bind, log_of, outcome. destruct (k a). reflexivity. Qed.

Lemma bind_raise (A B : Type) (log : list event) (e : exn) (k : A -> M B) :
  bind (log, Raise e) k = (log, Raise e).
Proof. reflexivity. Qed.

Lemma bind_ret (A B : Type) (a : A) (k : A -> M B) : bind (ret a) k = k a.
Proof. unfold ret. rewrite bind_ok. simpl. destruct (k a). reflexivity. Qed.

Lemma bind_call_ok (A B : Type) (ev : event) (a : A) (k : A -> M B) :
  bind (call ev (Ok a)) k = (ev :: log_of (k a), outcome (k a)).
Proof. unfold call. rewrite bind_ok. reflexivity. Qed.

Lemma bind_call_raise (A B : Type) (ev : event) (e : exn) (k : A -> M B) :
  bind (call ev (Raise e)) k = ([ev], Raise e).
Proof. reflexivity. Qed.

(** A computation that ends well ran both of its halves to the end. *)
Lemma bind_outcome_ok (A B : Type) (m : M A) (k : A -> M B) (b : B) :
  outcome (bind m k) = Ok b ->
  exists a, outcome m = Ok a /\ outcome (k a) = Ok b.
Proof.
  destruct m as [log [a|e]]; simpl; [| discriminate].
  intros H. exists a. split; [reflexivity |].
  unfold outcome in *. destruct (k a). exact H.
Qed.

(** [try ... except Exception] never lets the body's exception through. *)
Lemma try_except_total (A : Type) (body : M A) (h : exn -> M A) :
  (forall e, exists a, outcome (h e) = Ok a) ->
  exists a, outcome (try_except body h) = Ok a.
Proof.
  intros Hh. destruct body as [log [a|e]]; simpl.
  - exists a. reflexivity.
  - destruct (Hh e) as [a Ha]. exists a.
    unfold outcome in *. destruct (h e). exact Ha.
Qed.

End EffectsFacts.

(* ================================================================== *)
(** * Facts about the nodes *)
(* ================================================================== *)

Module NodeFacts.
Import Py Effects State Nodes EffectsFacts.

Lemma state_messages_some (s : AgentState) (ms : list BaseMessage) :
  messages s = Some ms -> state_messages s = ret ms.
Proof. unfold state_messages. intros ->. reflexivity. Qed.

Lemma last_of_snoc (ms : list BaseMessage) (m : BaseMessage) :
  last_of (ms ++ [m]) = ret m.
Proof. unfold last_of. rewrite rev_unit. reflexivity. Qed.

Lemma last_content_snoc (ms : list BaseMessage) (m : BaseMessage) :
  last_content (ms ++ [m]) = ret (content m).
Proof. unfold last_content. rewrite last_of_snoc, bind_ret. reflexivity. Qed.

(** The first two statements of every node, on a state with a last message. *)
Lemma read_query (A : Type) (s : AgentState) (ms : list BaseMessage)
    (m : BaseMessage) (k : list BaseMessage -> str -> M A) :
  messages s = Some (ms ++ [m]) ->
  bind (state_messages s) (fun msgs => bind (last_content msgs) (k msgs))
  = k (ms ++ [m]) (content m).
Proof.
  intros H. rewrite (state_messages_some _ H), bind_ret.
  rewrite last_content_snoc, bind_ret. reflexivity.
Qed.

(** What a node returns when it returns. *)
Lemma rag_node_writes (w : World) (s u : AgentState) :
  outcome (rag_node w s) = Ok u -> exists context, u = rag_dict context.
Proof.
  unfold rag_node. intros H.
  apply bind_outcome_ok in H. destruct H as [msgs [_ H]].
  apply bind_outcome_ok in H. destruct H as [query [_ H]].
  apply bind_outcome_ok in H. destruct H as [context [_ H]].
  exists context. cbn in H. injection H as <-. reflexivity.
Qed.

Lemma sql_gen_node_writes (w : World) (s u : AgentState) :
  outcome (sql_gen_node w s) = Ok u -> exists answer, u = sql_dict answer.
Proof.
  unfold sql_gen_node. intros H.
  apply bind_outcome_ok in H. destruct H as [msgs [_ H]].
  apply bind_outcome_ok in H. destruct H as [query [_ H]].
  apply bind_outcome_ok in H. destruct H as [result [_ H]].
  apply bind_outcome_ok in H. destruct H as [last_message [_ H]].
  exists (content last_message). cbn in H. injection H as <-. reflexivity.
Qed.

Lemma run_steps_done (limit : nat) (g : Graph.StateGraph) (w : World)
    (s : AgentState) :
  Graph.run_steps limit g w [] s = ret s.
Proof. destruct limit; reflexivity. Qed.

Lemma run_steps_step (limit : nat) (g : Graph.StateGraph) (w : World)
    (n : str) (active : list str) (s : AgentState) :
  Graph.run_steps (S limit) g w (n :: active) s
  = bind (Graph.run_step g w s (n :: active))
      (fun outs =>
         Graph.run_steps limit g w
           (Graph.dedup
              (filter (fun n => negb (str_eqb n Graph.END))
                      (flat_map snd outs)))
           (fold_left apply_update (map fst outs) s)).
Proof. reflexivity. Qed.

Lemma response_node_unfold (w : World) (s : AgentState)
    (ms : list BaseMessage) (m : BaseMessage) :
  messages s = Some (ms ++ [m]) ->
  response_node w s
  = bind (response_chain w
            (input_text
               (full_context (get (rag_context s) (Some []))
                             (get (sql_result s) (Some [])))
               (content m)))
         (fun answer => ret (response_dict answer)).
Proof.
  intros Hm. unfold response_node. rewrite (@read_query _ s ms m _ Hm).
  reflexivity.
Qed.

(** The context block is the document section followed by the database
    section, each present when its value is truthy. *)
Lemma full_context_split (rag sql : Optional str) :
  full_context rag sql
  = (if truthy_opt_str rag
     then NodesSpec.doc_section (format_opt_str rag) else [])
    ++ (if truthy_opt_str sql
        then NodesSpec.db_section (format_opt_str sql) else []).
Proof.
  unfold full_context, NodesSpec.doc_section, NodesSpec.db_section.
  destruct (truthy_opt_str rag), (truthy_opt_str sql); cbn [app];
    rewrite ?app_nil_r; reflexivity.
Qed.

(** A section is there for a non-empty string, and only then. *)
Lemma section_present (v : option (Optional str)) (section : str -> str)
    (r : str) :
  NodesSpec.nonempty_string v r ->
  (if truthy_opt_str (get v (Some []))
   then section (format_opt_str (get v (Some []))) else []) = section r.
Proof.
  intros [-> Hr]. simpl. destruct r; [contradiction | reflexivity].
Qed.

Lemma section_absent (v : option (Optional str)) (section : str -> str) :
  NodesSpec.absent v ->
  (if truthy_opt_str (get v (Some []))
   then section (format_opt_str (get v (Some []))) else []) = [].
Proof.
  intros Ha. destruct v as [[[|c r]|]|]; simpl; try reflexivity.
  exfalso. apply (Ha (c :: r)). split; [reflexivity | discriminate].
Qed.

Lemma present_or_absent (v : option (Optional str)) :
  (exists r, NodesSpec.nonempty_string v r) \/ NodesSpec.absent v.
Proof.
  destruct v as [[[|c r]|]|].
  - right. intros r [E H]. injection E as <-. contradiction.
  - left. exists (c :: r). split; [reflexivity | discriminate].
  - right. intros r [E _]. discriminate.
  - right. intros r [E _]. discriminate.
Qed.

Lemma add_messages_none (old : option (list BaseMessage)) :
  add_messages old None = old.
Proof. reflexivity. Qed.

End NodeFacts.

(* ================================================================== *)
(** * Facts about the filter conversion *)
(* ================================================================== *)

Module VectorFacts.
Import Py Effects Vector VectorSpec PyFacts.

Lemma startswith_prefix (s p : str) :
  startswith s p = true <-> has_prefix p s.
Proof.
  unfold startswith, has_prefix.
  destruct (strip_prefix p s) as [rest|] eqn:E.
  - apply strip_prefix_Some in E. split; [intros _; exists rest; exact E | reflexivity].
  - split; [discriminate |]. intros [rest ->].
    rewrite strip_prefix_app in E. discriminate.
Qed.

Lemma field_name_namespaced (key : str) : namespaced key (field_name key).
Proof.
  unfold field_name. destruct (startswith key (L "metadata.")) eqn:E.
  - apply ns_kept. apply startswith_prefix. exact E.
  - apply ns_added. intros H. apply startswith_prefix in H.
    rewrite H in E. discriminate.
Qed.

Lemma clause_spec (key : str) (value : pyval) :
  clause_for (key, value) (clause key value).
Proof.
  pose proof (field_name_namespaced key) as Hf. unfold clause.
  destruct value.
  - apply cf_other; [exact Hf | discriminate | discriminate].
  - apply cf_other; [exact Hf | discriminate | discriminate].
  - apply cf_other; [exact Hf | discriminate | discriminate].
  - apply cf_str. exact Hf.
  - apply cf_list. exact Hf.
  - apply cf_other; [exact Hf | discriminate | discriminate].
Qed.

Lemma clauses_spec (d : dict) : Forall2 clause_for d (clauses d).
Proof.
  induction d as [|[key value] d IH]; simpl; constructor.
  - apply clause_spec.
  - exact IH.
Qed.

Lemma dict_mem_In (k : str) (d : dict) :
  dict_mem k d = true <-> exists v, In (k, v) d.
Proof.
  unfold dict_mem. induction d as [|[k' v'] d IH]; simpl.
  - split; [discriminate | intros [v []]].
  - destruct (str_eqb k k') eqn:E.
    + apply str_eqb_eq in E. subst k'. split; [| reflexivity].
      intros _. exists v'. left. reflexivity.
    + rewrite IH. split.
      * intros [v H]. exists v. right. exact H.
      * intros [v [H | H]].
        -- injection H as -> _. rewrite str_eqb_refl in E. discriminate.
        -- exists v. exact H.
Qed.

Lemma looks_like_dsl_spec (d : dict) :
  looks_like_dsl d = true <-> contains_dsl_keyword d.
Proof.
  unfold looks_like_dsl, contains_dsl_keyword. rewrite existsb_exists. split.
  - intros [k [Hk Hm]]. apply dict_mem_In in Hm. destruct Hm as [v Hv].
    exists k, v. split; [exact Hk | exact Hv].
  - intros [k [v [Hk Hv]]]. exists k. split; [exact Hk |].
    apply dict_mem_In. exists v. exact Hv.
Qed.

End VectorFacts.

(* ================================================================== *)
(** * Facts about a run of the graph *)
(* ================================================================== *)

Module GraphFacts.
Import Py Effects State Template Nodes Graph RunSpec EffectsFacts NodeFacts.

Lemma outcome_bind (A B : Type) (m : M A) (k : A -> M B) :
  outcome (bind m k)
  = match outcome m with
    | Ok a => outcome (k a)
    | Raise e => Raise e
    end.
Proof.
  destruct m as [log [a|e]]; simpl; [| reflexivity].
  unfold outcome. destruct (k a). reflexivity.
Qed.

Lemma outcome_try_except (A : Type) (body : M A) (h : exn -> M A) :
  outcome (try_except body h)
  = match outcome body with
    | Ok a => Ok a
    | Raise e => outcome (h e)
    end.
Proof.
  destruct body as [log [a|e]]; simpl; [reflexivity |].
  unfold outcome. destruct (h e). reflexivity.
Qed.

Lemma outcome_run_node (g : StateGraph) (w : World) (s : AgentState)
    (name : str) (fn : node_fn) :
  dict_lookup name (nodes g) = Some fn ->
  outcome (run_node g w s name)
  = match outcome (fn w s) with
    | Ok u => Ok (u, successors g name (apply_update s u))
    | Raise e => Raise e
    end.
Proof.
  intros H. unfold run_node. rewrite H, outcome_bind.
  destruct (outcome (fn w s)); reflexivity.
Qed.

(** A step with one node is that node. *)
Lemma run_step_single (g : StateGraph) (w : World) (s : AgentState)
    (name : str) :
  run_step g w s [name]
  = bind (run_node g w s name) (fun out => ret [out]).
Proof.
  unfold run_step. cbn [map flat_map].
  destruct (run_node g w s name) as [log [out|e]];
    cbn [log_of outcome fst snd failures returned flat_map app bind ret
         length].
  - reflexivity.
  - rewrite app_nil_r, Nat.mod_1_r. reflexivity.
Qed.

Lemma outcome_run_step_single (g : StateGraph) (w : World) (s : AgentState)
    (name : str) :
  outcome (run_step g w s [name])
  = match outcome (run_node g w s name) with
    | Ok out => Ok [out]
    | Raise e => Raise e
    end.
Proof.
  rewrite run_step_single, outcome_bind.
  destruct (outcome (run_node g w s name)); reflexivity.
Qed.

Lemma outcome_run_steps (limit : nat) (g : StateGraph) (w : World)
    (s : AgentState) (name : str) (active : list str) :
  outcome (run_steps (S limit) g w (name :: active) s)
  = match outcome (run_step g w s (name :: active)) with
    | Ok outs =>
        outcome
          (run_steps limit g w
             (dedup (filter (fun n => negb (str_eqb n END))
                            (flat_map snd outs)))
             (fold_left apply_update (map fst outs) s))
    | Raise e => Raise e
    end.
Proof. rewrite run_steps_step, outcome_bind. reflexivity. Qed.

(** A node that raises ends the run with its exception. *)
Lemma run_steps_raise (limit : nat) (g : StateGraph) (w : World)
    (s : AgentState) (name : str) (fn : node_fn) (e : exn) :
  dict_lookup name (nodes g) = Some fn ->
  outcome (fn w s) = Raise e ->
  outcome (run_steps (S limit) g w [name] s) = Raise e.
Proof.
  intros Hfn He.
  rewrite outcome_run_steps, outcome_run_step_single.
  rewrite (outcome_run_node g w s name Hfn), He. reflexivity.
Qed.

(** The input variables of the router's prompt: the two examples of its
    system text are fields. *)
Lemma router_prompt_variables :
  router_prompt
  = ret [ dq ++ L "department" ++ dq; dq ++ L "year" ++ dq; L "input" ].
Proof. reflexivity. Qed.

(** The system texts of the other chains hold no brace: their prompts ask
    for the variable of the user template only. *)
Lemma response_prompt_variables :
  chat_prompt_variables response_system_prompt (L "{input}")
  = ret [L "input"].
Proof. reflexivity. Qed.

(** The chain of the router raises before the model is called. *)
Lemma router_chain_raises (w : World) (input : str) :
  router_chain w
    [ dq ++ L "department" ++ dq; dq ++ L "year" ++ dq; L "input" ] input
  = ([], Raise (Exn (L "KeyError")
                  (L "Input to ChatPromptTemplate is missing variables "
                     ++ py_repr w
                          (PList [ PStr (dq ++ L "department" ++ dq);
                                   PStr (dq ++ L "year" ++ dq) ])))).
Proof. reflexivity. Qed.

(** The router on a state with a last message. *)
Lemma router_node_eq (w : World) (s : AgentState)
    (ms : list BaseMessage) (m : BaseMessage) :
  messages s = Some (ms ++ [m]) ->
  router_node w s = ret (router_dict (L "OFFTOPIC") []).
Proof.
  intros Hm. unfold router_node. rewrite (@read_query _ s ms m _ Hm).
  rewrite router_prompt_variables, bind_ret, router_chain_raises.
  reflexivity.
Qed.


(** Where the router's conditional edge leads. *)
Lemma successors_router (s : AgentState) :
  successors build_graph (L "router") s
  = match route_decision s with
    | One n =>
        match dict_lookup n
                [ (L "rag", L "rag"); (L "sql_gen", L "sql_gen");
                  (L "response", L "response") ] with
        | Some t => [t]
        | None => []
        end
    | Many ns =>
        flat_map
          (fun n =>
             match dict_lookup n
                     [ (L "rag", L "rag"); (L "sql_gen", L "sql_gen");
                       (L "response", L "response") ] with
             | Some t => [t]
             | None => []
             end) ns
    end.
Proof.
  unfold successors, branch_targets. cbn -[route_decision dict_lookup].
  rewrite !app_nil_r. destruct (route_decision s); cbn -[dict_lookup].
  - rewrite app_nil_r. reflexivity.
  - reflexivity.
Qed.

Lemma response_node_outcome (w : World) (s : AgentState)
    (ms : list BaseMessage) (m : BaseMessage) :
  messages s = Some (ms ++ [m]) ->
  outcome (response_node w s)
  = match chat w response_system_prompt
            (input_text
               (full_context (get (rag_context s) (Some []))
                             (get (sql_result s) (Some [])))
               (content m)) with
    | Ok answer => Ok (response_dict answer)
    | Raise e => Raise e
    end.
Proof.
  intros Hm. rewrite (response_node_unfold w s ms m Hm).
  unfold response_chain. destruct (chat w _ _); reflexivity.
Qed.

Lemma bind_ext (A B : Type) (m : M A) (k1 k2 : A -> M B) :
  (forall a, k1 a = k2 a) -> bind m k1 = bind m k2.
Proof.
  intros H. destruct m as [log [a|e]]; simpl; [| reflexivity].
  rewrite H. reflexivity.
Qed.

Lemma bind_assoc (A B C : Type) (m : M A) (f : A -> M B) (g : B -> M C) :
  bind (bind m f) g = bind m (fun a => bind (f a) g).
Proof.
  destruct m as [log [a|e]]; simpl; [| reflexivity].
  destruct (f a) as [log1 [b|e]]; simpl; [| reflexivity].
  destruct (g b) as [log2 r]. rewrite app_assoc. reflexivity.
Qed.

(** A step with one active node. *)
Lemma run_single (limit : nat) (g : StateGraph) (w : World) (s : AgentState)
    (name : str) (fn : node_fn) :
  dict_lookup name (nodes g) = Some fn ->
  run_steps (S limit) g w [name] s
  = bind (fn w s)
      (fun u =>
         run_steps limit g w
           (dedup (filter (fun n => negb (str_eqb n END))
                          (successors g name (apply_update s u))))
           (apply_update s u)).
Proof.
  intros H. rewrite run_steps_step, run_step_single. unfold run_node.
  rewrite H, !bind_assoc. apply bind_ext. intros u.
  rewrite !bind_ret. cbn [map fst snd flat_map fold_left].
  rewrite app_nil_r. reflexivity.
Qed.

(** The last step of every run. *)
Lemma run_response (limit : nat) (w : World) (s : AgentState) :
  run_steps (S limit) build_graph w [L "response"] s
  = bind (response_node w s) (fun r => ret (apply_update s r)).
Proof.
  rewrite (@run_single limit build_graph w s (L "response") response_node
             eq_refl).
  apply bind_ext. intros r.
  change (successors build_graph (L "response") (apply_update s r))
    with [END].
  change (dedup (filter (fun n => negb (str_eqb n END)) [END]))
    with (@nil str).
  apply run_steps_done.
Qed.

Lemma last_message_cases (s : AgentState) :
  messages s = None \/ messages s = Some []
  \/ exists ms m, messages s = Some (ms ++ [m]).
Proof.
  destruct (messages s) as [msgs|]; [| left; reflexivity]. right.
  destruct msgs as [|m ms _] using rev_ind; [left; reflexivity |].
  right. exists ms, m. reflexivity.
Qed.

(** A run on an input with a last message: the router falls back without a
    call, its edge leads to the response node, and the run ends there. *)
Lemma invoke_with_message (w : World) (inputs : AgentState)
    (ms : list BaseMessage) (m : BaseMessage) :
  messages inputs = Some (ms ++ [m]) ->
  invoke build_graph w inputs
  = bind (response_node w (after_router inputs))
         (fun r => ret (apply_update (after_router inputs) r)).
Proof.
  intros Hm. unfold invoke.
  change (entry_point build_graph) with (Some (L "router")).
  cbv beta iota. change recursion_limit with (S (S 23)).
  rewrite (@run_single (S 23) build_graph w _ (L "router") router_node
             eq_refl).
  assert (H0 : messages (apply_update channels_at_start inputs)
               = Some (ms ++ [m])).
  { unfold apply_update. cbn [messages channels_at_start add_messages get].
    rewrite Hm. reflexivity. }
  rewrite (router_node_eq w _ ms m H0), bind_ret.
  fold (after_router inputs).
  rewrite successors_router.
  change (route_decision (after_router inputs)) with (One (L "response")).
  cbv beta iota.
  change (dedup (filter (fun n => negb (str_eqb n END))
            match dict_lookup (L "response")
                    [ (L "rag", L "rag"); (L "sql_gen", L "sql_gen");
                      (L "response", L "response") ] with
            | Some t => [t]
            | None => []
            end)) with [L "response"].
  apply run_response.
Qed.

(** A run on an input without a message: the router raises at
    [messages[-1]], before any call. *)
Lemma invoke_without_message (w : World) (inputs : AgentState) :
  messages inputs = None \/ messages inputs = Some [] ->
  invoke build_graph w inputs
  = ([], Raise (Exn (L "IndexError") (L "list index out of range"))).
Proof.
  intros H. unfold invoke.
  change (entry_point build_graph) with (Some (L "router")).
  cbv beta iota. change recursion_limit with (S (S 23)).
  rewrite (@run_single (S 23) build_graph w _ (L "router") router_node
             eq_refl).
  assert (H0 : messages (apply_update channels_at_start inputs) = Some []).
  { unfold apply_update. cbn [messages channels_at_start add_messages get].
    destruct H as [-> | ->]; reflexivity. }
  unfold router_node, state_messages. rewrite H0. reflexivity.
Qed.

End GraphFacts.

(* ================================================================== *)
(** * The properties of the specification *)
(* ================================================================== *)

Import Py Re Sql SqlSpec Effects SqlTools Vector VectorSpec Rag State Nodes.
Import Template NodesSpec Graph Ui RunSpec.
Import Scenarios PyFacts SqlFacts EffectsFacts NodeFacts VectorFacts GraphFacts.
Import SqlUSpec SqlUFacts SidesFacts.

Unset Implicit Arguments.

(** C1. On every Python string, whatever the Unicode database says of the
    code points beyond ASCII: [is_readonly_sql] answers [False] exactly when
    the statement, written in upper case, holds one of the eleven verbs
    INSERT, UPDATE, DELETE, DROP, ALTER, TRUNCATE, CREATE, GRANT, REVOKE,
    EXEC, EXECUTE as a whole token, that is with nothing, white space or a
    semicolon on its left and nothing, white space or a semicolon on its
    right; it answers [True] in every other case.  The three statements of
    the specification evaluate as it says; so do a statement in small
    letters, one where semicolons alone set the verb apart and, when the
    database maps the code points concerned as Unicode does, one where the
    white space is not of ASCII and one written with a dotless i.  On
    ASCII statements the answer is that of the checker on 8-bit characters
    that the SQL tools are stated with. *)
Theorem is_readonly_sql_whole_token (ucd : Unicode.casing) :
  (forall sql,
      SqlU.is_readonly_sql ucd sql = false <-> holds_forbidden_verb ucd sql)
  /\ (forall sql,
      SqlU.is_readonly_sql ucd sql = true <-> ~ holds_forbidden_verb ucd sql)
  /\ SqlU.is_readonly_sql ucd (Unicode.U "DROP TABLE users") = false
  /\ SqlU.is_readonly_sql ucd (Unicode.U "SELECT *; DROP TABLE users") = false
  /\ SqlU.is_readonly_sql ucd (Unicode.U "SELECT * FROM updates") = true
  /\ SqlU.is_readonly_sql ucd (Unicode.U "select 1 from t where x = 'y'") = true
  /\ SqlU.is_readonly_sql ucd (Unicode.U "delete from users") = false
  /\ SqlU.is_readonly_sql ucd (Unicode.U "select 1;Revoke;select 2") = false
  /\ (ucd 8232%N = [8232%N] -> ucd 12288%N = [12288%N] ->
      SqlU.is_readonly_sql ucd
        (Unicode.U "SELECT 1" ++ [8232%N] ++ Unicode.U "truncate"
           ++ [12288%N] ++ Unicode.U "t")
      = false)
  /\ (ucd 305%N = [73%N] ->
      SqlU.is_readonly_sql ucd ([305%N] ++ Unicode.U "nsert into t values (1)")
      = false)
  /\ (forall query : str,
      Unicode.is_ascii query ->
      is_readonly_sql query
      = SqlU.is_readonly_sql ucd (Unicode.codes query)).
Proof.
  split; [exact (is_readonly_sql_holds ucd) |].
  split.
  { intros sql. rewrite <- is_readonly_sql_holds.
    destruct (SqlU.is_readonly_sql ucd sql); split; congruence. }
  do 6 (split; [reflexivity |]).
  split.
  - intros H1 H2. unfold SqlU.is_readonly_sql, Unicode.upper.
    rewrite !flat_map_app. cbn [flat_map].
    change (Unicode.upper_point ucd 8232%N) with (ucd 8232%N).
    change (Unicode.upper_point ucd 12288%N) with (ucd 12288%N).
    rewrite H1, H2. reflexivity.
  - split.
    + intros H. unfold SqlU.is_readonly_sql, Unicode.upper.
      cbn [app flat_map].
      change (Unicode.upper_point ucd 305%N) with (ucd 305%N). rewrite H.
      reflexivity.
    + intros query H. symmetry. apply is_readonly_sql_codes. exact H.
Qed.



(** C3, as the specification states it, fails: for the read-only counting
    query on the table of sales, when the database cannot be reached,
    [get_db()] raises outside the [try] and [sql_db_query] lets the exception
    through instead of returning a text. *)
Lemma sql_db_query_raises_when_unreachable :
  is_readonly_sql (L "SELECT COUNT(id) FROM sales") = true
  /\ sql_db_query world_no_db (L "SELECT COUNT(id) FROM sales")
     = ([EvGetDb], Raise (unreachable (L "database unreachable")))
  /\ ~ (exists text,
          outcome (sql_db_query world_no_db (L "SELECT COUNT(id) FROM sales"))
          = Ok text).
Proof.
  repeat split. intros [text H]. discriminate.
Qed.

(** C3, amended.  A query that is not read-only is answered with the fixed
    refusal and no call at all is made (the log is empty).  For a read-only
    query, once [get_db()] has returned a database, the tool returns a text
    whatever [db.run] does: its result, or ["Error executing SQL: "] followed
    by the exception's message; and [db.run] is the only call after
    [get_db()].  An exception of [get_db()] itself is raised to the caller. *)
Theorem sql_db_query_contract (w : World) (query : str) :
  (is_readonly_sql query = false -> sql_db_query w query = ([], Ok refusal))
  /\ (is_readonly_sql query = true ->
      forall db, connect w = Ok db ->
        (forall rows, run db query = Ok rows ->
           sql_db_query w query = ([EvGetDb; EvRun query], Ok rows))
        /\ (forall e, run db query = Raise e ->
              sql_db_query w query
              = ([EvGetDb; EvRun query],
                 Ok (L "Error executing SQL: " ++ exn_str e)))
        /\ (exists text, outcome (sql_db_query w query) = Ok text))
  /\ (is_readonly_sql query = true ->
      forall e, connect w = Raise e ->
        sql_db_query w query = ([EvGetDb], Raise e)).
Proof.
  unfold sql_db_query, get_db. split; [| split].
  - intros ->. reflexivity.
  - intros Hq db Hdb. rewrite Hq, Hdb, bind_call_ok. cbn.
    split; [| split].
    + intros rows Hr. rewrite Hr. reflexivity.
    + intros e Hr. rewrite Hr. reflexivity.
    + destruct (run db query); eexists; reflexivity.
  - intros Hq e He. rewrite Hq, He. reflexivity.
Qed.

(** The tool refuses a write, and reports a failed read-only query as text. *)
Lemma sql_db_query_contract_witness :
  sql_db_query (world_up (Ok both_decision)) (L "DROP TABLE users")
  = ([], Ok refusal)
  /\ sql_db_query (world_up (Ok both_decision)) (L "SELECT name FROM nowhere")
     = ([EvGetDb; EvRun (L "SELECT name FROM nowhere")],
        Ok (L "Error executing SQL: Invalid object name")).
Proof.
  split.
  - exact (proj1 (sql_db_query_contract (world_up (Ok both_decision))
                    (L "DROP TABLE users")) eq_refl).
  - exact (proj1 (proj2 (proj1 (proj2
             (sql_db_query_contract (world_up (Ok both_decision))
                (L "SELECT name FROM nowhere"))) eq_refl sales_db eq_refl))
             _ eq_refl).
Defined.

(** C4. The dictionary returned by the retrieval node holds the single key
    [rag_context], the one returned by the SQL node the single key
    [sql_result]; written into the state, each changes that key and leaves
    every other field as it was.  When both nodes return on the same state
    (intent BOTH), the state with both dictionaries written holds the
    retrieval context under [rag_context] and the SQL answer under
    [sql_result], in either order of writing, and the graph's step over the
    two nodes hands both on to the response node. *)
Theorem rag_and_sql_nodes_write_own_keys (w : World) (s : AgentState) :
  (forall u, outcome (rag_node w s) = Ok u ->
     let s' := apply_update s u in
     keys u = [L "rag_context"]
     /\ (exists context, rag_context s' = Some (Some context))
     /\ messages s' = messages s
     /\ clarification_needed s' = clarification_needed s
     /\ sql_query s' = sql_query s
     /\ sql_result s' = sql_result s
     /\ intent s' = intent s
     /\ filters s' = filters s
     /\ final_answer s' = final_answer s)
  /\ (forall u, outcome (sql_gen_node w s) = Ok u ->
     let s' := apply_update s u in
     keys u = [L "sql_result"]
     /\ (exists answer, sql_result s' = Some (Some answer))
     /\ messages s' = messages s
     /\ clarification_needed s' = clarification_needed s
     /\ sql_query s' = sql_query s
     /\ rag_context s' = rag_context s
     /\ intent s' = intent s
     /\ filters s' = filters s
     /\ final_answer s' = final_answer s)
  /\ (forall u1 u2,
     outcome (rag_node w s) = Ok u1 ->
     outcome (sql_gen_node w s) = Ok u2 ->
     let s' := apply_update (apply_update s u1) u2 in
     (exists context,
        u1 = rag_dict context /\ rag_context s' = Some (Some context))
     /\ (exists answer,
        u2 = sql_dict answer /\ sql_result s' = Some (Some answer))
     /\ apply_update (apply_update s u2) u1 = s'
     /\ outcome (run_step build_graph w s [L "rag"; L "sql_gen"])
        = Ok [(u1, [L "response"]); (u2, [L "response"])]
     /\ fold_left apply_update [u1; u2] s = s').
Proof.
  split; [| split].
  - intros u H. destruct (rag_node_writes _ _ H) as [context ->].
    cbn. repeat split; try reflexivity. exists context. reflexivity.
  - intros u H. destruct (sql_gen_node_writes _ _ H) as [answer ->].
    cbn. repeat split; try reflexivity. exists answer. reflexivity.
  - intros u1 u2 H1 H2.
    destruct (rag_node_writes _ _ H1) as [context ->].
    destruct (sql_gen_node_writes _ _ H2) as [answer ->].
    cbn zeta. split; [exists context; split; reflexivity |].
    split; [exists answer; split; reflexivity |].
    split; [reflexivity |]. split; [| reflexivity].
    unfold run_step. cbn [map]. unfold run_node.
    change (dict_lookup (L "rag") (nodes build_graph)) with (Some rag_node).
    change (dict_lookup (L "sql_gen") (nodes build_graph)) with (Some sql_gen_node).
    cbv beta iota.
    destruct (rag_node w s) as [log1 r1]. destruct (sql_gen_node w s) as [log2 r2].
    unfold outcome in H1, H2. simpl in H1, H2. subst r1 r2.
    rewrite !bind_ok. reflexivity.
Qed.

(** Both nodes return in a world where everything answers: the step over
    the two branches of a state routed as BOTH. *)
Lemma rag_and_sql_nodes_write_own_keys_witness :
  outcome
    (run_step build_graph (world_up (Ok both_decision))
       (apply_update (turn (L "sales and policy")) (router_dict (L "BOTH") []))
       [L "rag"; L "sql_gen"])
  = Ok [ (rag_dict
            (join separator
               (map (format_doc (world_up (Ok both_decision)))
                    [handbook; memo])),
          [L "response"]);
         (sql_dict (L "There are 42 sales."), [L "response"]) ].
Proof.
  exact (proj1 (proj2 (proj2 (proj2
           (proj2 (proj2 (rag_and_sql_nodes_write_own_keys
                            (world_up (Ok both_decision))
                            (apply_update (turn (L "sales and policy"))
                               (router_dict (L "BOTH") []))))
              _ _ eq_refl eq_refl))))).
Defined.

(** C5. The graph starts at the router.  After the router, intent RAG leads
    to the retrieval node alone, SQL to the SQL node alone, BOTH to the
    retrieval and the SQL node, and OFFTOPIC, like every other value of the
    intent (a missing key and [None] included), to the response node.  The
    retrieval and the SQL node lead to the response node, the response node
    to [END] alone.  When its model call answers, the response node appends
    the answer to the conversation as one assistant turn, and a run that has
    reached the response node ends there. *)
Theorem route_decision_dispatch (s : AgentState) :
  entry_point build_graph = Some (L "router")
  /\ (intent s = Some (Some (L "RAG")) ->
      successors build_graph (L "router") s = [L "rag"])
  /\ (intent s = Some (Some (L "SQL")) ->
      successors build_graph (L "router") s = [L "sql_gen"])
  /\ (intent s = Some (Some (L "BOTH")) ->
      successors build_graph (L "router") s = [L "rag"; L "sql_gen"])
  /\ (intent s = Some (Some (L "OFFTOPIC")) ->
      successors build_graph (L "router") s = [L "response"])
  /\ (get (intent s) None <> Some (L "RAG") ->
      get (intent s) None <> Some (L "SQL") ->
      get (intent s) None <> Some (L "BOTH") ->
      successors build_graph (L "router") s = [L "response"])
  /\ successors build_graph (L "rag") s = [L "response"]
  /\ successors build_graph (L "sql_gen") s = [L "response"]
  /\ successors build_graph (L "response") s = [END]
  /\ (forall w ms m answer limit,
      messages s = Some (ms ++ [m]) ->
      chat w response_system_prompt
        (input_text
           (full_context (get (rag_context s) (Some []))
                         (get (sql_result s) (Some [])))
           (content m))
      = Ok answer ->
      outcome (response_node w s) = Ok (response_dict answer)
      /\ messages (apply_update s (response_dict answer))
         = Some (ms ++ [m] ++ [AIMessage answer])
      /\ outcome (run_steps (S limit) build_graph w [L "response"] s)
         = Ok (apply_update s (response_dict answer))).
Proof.
  assert (Hne : forall i name,
             i <> Some name -> intent_is i name = false).
  { intros [i|] name H; simpl; [| reflexivity].
    destruct (str_eqb i name) eqn:E; [| reflexivity].
    apply str_eqb_eq in E. subst. contradiction. }
  pose proof (successors_router s) as Hrouter.
  split; [reflexivity |].
  split; [intros H; rewrite Hrouter; unfold route_decision; rewrite H; reflexivity |].
  split; [intros H; rewrite Hrouter; unfold route_decision; rewrite H; reflexivity |].
  split; [intros H; rewrite Hrouter; unfold route_decision; rewrite H; reflexivity |].
  split; [intros H; rewrite Hrouter; unfold route_decision; rewrite H; reflexivity |].
  split.
  { intros H1 H2 H3. rewrite Hrouter. unfold route_decision.
    rewrite (Hne _ _ H1), (Hne _ _ H2), (Hne _ _ H3). reflexivity. }
  split; [reflexivity |]. split; [reflexivity |]. split; [reflexivity |].
  intros w ms m answer limit Hm Hchat.
  assert (Hnode : response_node w s
                  = ([EvChat response_system_prompt
                        (input_text
                           (full_context (get (rag_context s) (Some []))
                                         (get (sql_result s) (Some [])))
                           (content m))],
                     Ok (response_dict answer))).
  { unfold response_node. rewrite (@read_query _ s ms m _ Hm).
    unfold response_chain. rewrite Hchat, bind_call_ok. reflexivity. }
  split; [rewrite Hnode; reflexivity |].
  split.
  { unfold apply_update. simpl messages. rewrite Hm. simpl.
    rewrite <- app_assoc. reflexivity. }
  rewrite run_steps_step, run_step_single. unfold run_node.
  change (dict_lookup (L "response") (nodes build_graph)) with (Some response_node).
  cbv beta iota. rewrite Hnode.
  change (successors build_graph (L "response")
            (apply_update s (response_dict answer))) with [END].
  cbn -[apply_update response_dict run_steps input_text response_system_prompt].
  rewrite run_steps_done. reflexivity.
Qed.

(** The router's successors in a state whose intent is BOTH, and in one
    whose intent was never set. *)
Lemma route_decision_dispatch_witness :
  successors build_graph (L "router")
    (apply_update (turn (L "hello")) (router_dict (L "BOTH") []))
  = [L "rag"; L "sql_gen"]
  /\ successors build_graph (L "router") (turn (L "hello")) = [L "response"].
Proof.
  split.
  - apply (proj1 (proj2 (proj2 (proj2
             (route_decision_dispatch
                (apply_update (turn (L "hello")) (router_dict (L "BOTH") []))))))).
    reflexivity.
  - apply (proj1 (proj2 (proj2 (proj2 (proj2 (proj2
             (route_decision_dispatch (turn (L "hello"))))))))); discriminate.
Defined.

(** C6. With a database at hand and [tables] the list it reports: for a
    table that is not in the list the tool returns the text
    [Error: Table '...' does not exist.] and runs no query (the log holds the
    connection and the listing only); for a table in the list it runs exactly
    one query, [SELECT DISTINCT TOP 10 column FROM table WHERE column LIKE
    '%term%'] in which the term has every single quote doubled and the
    column stands as given, whatever it is, and it returns the rows or an
    inline error text. *)
Theorem column_value_checker_contract (w : World) (db : SQLDatabase)
    (tables : list str) (table column search_term : str) :
  connect w = Ok db ->
  get_table_names db = Ok tables ->
  (~ In table tables ->
     sql_db_column_value_checker w table column search_term
     = ([EvGetDb; EvGetTableNames],
        Ok (L "Error: Table '" ++ table ++ L "' does not exist.")))
  /\ (In table tables ->
      let query :=
        L "SELECT DISTINCT TOP 10 " ++ column ++ L " FROM " ++ table
          ++ L " WHERE " ++ column ++ L " LIKE '%"
          ++ double_quotes search_term ++ L "%'" in
      log_of (sql_db_column_value_checker w table column search_term)
      = [EvGetDb; EvGetTableNames; EvRun query]
      /\ (forall rows, run db query = Ok rows ->
            outcome (sql_db_column_value_checker w table column search_term)
            = Ok rows)
      /\ (forall e, run db query = Raise e ->
            outcome (sql_db_column_value_checker w table column search_term)
            = Ok (L "Error checking values: " ++ exn_str e))).
Proof.
  intros Hdb Htables.
  assert (Hq : value_query table column search_term
               = L "SELECT DISTINCT TOP 10 " ++ column ++ L " FROM " ++ table
                   ++ L " WHERE " ++ column ++ L " LIKE '%"
                   ++ double_quotes search_term ++ L "%'").
  { unfold value_query. cbv zeta.
    change (L "'") with ["'"%char]. rewrite replace_char. reflexivity. }
  unfold sql_db_column_value_checker, get_db.
  rewrite Hdb, bind_call_ok, Htables, bind_call_ok. split.
  - intros Hnot.
    destruct (str_in table tables) eqn:E.
    + apply str_in_In in E. contradiction.
    + reflexivity.
  - intros Hin. apply str_in_In in Hin. rewrite Hin. cbv zeta. rewrite Hq.
    cbn [negb log_of outcome fst snd]. unfold call, try_except.
    destruct (run db _) as [rows|e] eqn:Hr.
    + repeat split.
      * intros rows' E. injection E as <-. reflexivity.
      * discriminate.
    + repeat split.
      * discriminate.
      * intros e' E. injection E as <-. reflexivity.
Qed.

(** The checker on a known table and a term with a quote, then on an
    unknown table. *)
Lemma column_value_checker_contract_witness :
  log_of (sql_db_column_value_checker (world_up (Ok both_decision))
            (L "sales") (L "region") (L "O'Brien"))
  = [EvGetDb; EvGetTableNames;
     EvRun (L "SELECT DISTINCT TOP 10 region FROM sales WHERE region LIKE '%O''Brien%'")]
  /\ sql_db_column_value_checker (world_up (Ok both_decision))
       (L "orders; DROP TABLE users") (L "region") (L "x")
     = ([EvGetDb; EvGetTableNames],
        Ok (L "Error: Table 'orders; DROP TABLE users' does not exist.")).
Proof.
  pose proof (column_value_checker_contract (world_up (Ok both_decision))
                sales_db _ (L "sales") (L "region") (L "O'Brien")
                eq_refl eq_refl) as Hknown.
  pose proof (column_value_checker_contract (world_up (Ok both_decision))
                sales_db _ (L "orders; DROP TABLE users") (L "region") (L "x")
                eq_refl eq_refl) as Hunknown.
  split.
  - apply (proj2 Hknown). left. reflexivity.
  - apply (proj1 Hunknown). intros [H | [H | []]]; discriminate.
Defined.

(** C7. On a state with a last message, the response node builds its
    context from those of [rag_context] and [sql_result] that hold a
    non-empty string, the document section first, and makes one model call.
    When the call raises, the node raises the same exception and returns no
    dictionary, and a run of the graph that has reached the node raises it
    too.  When the call answers, the node returns the keys [messages] and
    [final_answer] only: [final_answer] becomes the answer and one assistant
    message with that answer is appended to the conversation. *)
Theorem response_node_contract (w : World) (s : AgentState)
    (ms : list BaseMessage) (m : BaseMessage) :
  messages s = Some (ms ++ [m]) ->
  let rag := get (rag_context s) (Some []) in
  let sql := get (sql_result s) (Some []) in
  let prompt := input_text (full_context rag sql) (content m) in
  (forall r q, nonempty_string (rag_context s) r ->
               nonempty_string (sql_result s) q ->
               full_context rag sql = doc_section r ++ db_section q)
  /\ (forall r, nonempty_string (rag_context s) r -> absent (sql_result s) ->
                full_context rag sql = doc_section r)
  /\ (forall q, absent (rag_context s) -> nonempty_string (sql_result s) q ->
                full_context rag sql = db_section q)
  /\ (absent (rag_context s) -> absent (sql_result s) ->
      full_context rag sql = [])
  /\ (forall e, chat w response_system_prompt prompt = Raise e ->
        response_node w s = ([EvChat response_system_prompt prompt], Raise e)
        /\ forall limit,
             outcome (run_steps (S limit) build_graph w [L "response"] s)
             = Raise e)
  /\ (forall answer, chat w response_system_prompt prompt = Ok answer ->
        response_node w s
        = ([EvChat response_system_prompt prompt], Ok (response_dict answer))
        /\ keys (response_dict answer) = [L "messages"; L "final_answer"]
        /\ final_answer (apply_update s (response_dict answer))
           = Some (Some answer)
        /\ messages (apply_update s (response_dict answer))
           = Some ((ms ++ [m]) ++ [AIMessage answer])).
Proof.
  intros Hm rag sql prompt.
  assert (Hnode : response_node w s
                  = bind (call (EvChat response_system_prompt prompt)
                               (chat w response_system_prompt prompt))
                         (fun answer => ret (response_dict answer))).
  { apply (response_node_unfold w s ms m Hm). }
  split.
  { intros r q Hr Hq. unfold rag, sql. rewrite full_context_split.
    f_equal; [apply (section_present doc_section Hr)
             | apply (section_present db_section Hq)]. }
  split.
  { intros r Hr Hq. unfold rag, sql. rewrite full_context_split.
    rewrite <- (app_nil_r (doc_section r)).
    f_equal; [apply (section_present doc_section Hr)
             | apply (section_absent db_section Hq)]. }
  split.
  { intros q Hr Hq. unfold rag, sql. rewrite full_context_split.
    change (db_section q) with ([] ++ db_section q).
    f_equal; [apply (section_absent doc_section Hr)
             | apply (section_present db_section Hq)]. }
  split.
  { intros Hr Hq. unfold rag, sql. rewrite full_context_split.
    change (@nil ascii) with (@nil ascii ++ []).
    f_equal; [apply (section_absent doc_section Hr)
             | apply (section_absent db_section Hq)]. }
  split.
  - intros e He. rewrite Hnode, He. split; [reflexivity |].
    intros limit. rewrite run_steps_step, run_step_single. unfold run_node.
    change (dict_lookup (L "response") (nodes build_graph))
      with (Some response_node).
    cbv beta iota. rewrite Hnode, He. reflexivity.
  - intros answer Ha. rewrite Hnode, Ha, bind_call_ok.
    split; [reflexivity |]. split; [reflexivity |]. split; [reflexivity |].
    unfold apply_update. simpl messages. rewrite Hm. reflexivity.
Qed.

(** The synthesizer in a world without a model, and in one with a model. *)
Lemma response_node_contract_witness :
  response_node world_down (turn (L "hello"))
  = ([EvChat response_system_prompt
        (input_text [] (L "hello"))],
     Raise (unreachable (L "model unreachable")))
  /\ messages (apply_update (turn (L "hello"))
                 (response_dict (L "Here is what I found.")))
     = Some [HumanMessage (L "hello"); AIMessage (L "Here is what I found.")].
Proof.
  pose proof (response_node_contract world_down (turn (L "hello")) []
                (HumanMessage (L "hello")) eq_refl) as Hdown.
  pose proof (response_node_contract (world_up (Ok both_decision))
                (turn (L "hello")) [] (HumanMessage (L "hello")) eq_refl)
    as Hup.
  cbv zeta in Hdown, Hup. split.
  - apply (proj1 (proj2 (proj2 (proj2 (proj2 Hdown)))) _ eq_refl).
  - apply (proj2 (proj2 (proj2 (proj2 (proj2 Hup)))) _ eq_refl).
Defined.

(** C8, as the specification states it, fails on the empty dictionary: it is
    flat (it holds no DSL keyword), and the conversion answers [None], not a
    boolean filter. *)
Lemma convert_empty_filter_is_none :
  ~ contains_dsl_keyword []
  /\ _convert_to_opensearch_filter [] = PNone
  /\ ~ (exists cs, _convert_to_opensearch_filter [] = bool_filter cs).
Proof.
  split; [| split].
  - intros [k [v [_ []]]].
  - reflexivity.
  - intros [cs H]. discriminate.
Qed.

(** C8, amended.  A non-empty dictionary without DSL keyword is converted
    item by item, in order: the key is filed under [metadata.] unless it
    already starts with it; a string value gives a [term] clause and a list
    value a [terms] clause, both on the [.keyword] subfield; any other value
    gives a [term] clause on the field itself; and the clauses are wrapped
    in a boolean filter.  A dictionary that holds one of the keys [bool],
    [term], [match], [range] is returned as it is.  The empty dictionary
    gives [None]. *)
Theorem convert_filter_contract (d : dict) :
  (d <> [] -> ~ contains_dsl_keyword d ->
   exists cs,
     Forall2 clause_for d cs /\ _convert_to_opensearch_filter d = bool_filter cs)
  /\ (contains_dsl_keyword d -> _convert_to_opensearch_filter d = PDict d)
  /\ _convert_to_opensearch_filter [] = PNone.
Proof.
  split; [| split; [| reflexivity]].
  - intros Hne Hflat. exists (clauses d). split; [apply clauses_spec |].
    destruct d as [|item d]; [contradiction |].
    unfold _convert_to_opensearch_filter.
    destruct (looks_like_dsl (item :: d)) eqn:E.
    + apply looks_like_dsl_spec in E. contradiction.
    + unfold bool_filter.
      destruct (clauses (item :: d)) as [|c [|c' cs]]; reflexivity.
  - intros Hdsl. apply looks_like_dsl_spec in Hdsl.
    destruct d as [|item d]; [discriminate |].
    unfold _convert_to_opensearch_filter. rewrite Hdsl. reflexivity.
Qed.

(** The conversion of the filter of the docstring, of a filter with a list
    value and a namespaced key, and of a native filter. *)
Lemma convert_filter_contract_witness :
  _convert_to_opensearch_filter [(L "department", PStr (L "sales"))]
  = PDict [(L "bool",
            PDict [(L "filter",
                    PDict [(L "term",
                            PDict [(L "metadata.department.keyword",
                                    PStr (L "sales"))])])])]
  /\ _convert_to_opensearch_filter
       [(L "term", PDict [(L "metadata.year", PStr (L "2024"))])]
     = PDict [(L "term", PDict [(L "metadata.year", PStr (L "2024"))])].
Proof.
  split.
  - destruct (proj1 (convert_filter_contract
                       [(L "department", PStr (L "sales"))]))
      as [cs [_ H]].
    + discriminate.
    + intros [k [v [Hk [Hin | []]]]]. injection Hin as <- _.
      destruct Hk as [H | [H | [H | [H | []]]]]; discriminate.
    + reflexivity.
  - apply (proj1 (proj2 (convert_filter_contract
             [(L "term", PDict [(L "metadata.year", PStr (L "2024"))])]))).
    exists (L "term"), (PDict [(L "metadata.year", PStr (L "2024"))]).
    split; [right; left; reflexivity | left; reflexivity].
Defined.

(** C9. With the vector store open, [retrieve_documents] makes one search,
    of type [similarity], whose top-k bound is the [k] given and 4 when none
    is given (4 is also the default of [get_retriever]).  An empty result
    gives the text [No relevant documents found.] and no exception.  A
    non-empty result gives, for each document in order, its content, its
    source ([Unknown] when the metadata has no [source] key) and its
    metadata, the entries joined by a line [---]. *)
Theorem retrieve_documents_contract (w : World) (query : str)
    (k : option nat) (filters : Optional dict) :
  open_vectorstore w = Ok tt ->
  let retriever :=
    {| search_type := L "similarity";
       kw_k := match k with Some k => k | None => 4 end;
       kw_filter :=
         match filters with
         | Some (item :: d) =>
             Some (_convert_to_opensearch_filter (item :: d))
         | _ => None
         end;
       kw_score_threshold := None |} in
  log_of (retrieve_documents w query k filters)
  = [EvVectorStore; EvSearch retriever query]
  /\ (k = None -> kw_k retriever = 4)
  /\ (forall filter threshold r,
        outcome (get_retriever w None filter threshold) = Ok r -> kw_k r = 4)
  /\ (similarity_search w retriever query = Ok [] ->
      outcome (retrieve_documents w query k filters)
      = Ok (L "No relevant documents found."))
  /\ (forall doc docs,
        similarity_search w retriever query = Ok (doc :: docs) ->
        outcome (retrieve_documents w query k filters)
        = Ok (join (nl ++ L "---" ++ nl) (map (format_doc w) (doc :: docs))))
  /\ (forall doc,
        let entry source :=
          L "Content: " ++ page_content doc ++ nl
            ++ L "Source: " ++ source ++ nl
            ++ L "Metadata: " ++ py_repr w (PDict (metadata doc)) ++ nl in
        (forall v, dict_lookup (L "source") (metadata doc) = Some v ->
                   format_doc w doc = entry (py_str w v))
        /\ (dict_lookup (L "source") (metadata doc) = None ->
            format_doc w doc = entry (L "Unknown"))).
Proof.
  intros Hvs retriever.
  assert (Hret : get_retriever w (Some match k with Some k => k | None => 4 end)
                   filters None
                 = ([EvVectorStore], Ok retriever)).
  { unfold get_retriever, get_vectorstore. rewrite Hvs, bind_call_ok.
    unfold retriever. destruct filters as [[|item d]|]; reflexivity. }
  set (rest := bind (call (EvSearch retriever query)
                          (similarity_search w retriever query))
                    (fun docs : list Document =>
                       match docs with
                       | [] => ret no_documents
                       | _ :: _ =>
                           ret (join separator (map (format_doc w) docs))
                       end)).
  assert (Hrun : retrieve_documents w query k filters
                 = ([EvVectorStore] ++ log_of rest, outcome rest)).
  { unfold retrieve_documents. cbv zeta. rewrite Hret, bind_ok. reflexivity. }
  split.
  { rewrite Hrun. unfold rest, call, bind.
    destruct (similarity_search w retriever query) as [[|doc docs]|e];
      reflexivity. }
  split; [intros ->; reflexivity |].
  split.
  { intros filter threshold r. unfold get_retriever, get_vectorstore.
    rewrite Hvs, bind_call_ok. destruct threshold; cbn; intros H;
      injection H as <-; reflexivity. }
  split; [intros H; rewrite Hrun; unfold rest; rewrite H; reflexivity |].
  split; [intros doc docs H; rewrite Hrun; unfold rest; rewrite H; reflexivity |].
  intros doc entry. unfold format_doc, source_of, entry. split.
  - intros v ->. reflexivity.
  - intros ->. reflexivity.
Qed.

(** A search without result, and a search with two documents of which the
    second has no source. *)
Lemma retrieve_documents_contract_witness :
  outcome (retrieve_documents world_no_db (L "refunds") None None)
  = Ok (L "No relevant documents found.")
  /\ outcome (retrieve_documents (world_up (Ok both_decision)) (L "refunds")
                None (Some [(L "department", PStr (L "sales"))]))
     = Ok (L "Content: Refunds within 30 days." ++ nl
             ++ L "Source: handbook.xlsx" ++ nl
             ++ L "Metadata: {...}" ++ nl
             ++ nl ++ L "---" ++ nl
             ++ L "Content: Sales rose in Q2." ++ nl
             ++ L "Source: Unknown" ++ nl
             ++ L "Metadata: {...}" ++ nl).
Proof.
  pose proof (retrieve_documents_contract world_no_db (L "refunds") None None
                eq_refl) as Hnone.
  pose proof (retrieve_documents_contract (world_up (Ok both_decision))
                (L "refunds") None
                (Some [(L "department", PStr (L "sales"))]) eq_refl) as Hsome.
  cbv zeta in Hnone, Hsome. split.
  - apply (proj1 (proj2 (proj2 (proj2 Hnone)))). reflexivity.
  - rewrite (proj1 (proj2 (proj2 (proj2 (proj2 Hsome)))) handbook [memo] eq_refl).
    reflexivity.
Defined.

(** C10. The user message sent by the response node is built around a
    context block made of a document part followed by a database part.  The
    document part is not empty if and only if the state holds a non-empty
    string under [rag_context], and it is then the section headed
    [Document Context:] with that string; a missing key, [None] and the
    empty string all give no section.  The same holds for [sql_result] and
    the section headed [Database Result:]. *)
Theorem response_sections_by_truthiness (w : World) (s : AgentState)
    (ms : list BaseMessage) (m : BaseMessage) :
  messages s = Some (ms ++ [m]) ->
  exists doc db,
    log_of (response_node w s)
    = [EvChat response_system_prompt (prompt_around (doc ++ db) (content m))]
    /\ (doc <> [] <-> exists r, nonempty_string (rag_context s) r)
    /\ (forall r, nonempty_string (rag_context s) r -> doc = doc_section r)
    /\ (rag_context s = None \/ rag_context s = Some None
        \/ rag_context s = Some (Some []) -> doc = [])
    /\ (db <> [] <-> exists q, nonempty_string (sql_result s) q)
    /\ (forall q, nonempty_string (sql_result s) q -> db = db_section q)
    /\ (sql_result s = None \/ sql_result s = Some None
        \/ sql_result s = Some (Some []) -> db = []).
Proof.
  intros Hm.
  exists (if truthy_opt_str (get (rag_context s) (Some []))
          then doc_section (format_opt_str (get (rag_context s) (Some [])))
          else []).
  exists (if truthy_opt_str (get (sql_result s) (Some []))
          then db_section (format_opt_str (get (sql_result s) (Some [])))
          else []).
  split.
  { rewrite (response_node_unfold w s ms m Hm), <- full_context_split.
    unfold response_chain, call, bind.
    destruct (chat w _ _); reflexivity. }
  assert (Hsec : forall (v : option (Optional str)) (section : str -> str),
             (forall r, section r <> []) ->
             let part := if truthy_opt_str (get v (Some []))
                         then section (format_opt_str (get v (Some [])))
                         else [] in
             (part <> [] <-> exists r, nonempty_string v r)
             /\ (forall r, nonempty_string v r -> part = section r)
             /\ (v = None \/ v = Some None \/ v = Some (Some []) -> part = [])).
  { intros v section Hne part. split; [| split].
    - destruct (present_or_absent v) as [[r Hr] | Ha].
      + split; [intros _; exists r; exact Hr |].
        intros _. unfold part. rewrite (section_present section Hr). apply Hne.
      + split.
        * intros H. exfalso. apply H. apply (section_absent section Ha).
        * intros [r Hr]. exfalso. exact (Ha r Hr).
    - intros r Hr. apply (section_present section Hr).
    - intros [-> | [-> | ->]]; reflexivity. }
  destruct (Hsec (rag_context s) doc_section) as [H1 [H2 H3]];
    [intros r; discriminate |].
  destruct (Hsec (sql_result s) db_section) as [H4 [H5 H6]];
    [intros q; discriminate |].
  repeat split; try apply H1; try apply H4; assumption.
Qed.

(** The prompt for a state that holds a retrieval context and an empty
    SQL result. *)
Lemma response_sections_by_truthiness_witness :
  exists doc db,
    log_of (response_node world_down
              (apply_update (turn (L "hello"))
                 (apply_update (rag_dict (L "found")) (sql_dict []))))
    = [EvChat response_system_prompt (prompt_around (doc ++ db) (L "hello"))]
    /\ doc = doc_section (L "found") /\ db = [].
Proof.
  destruct (response_sections_by_truthiness world_down
              (apply_update (turn (L "hello"))
                 (apply_update (rag_dict (L "found")) (sql_dict [])))
              [] (HumanMessage (L "hello")) eq_refl)
    as [doc [db [Hlog [_ [Hdoc [_ [_ [_ Hdb]]]]]]]].
  exists doc, db. split; [exact Hlog |]. split.
  - apply Hdoc. split; [reflexivity | discriminate].
  - apply Hdb. right. right. reflexivity.
Defined.

(* ================================================================== *)
(** * Further properties of the workflow *)
(* ================================================================== *)

(** X1. Every run of the compiled graph on an input with a last message
    takes the same path: the router falls back without calling its model,
    its edge leads to the response node, and the run ends there.  One call
    is made, the final model call, with the question of the last message
    and, unless the input itself brought a context, an empty one; the
    vector store and the SQL agent are never reached.  When the call
    answers, the run returns the input's keys with the intent [OFFTOPIC],
    empty filters, the answer, and one assistant message appended; when it
    raises, the run raises the same exception. *)
Theorem invoke_answers_without_context (w : World) (inputs : AgentState)
    (ms : list BaseMessage) (m : BaseMessage) :
  messages inputs = Some (ms ++ [m]) ->
  let context :=
    full_context (get (rag_context inputs) (Some []))
                 (get (sql_result inputs) (Some [])) in
  let question := prompt_around context (content m) in
  log_of (invoke build_graph w inputs)
  = [EvChat response_system_prompt question]
  /\ (rag_context inputs = None -> sql_result inputs = None ->
      question
      = L "Context:" ++ nl ++ nl ++ nl ++ L "Question: " ++ content m)
  /\ (forall answer,
      chat w response_system_prompt question = Ok answer ->
      outcome (invoke build_graph w inputs)
      = Ok {| messages := Some ((ms ++ [m]) ++ [AIMessage answer]);
              clarification_needed := clarification_needed inputs;
              sql_query := sql_query inputs;
              rag_context := rag_context inputs;
              sql_result := sql_result inputs;
              intent := Some (Some (L "OFFTOPIC"));
              filters := Some (Some []);
              final_answer := Some (Some answer) |})
  /\ (forall e,
      chat w response_system_prompt question = Raise e ->
      outcome (invoke build_graph w inputs) = Raise e).
Proof.
  intros Hm context question.
  rewrite (invoke_with_message w inputs ms m Hm).
  assert (Hj : messages (after_router inputs) = Some (ms ++ [m])).
  { unfold after_router, apply_update.
    cbn [messages channels_at_start router_dict add_messages get].
    rewrite Hm. reflexivity. }
  rewrite (response_node_unfold w (after_router inputs) ms m Hj).
  assert (Hrag : get (rag_context (after_router inputs)) (Some [])
                 = get (rag_context inputs) (Some [])).
  { unfold after_router, apply_update.
    cbn [rag_context channels_at_start router_dict last_value].
    destruct (rag_context inputs); reflexivity. }
  assert (Hsql : get (sql_result (after_router inputs)) (Some [])
                 = get (sql_result inputs) (Some [])).
  { unfold after_router, apply_update.
    cbn [sql_result channels_at_start router_dict last_value].
    destruct (sql_result inputs); reflexivity. }
  rewrite Hrag, Hsql. fold context.
  change (input_text context (content m)) with question.
  unfold response_chain, call.
  split; [| split; [| split]].
  - destruct (chat w response_system_prompt question); reflexivity.
  - intros Hr Hs. unfold question, context. rewrite Hr, Hs. reflexivity.
  - intros answer ->. cbn [bind ret outcome snd app].
    unfold after_router, apply_update.
    cbn [messages clarification_needed sql_query rag_context sql_result
         intent filters final_answer channels_at_start router_dict
         response_dict add_messages last_value get].
    rewrite Hm.
    destruct (clarification_needed inputs), (sql_query inputs),
      (rag_context inputs), (sql_result inputs), (intent inputs),
      (filters inputs), (final_answer inputs); reflexivity.
  - intros e ->. reflexivity.
Qed.

(** A question about sales and policy in a world where everything answers
    and the router's model would say BOTH: it is answered off topic. *)
Lemma invoke_answers_without_context_witness :
  invoke build_graph (world_up (Ok both_decision))
    (turn (L "sales and policy"))
  = ([EvChat response_system_prompt
        (L "Context:" ++ nl ++ nl ++ nl ++ L "Question: sales and policy")],
     Ok {| messages :=
             Some [HumanMessage (L "sales and policy");
                   AIMessage (L "Here is what I found.")];
           clarification_needed := None;
           sql_query := None;
           rag_context := None;
           sql_result := None;
           intent := Some (Some (L "OFFTOPIC"));
           filters := Some (Some []);
           final_answer := Some (Some (L "Here is what I found.")) |}).
Proof.
  pose proof (invoke_answers_without_context (world_up (Ok both_decision))
                (turn (L "sales and policy")) []
                (HumanMessage (L "sales and policy")) eq_refl) as H.
  cbv zeta in H. destruct H as [Hlog [_ [Hok _]]].
  specialize (Hok (L "Here is what I found.") eq_refl).
  rewrite (surjective_pairing
             (invoke build_graph (world_up (Ok both_decision))
                (turn (L "sales and policy")))).
  unfold log_of in Hlog. unfold outcome in Hok. rewrite Hlog, Hok.
  reflexivity.
Defined.

(** X2. One chat turn of ui.py: the user's message is always appended to the
    history; when the run of the graph raises, an error is shown and no
    assistant message is appended; when it returns, exactly one assistant
    message with the final answer is appended.  The turn itself never
    raises. *)
Theorem on_prompt_history (w : World) (history : list chat_message)
    (prompt : str) :
  let user := {| role := L "user"; shown := prompt |} in
  (forall e,
      outcome (invoke build_graph w (turn prompt)) = Raise e ->
      outcome (on_prompt w history prompt)
      = Ok (history ++ [user], Error (L "Error: " ++ exn_str e)))
  /\ (forall result,
      outcome (invoke build_graph w (turn prompt)) = Ok result ->
      let text :=
        format_opt_str
          (get (final_answer result) (Some (L "No response generated."))) in
      outcome (on_prompt w history prompt)
      = Ok ((history ++ [user]) ++ [{| role := L "assistant"; shown := text |}],
            Markdown text))
  /\ (exists shown, outcome (on_prompt w history prompt) = Ok shown).
Proof.
  intros user. unfold on_prompt. rewrite outcome_try_except, outcome_bind.
  change {| messages := Some [HumanMessage prompt];
            clarification_needed := None; sql_query := None;
            rag_context := None; sql_result := None; intent := None;
            filters := None; final_answer := None |} with (turn prompt).
  destruct (outcome (invoke build_graph w (turn prompt))) as [result|e].
  - split; [discriminate |]. split.
    + intros result' E. injection E as <-. reflexivity.
    + eexists. reflexivity.
  - split.
    + intros e' E. injection E as <-. reflexivity.
    + split; [discriminate |]. eexists. reflexivity.
Qed.

(** A turn in a world without a model: the error is shown, the history
    gains the user's message only. *)
Lemma on_prompt_history_witness :
  outcome (on_prompt world_down [] (L "hello"))
  = Ok ([{| role := L "user"; shown := L "hello" |}],
        Error (L "Error: model unreachable")).
Proof.
  apply (proj1 (on_prompt_history world_down [] (L "hello"))
           (unreachable (L "model unreachable"))).
  reflexivity.
Defined.



(** X4. [sql_db_query] hands a statement to [db.run] only if it is the
    query it was given and that query passed the safety checker. *)
Theorem sql_db_query_runs_only_readonly (w : World) (query ran : str) :
  In (EvRun ran) (log_of (sql_db_query w query)) ->
  ran = query /\ is_readonly_sql query = true.
Proof.
  unfold sql_db_query, get_db.
  destruct (is_readonly_sql query) eqn:Hq; simpl.
  - destruct (connect w) as [db|e]; simpl.
    + unfold try_except, call. destruct (run db query); simpl;
        intros [H | [H | []]]; try discriminate;
        injection H as <-; split; reflexivity.
    + intros [H | []]. discriminate.
  - intros [].
Qed.

(** The one statement run for a counting query. *)
Lemma sql_db_query_runs_only_readonly_witness :
  is_readonly_sql (L "SELECT COUNT(id) FROM sales") = true.
Proof.
  apply (sql_db_query_runs_only_readonly (world_up (Ok both_decision))
           (L "SELECT COUNT(id) FROM sales") (L "SELECT COUNT(id) FROM sales")).
  right. left. reflexivity.
Defined.

(** X5. The assertions of tests/test_safety.py hold. *)
Theorem test_safety_assertions :
  is_readonly_sql (L "SELECT * FROM users") = true
  /\ is_readonly_sql (L "select count(" ++ L "*) from table") = true
  /\ is_readonly_sql (L "SELECT * FROM updates") = true
  /\ is_readonly_sql (L "DROP TABLE users") = false
  /\ is_readonly_sql (L "DELETE FROM users") = false
  /\ is_readonly_sql (L "TRUNCATE TABLE x") = false
  /\ is_readonly_sql (L "INSERT INTO users VALUES (1)") = false
  /\ is_readonly_sql (L "UPDATE users SET x=1") = false
  /\ is_readonly_sql (L "GRANT ALL TO user") = false
  /\ is_readonly_sql (L "SELECT *; DROP TABLE users") = false
  /\ is_readonly_sql (L "SELECT *; DELETE FROM users") = false.
Proof. repeat split; reflexivity. Qed.

(** X6. The statement built by the column value checker ends in a string
    literal that denotes exactly [%term%]: whatever quotes the search term
    holds, it cannot close the literal early. *)
Theorem search_term_stays_in_literal (table column search_term : str) :
  value_query table column search_term
  = (L "SELECT DISTINCT TOP 10 " ++ column ++ L " FROM " ++ table
       ++ L " WHERE " ++ column ++ L " LIKE '")
    ++ (L "%" ++ double_quotes search_term ++ L "%'")
  /\ read_literal_body (L "%" ++ double_quotes search_term ++ L "%'")
     = Some (L "%" ++ search_term ++ L "%", []).
Proof.
  split.
  - unfold value_query. cbv zeta.
    change (L "'") with ["'"%char]. rewrite replace_char.
    rewrite <- !app_assoc. reflexivity.
  - assert (Hbody : forall term tail body rest,
               read_literal_body tail = Some (body, rest) ->
               read_literal_body (double_quotes term ++ tail)
               = Some (term ++ body, rest)).
    { induction term as [|c term IH]; intros tail body rest H; [exact H |].
      unfold double_quotes. cbn [flat_map]. fold (double_quotes term).
      destruct (ascii_eqb "'" c) eqn:E.
      - apply ascii_eqb_eq in E. subst c.
        change ((L "''" ++ double_quotes term) ++ tail)
          with ("'"%char :: "'"%char :: (double_quotes term ++ tail)).
        cbn [read_literal_body]. rewrite ascii_eqb_refl.
        rewrite (IH tail body rest H). reflexivity.
      - change (([c] ++ double_quotes term) ++ tail)
          with (c :: (double_quotes term ++ tail)).
        cbn [read_literal_body].
        assert (E' : ascii_eqb c "'" = false).
        { destruct (ascii_eqb c "'") eqn:E'; [| reflexivity].
          apply ascii_eqb_eq in E'. subst c.
          rewrite ascii_eqb_refl in E. discriminate. }
        rewrite E', (IH tail body rest H). reflexivity. }
    change (L "%" ++ double_quotes search_term ++ L "%'")
      with ("%"%char :: (double_quotes search_term ++ L "%'")).
    cbn [read_literal_body].
    change (ascii_eqb "%" "'") with false. cbv iota.
    rewrite (Hbody search_term (L "%'") (L "%") []); reflexivity.
Qed.

(* ================================================================== *)
(** * Facts about splitting, trimming and dictionaries *)
(* ================================================================== *)

Module PyMoreFacts.
Import Py Effects PyMore MoreSpec PyFacts.

Lemma split_char_not_nil (sep : ascii) (s : str) : split_char sep s <> [].
Proof.
  induction s as [|c t IH]; simpl; [discriminate |].
  destruct (ascii_eqb c sep); [discriminate |].
  destruct (split_char sep t); [contradiction | discriminate].
Qed.

Lemma split_char_plain (sep : ascii) (p : str) :
  ~ In sep p -> split_char sep p = [p].
Proof.
  induction p as [|c p IH]; intros H; simpl; [reflexivity |].
  destruct (ascii_eqb c sep) eqn:E.
  - apply ascii_eqb_eq in E. subst c. exfalso. apply H. left. reflexivity.
  - rewrite IH; [reflexivity |]. intros Hin. apply H. right. exact Hin.
Qed.

Lemma split_char_app (sep : ascii) (p rest : str) :
  ~ In sep p ->
  split_char sep (p ++ sep :: rest) = p :: split_char sep rest.
Proof.
  induction p as [|c p IH]; intros H; simpl.
  - rewrite ascii_eqb_refl. reflexivity.
  - destruct (ascii_eqb c sep) eqn:E.
    + apply ascii_eqb_eq in E. subst c. exfalso. apply H. left. reflexivity.
    + rewrite IH; [reflexivity |]. intros Hin. apply H. right. exact Hin.
Qed.

Lemma strip_space_cons (c : ascii) (s : str) :
  isspace c = true -> strip (c :: s) = strip s.
Proof. intros H. unfold strip. simpl. rewrite H. reflexivity. Qed.

(** What [strip] returns has no whitespace at either end. *)
Lemma strip_trimmed (s : str) : trimmed (strip s).
Proof.
  unfold trimmed, strip. split.
  - intros c t H.
    destruct (lstrip s) as [|d u] eqn:El; [discriminate |].
    pose proof (@lstrip_head s _ _ El) as Hd.
    simpl in H. destruct (rstrip u) as [|e u'] eqn:Er.
    + rewrite Hd in H. injection H as <- _. exact Hd.
    + injection H as <- _. exact Hd.
  - intros p c H. exact (@rstrip_last _ _ _ H).
Qed.

Lemma dict_lookup_set_same (A : Type) (k : str) (v : A) (d : list (str * A)) :
  dict_lookup k (dict_set k v d) = Some v.
Proof.
  induction d as [|[k' v'] d IH]; simpl.
  - rewrite str_eqb_refl. reflexivity.
  - destruct (str_eqb k k') eqn:E; simpl.
    + rewrite str_eqb_refl. reflexivity.
    + rewrite E. exact IH.
Qed.

Lemma dict_lookup_set_other (A : Type) (k k0 : str) (v : A)
    (d : list (str * A)) :
  k0 <> k -> dict_lookup k0 (dict_set k v d) = dict_lookup k0 d.
Proof.
  intros Hne. induction d as [|[k' v'] d IH]; simpl.
  - destruct (str_eqb k0 k) eqn:E; [| reflexivity].
    apply str_eqb_eq in E. contradiction.
  - destruct (str_eqb k k') eqn:E; simpl.
    + apply str_eqb_eq in E. subst k'.
      destruct (str_eqb k0 k) eqn:E0; [| reflexivity].
      apply str_eqb_eq in E0. contradiction.
    + rewrite IH. reflexivity.
Qed.

Lemma dict_keys_set (A : Type) (k : str) (v : A) (d : list (str * A)) :
  dict_keys (dict_set k v d)
  = if str_in k (dict_keys d) then dict_keys d else dict_keys d ++ [k].
Proof.
  unfold dict_keys, str_in. induction d as [|[k' v'] d IH]; simpl; [reflexivity |].
  destruct (str_eqb k k') eqn:E; simpl.
  - apply str_eqb_eq in E. subst k'. reflexivity.
  - rewrite IH. destruct (existsb (str_eqb k) (map fst d)); reflexivity.
Qed.

Lemma dict_set_unique (k : str) (v : pyval) (d : dict) :
  unique_keys d -> unique_keys (dict_set k v d).
Proof.
  unfold unique_keys. intros H. rewrite dict_keys_set.
  destruct (str_in k (dict_keys d)) eqn:E; [exact H |].
  assert (Hk : ~ In k (dict_keys d)).
  { intros Hin. apply str_in_In in Hin. rewrite Hin in E. discriminate. }
  clear E. induction (dict_keys d) as [|x xs IH]; simpl.
  - constructor; [intros [] | constructor].
  - inversion H as [|? ? Hx Hxs]; subst. constructor.
    + intros Hin. apply in_app_or in Hin. destruct Hin as [Hin | [Hin | []]].
      * contradiction.
      * subst x. apply Hk. left. reflexivity.
    + apply IH; [exact Hxs |]. intros Hin. apply Hk. right. exact Hin.
Qed.

Lemma dict_lookup_keys (A : Type) (k : str) (d : list (str * A)) :
  In k (dict_keys d) <-> exists v, dict_lookup k d = Some v.
Proof.
  unfold dict_keys. induction d as [|[k' v'] d IH]; simpl.
  - split; [intros [] | intros [v H]; discriminate].
  - destruct (str_eqb k k') eqn:E.
    + apply str_eqb_eq in E. subst k'. split; [| intros _; left; reflexivity].
      intros _. exists v'. reflexivity.
    + rewrite <- IH. split.
      * intros [H | H]; [| exact H]. subst k'.
        rewrite str_eqb_refl in E. discriminate.
      * intros H. right. exact H.
Qed.

End PyMoreFacts.

(* ================================================================== *)
(** * Facts about the schema tool's parser *)
(* ================================================================== *)

Module SchemaFacts.
Import Py Effects SqlTools PyMore IO SqlMoreTools MoreSpec PyFacts PyMoreFacts.

(** Every character of a piece is a character of the string, and none is
    the separator. *)
Lemma split_char_chars (sep : ascii) (s p : str) (c : ascii) :
  In p (split_char sep s) -> In c p -> In c s /\ c <> sep.
Proof.
  revert p. induction s as [|d t IH]; intros p Hp Hc; simpl in Hp.
  - destruct Hp as [<- | []]. destruct Hc.
  - destruct (ascii_eqb d sep) eqn:E.
    + destruct Hp as [<- | Hp]; [destruct Hc |].
      destruct (IH p Hp Hc) as [H1 H2]. split; [right; exact H1 | exact H2].
    + destruct (split_char sep t) as [|q qs] eqn:Es.
      * destruct Hp as [<- | []]. destruct Hc as [<- | []].
        split; [left; reflexivity |]. intros ->.
        rewrite ascii_eqb_refl in E. discriminate.
      * destruct Hp as [<- | Hp].
        -- destruct Hc as [<- | Hc].
           ++ split; [left; reflexivity |]. intros ->.
              rewrite ascii_eqb_refl in E. discriminate.
           ++ destruct (IH q (or_introl eq_refl) Hc) as [H1 H2].
              split; [right; exact H1 | exact H2].
        -- destruct (IH p (or_intror Hp) Hc) as [H1 H2].
           split; [right; exact H1 | exact H2].
Qed.

Lemma lstrip_chars (s : str) (c : ascii) : In c (lstrip s) -> In c s.
Proof.
  induction s as [|d t IH]; simpl; [tauto |].
  destruct (isspace d); [intros H; right; exact (IH H) | tauto].
Qed.

Lemma rstrip_chars (s : str) (c : ascii) : In c (rstrip s) -> In c s.
Proof.
  destruct (rstrip_split s) as [ws [E _]]. intros H. rewrite E.
  apply in_or_app. left. exact H.
Qed.

Lemma strip_chars (s : str) (c : ascii) : In c (strip s) -> In c s.
Proof. unfold strip. intros H. apply lstrip_chars, rstrip_chars, H. Qed.

Lemma lstrip_all_space (s : str) : all_space s -> lstrip s = [].
Proof.
  intros H. induction H as [|c s Hc _ IH]; simpl; [reflexivity |].
  rewrite Hc. exact IH.
Qed.

(** The names handed to the database are never empty, have no blank at
    either end and hold no comma. *)
Lemma parse_table_names_clean (table_names t : str) :
  In t (parse_table_names table_names) ->
  t <> [] /\ trimmed t /\ ~ In ","%char t.
Proof.
  unfold parse_table_names. intros H.
  apply in_map_iff in H. destruct H as [p [<- Hp]].
  apply filter_In in Hp. destruct Hp as [Hp Ht].
  split; [| split].
  - destruct (strip p); [discriminate | discriminate].
  - apply strip_trimmed.
  - intros Hc. apply strip_chars in Hc.
    destruct (split_char_chars _ _ _ _ Hp Hc) as [_ Hne]. contradiction.
Qed.

Lemma parse_table_names_blank (table_names : str) :
  (forall c, In c table_names -> isspace c = true \/ c = ","%char) ->
  parse_table_names table_names = [].
Proof.
  intros H. unfold parse_table_names.
  assert (Hnone : forall p, In p (split_char "," table_names) ->
                            truthy_str (strip p) = false).
  { intros p Hp. unfold strip. rewrite lstrip_all_space; [reflexivity |].
    apply Forall_forall. intros c Hc.
    destruct (split_char_chars _ _ _ _ Hp Hc) as [Hin Hne].
    destruct (H c Hin) as [Hs | Hs]; [exact Hs | contradiction]. }
  induction (split_char "," table_names) as [|p ps IH]; simpl; [reflexivity |].
  rewrite (Hnone p (or_introl eq_refl)). apply IH.
  intros q Hq. apply Hnone. right. exact Hq.
Qed.

(** The names of [", ".join(tables)] are the tables again. *)
Lemma parse_join (tables : list str) :
  Forall clean_name tables ->
  parse_table_names (join (L ", ") tables) = tables.
Proof.
  unfold parse_table_names.
  induction tables as [|t rest IH]; intros H; [reflexivity |].
  inversion H as [|? ? [Hne [Hstrip Hcomma]] Hrest]; subst.
  assert (Ht : truthy_str (strip t) = true).
  { rewrite Hstrip. destruct t; [contradiction | reflexivity]. }
  destruct rest as [|t2 rest].
  - cbn [join]. rewrite (split_char_plain _ _ Hcomma). cbn [filter].
    rewrite Ht. cbn [map]. rewrite Hstrip. reflexivity.
  - change (join (L ", ") (t :: t2 :: rest))
      with (t ++ ","%char :: " "%char :: join (L ", ") (t2 :: rest)).
    rewrite (split_char_app _ _ _ Hcomma).
    specialize (IH Hrest).
    cbn [split_char]. change (ascii_eqb " " ",") with false. cbv iota.
    destruct (split_char "," (join (L ", ") (t2 :: rest))) as [|p ps] eqn:Es.
    + exfalso. exact (split_char_not_nil _ _ Es).
    + cbn [filter]. rewrite Ht. cbn [map]. rewrite Hstrip. f_equal.
      cbn [filter] in IH.
      rewrite (strip_space_cons " " p eq_refl).
      destruct (truthy_str (strip p)); cbn [map] in *;
        rewrite ?(strip_space_cons " " p eq_refl); exact IH.
Qed.

End SchemaFacts.

(* ================================================================== *)
(** * Facts about the computations of the tools and scripts *)
(* ================================================================== *)

Module IOFacts.
Import Py Effects IO.

Lemma io_bind_ok (A B : Type) (log : list action) (a : A) (k : A -> IO B) :
  io_bind (log, Ok a) k = (log ++ io_log (k a), io_outcome (k a)).
Proof. unfold io_bind, io_log, io_outcome. destruct (k a). reflexivity. Qed.

Lemma io_bind_call_ok (A B : Type) (act : action) (a : A) (k : A -> IO B) :
  io_bind (io_call act (Ok a)) k = (act :: io_log (k a), io_outcome (k a)).
Proof. unfold io_call. rewrite io_bind_ok. reflexivity. Qed.

Lemma io_bind_print (B : Type) (line : str) (k : unit -> IO B) :
  io_bind (print line) k
  = (ActPrint line :: io_log (k tt), io_outcome (k tt)).
Proof. unfold print. apply io_bind_call_ok. Qed.

Lemma io_bind_lift_ok (A B : Type) (log : list event) (a : A)
    (k : A -> IO B) :
  io_bind (lift (log, Ok a)) k
  = (map Old log ++ io_log (k a), io_outcome (k a)).
Proof. unfold lift. simpl fst. simpl snd. apply io_bind_ok. Qed.

Lemma io_pair (A : Type) (m : IO A) : m = (io_log m, io_outcome m).
Proof. destruct m. reflexivity. Qed.

End IOFacts.

(* ================================================================== *)
(** * Further properties of the tools, the nodes and the scripts *)
(* ================================================================== *)

Import PyMore IO SqlMoreTools Ingest UiPanels MoreSpec MoreScenarios.
Import PyMoreFacts SchemaFacts IOFacts.

(** X7. The two discovery tools compose: when the database reports table
    names that are not empty and hold no comma and no blank at either end,
    the text returned by [sql_db_list_tables], given to [sql_db_schema],
    is parsed back into exactly those names, in order, and these are the
    tables the database is asked to describe. *)
Theorem listed_tables_parse_back (w : World) (o : Outside)
    (db : SQLDatabase) (tables : list str) :
  connect w = Ok db ->
  get_table_names db = Ok tables ->
  Forall clean_name tables ->
  exists listing,
    sql_db_list_tables w = ([EvGetDb; EvGetTableNames], Ok listing)
    /\ parse_table_names listing = tables
    /\ io_log (sql_db_schema w o listing) = [Old EvGetDb; ActTableInfo tables].
Proof.
  intros Hdb Htables Hclean. exists (join (L ", ") tables).
  split; [| split].
  - unfold sql_db_list_tables, get_db.
    rewrite Hdb, bind_call_ok, Htables, bind_call_ok. reflexivity.
  - apply parse_join. exact Hclean.
  - unfold sql_db_schema, get_db, call. rewrite Hdb, io_bind_lift_ok.
    cbv zeta. rewrite (parse_join tables Hclean).
    unfold io_try, io_call, io_bind, io_ret.
    destruct (get_table_info o db tables); reflexivity.
Qed.

(** The listing of the two tables of the example database, read back. *)
Lemma listed_tables_parse_back_witness :
  exists listing,
    sql_db_list_tables (world_up (Ok both_decision))
    = ([EvGetDb; EvGetTableNames], Ok listing)
    /\ parse_table_names listing = [L "sales"; L "users"]
    /\ io_log (sql_db_schema (world_up (Ok both_decision)) office listing)
       = [Old EvGetDb; ActTableInfo [L "sales"; L "users"]].
Proof.
  apply (listed_tables_parse_back (world_up (Ok both_decision)) office
           sales_db [L "sales"; L "users"] eq_refl eq_refl).
  repeat constructor; try discriminate;
    intros H; repeat (destruct H as [H | H]; [discriminate |]); exact H.
Defined.

(** X8. [sql_db_schema]: whatever text it is given, the names it hands to
    the database are not empty, have no blank at either end and hold no
    comma; a text of commas and blanks only gives no name at all.  Once
    [get_db()] has returned, the tool makes one call and returns a text even
    when the database raises: the description, or
    [Error getting schema for <names>: <message>].  An exception of
    [get_db()] itself is raised to the caller before anything is parsed. *)
Theorem sql_db_schema_contract (w : World) (o : Outside) (table_names : str) :
  (forall t, In t (parse_table_names table_names) ->
             t <> [] /\ trimmed t /\ ~ In ","%char t)
  /\ ((forall c, In c table_names -> isspace c = true \/ c = ","%char) ->
      parse_table_names table_names = [])
  /\ (forall db, connect w = Ok db ->
      let tables := parse_table_names table_names in
      io_log (sql_db_schema w o table_names)
      = [Old EvGetDb; ActTableInfo tables]
      /\ (forall info, get_table_info o db tables = Ok info ->
            io_outcome (sql_db_schema w o table_names) = Ok info)
      /\ (forall e, get_table_info o db tables = Raise e ->
            io_outcome (sql_db_schema w o table_names)
            = Ok (L "Error getting schema for "
                    ++ py_repr w (PList (map PStr tables))
                    ++ L ": " ++ exn_str e)))
  /\ (forall e, connect w = Raise e ->
      sql_db_schema w o table_names = ([Old EvGetDb], Raise e)).
Proof.
  split; [exact (parse_table_names_clean table_names) |].
  split; [exact (parse_table_names_blank table_names) |].
  split.
  - intros db Hdb tables.
    unfold sql_db_schema, get_db, call. rewrite Hdb, io_bind_lift_ok.
    cbv zeta. fold tables. unfold io_try, io_call, io_bind, io_ret.
    destruct (get_table_info o db tables) as [info|e].
    + split; [reflexivity |]. split.
      * intros info' E. injection E as <-. reflexivity.
      * discriminate.
    + split; [reflexivity |]. split.
      * discriminate.
      * intros e' E. injection E as <-. reflexivity.
  - intros e He. unfold sql_db_schema, get_db, call. rewrite He. reflexivity.
Qed.

(** The schema tool on a text with stray blanks and commas, for a table the
    example database knows and for one it does not. *)
Lemma sql_db_schema_contract_witness :
  sql_db_schema (world_up (Ok both_decision)) office (L " sales , ,")
  = ([Old EvGetDb; ActTableInfo [L "sales"]],
     Ok (L "CREATE TABLE sales (id INT, region VARCHAR(20))"))
  /\ io_outcome (sql_db_schema (world_up (Ok both_decision)) office (L "orders"))
     = Ok (L "Error getting schema for {...}: table_names not found in database").
Proof.
  pose proof (proj1 (proj2 (proj2
                (sql_db_schema_contract (world_up (Ok both_decision)) office
                   (L " sales , ,")))) sales_db eq_refl) as Hknown.
  pose proof (proj1 (proj2 (proj2
                (sql_db_schema_contract (world_up (Ok both_decision)) office
                   (L "orders")))) sales_db eq_refl) as Hunknown.
  cbv zeta in Hknown, Hunknown. split.
  - rewrite (io_pair _ (sql_db_schema _ _ _)).
    rewrite (proj1 Hknown), (proj1 (proj2 Hknown) _ eq_refl). reflexivity.
  - apply (proj2 (proj2 Hunknown) (Exn (L "ValueError")
             (L "table_names not found in database"))).
    reflexivity.
Defined.

(* ================================================================== *)
(** * Facts about removing the code fences *)
(* ================================================================== *)

Module FenceFacts.
Import Py Effects PyMore MoreSpec PyFacts PyMoreFacts.

Lemma fence_is_ticks : L "```" = [tick; tick; tick].
Proof. reflexivity. Qed.

Lemma no_prefix_few_ticks (s : str) :
  strip_prefix [tick; tick; tick] s = None -> leading tick s <= 2.
Proof.
  destruct s as [|a [|b [|c s]]]; simpl; try lia;
    destruct (ascii_eqb a tick) eqn:Ea; try lia;
    destruct (ascii_eqb b tick) eqn:Eb; try lia;
    destruct (ascii_eqb c tick) eqn:Ec; try lia.
  apply ascii_eqb_eq in Ea, Eb, Ec. subst.
  unfold tick. cbn. discriminate.
Qed.

Lemma occurs_cons (sub : str) (c : ascii) (s : str) :
  occurs_in sub (c :: s) ->
  (exists post, c :: s = sub ++ post) \/ occurs_in sub s.
Proof.
  intros [pre [post E]]. destruct pre as [|d pre]; simpl in E.
  - left. exists post. exact E.
  - right. injection E as _ ->. exists pre, post. reflexivity.
Qed.

Lemma leading_fence (post : str) :
  3 <= leading tick ([tick; tick; tick] ++ post).
Proof. cbn. lia. Qed.

(** After [replace(fence, "")] no fence is left: of a run of back-ticks the
    scan keeps fewer than three. *)
Lemma replace_fuel_no_fence (fuel : nat) (s : str) :
  length s < fuel ->
  let r := replace_fuel fuel [tick; tick; tick] [] s in
  ~ occurs_in [tick; tick; tick] r
  /\ leading tick r <= 2
  /\ (leading tick s <= 2 -> leading tick r = leading tick s).
Proof.
  revert s. induction fuel as [|fuel IH]; intros s Hlt; [lia |].
  cbn zeta. cbn [replace_fuel].
  destruct (strip_prefix [tick; tick; tick] s) as [rest|] eqn:E.
  - apply strip_prefix_Some in E. subst s.
    cbn [app]. cbn [app length] in Hlt.
    destruct (IH rest ltac:(lia)) as [H1 [H2 _]].
    split; [exact H1 |]. split; [exact H2 |].
    intros H. pose proof (leading_fence rest) as H3. cbn [app] in H3. lia.
  - pose proof (no_prefix_few_ticks s E) as Hfew.
    destruct s as [|c t]; [cbn; split; [| split; [lia | reflexivity]] |].
    + intros [pre [post H]]. destruct pre; discriminate.
    + cbn [length] in Hlt. destruct (IH t ltac:(lia)) as [H1 [H2 H3]].
      cbn [leading] in Hfew |- *.
      destruct (ascii_eqb c tick) eqn:Ec.
      * assert (Ht : leading tick t <= 2) by lia.
        specialize (H3 Ht).
        split; [| split; [lia | intros _; lia]].
        intros Hocc. apply occurs_cons in Hocc.
        destruct Hocc as [[post Hpost] | Hocc]; [| exact (H1 Hocc)].
        pose proof (leading_fence post) as Hl. rewrite <- Hpost in Hl.
        cbn [leading] in Hl. rewrite Ec in Hl. lia.
      * split; [| split; [lia | reflexivity]].
        intros Hocc. apply occurs_cons in Hocc.
        destruct Hocc as [[post Hpost] | Hocc]; [| exact (H1 Hocc)].
        cbn [app] in Hpost. injection Hpost as -> _.
        unfold tick in Ec. cbn in Ec. discriminate.
Qed.

Lemma replace_no_fence (s : str) :
  ~ occurs_in (L "```") (replace s (L "```") []).
Proof.
  rewrite fence_is_ticks. unfold replace.
  exact (proj1 (replace_fuel_no_fence (S (length s)) s (Nat.lt_succ_diag_r _))).
Qed.

(** A string without the first character of [old] is left alone. *)
Lemma replace_fuel_absent (fuel : nat) (c : ascii) (old new s : str) :
  ~ In c s -> replace_fuel fuel (c :: old) new s = s.
Proof.
  revert s. induction fuel as [|fuel IH]; intros s H; [reflexivity |].
  cbn [replace_fuel]. destruct s as [|d t]; [reflexivity |].
  cbn [strip_prefix]. destruct (ascii_eqb c d) eqn:E.
  - apply ascii_eqb_eq in E. subst d. exfalso. apply H. left. reflexivity.
  - rewrite IH; [reflexivity |]. intros Hin. apply H. right. exact Hin.
Qed.

(** What occurs in the trimmed string occurs in the string. *)
Lemma occurs_strip (sub s : str) : occurs_in sub (strip s) -> occurs_in sub s.
Proof.
  intros [pre [post E]]. unfold strip in E.
  destruct (lstrip_split s) as [wl [El _]].
  destruct (rstrip_split (lstrip s)) as [wr [Er _]].
  exists (wl ++ pre), (post ++ wr).
  rewrite El at 1. rewrite Er at 1. rewrite E.
  rewrite <- !app_assoc. reflexivity.
Qed.

End FenceFacts.

Import FenceFacts.

(** X9. [sql_db_query_checker] makes one model call.  Whatever the model
    answers, the text returned holds no Markdown fence of three back-ticks
    and no whitespace at either end; an answer without any back-tick is
    returned trimmed and otherwise unchanged.  The tool has no [try]: an
    exception of the model call is raised to the caller. *)
Theorem query_checker_output (w : World) (query : str) :
  let prompt := checker_prompt query dialect in
  (forall response, chat w [] prompt = Ok response ->
     exists out,
       sql_db_query_checker w query = ([EvChat [] prompt], Ok out)
       /\ ~ occurs_in (L "```") out
       /\ trimmed out
       /\ (~ In "`"%char response -> out = strip response))
  /\ (forall e, chat w [] prompt = Raise e ->
        sql_db_query_checker w query = ([EvChat [] prompt], Raise e)).
Proof.
  intros prompt. unfold sql_db_query_checker. fold prompt. split.
  - intros response H. rewrite H, bind_call_ok.
    exists (unfence response). split; [reflexivity |].
    unfold unfence. split; [| split].
    + intros Hocc. apply occurs_strip in Hocc.
      exact (replace_no_fence _ Hocc).
    + apply strip_trimmed.
    + intros Hno. unfold replace.
      change (L "```sql") with ("`"%char :: L "``sql").
      rewrite (replace_fuel_absent _ "`" _ _ response Hno).
      change (L "```") with ("`"%char :: L "``").
      rewrite (replace_fuel_absent _ "`" _ _ response Hno). reflexivity.
  - intros e H. rewrite H. reflexivity.
Qed.

(** The checker on an answer wrapped in a fence. *)
Lemma query_checker_output_witness :
  exists out,
    sql_db_query_checker world_fenced (L "SELECT COUNT(id) FROM sales")
    = ([EvChat [] (checker_prompt (L "SELECT COUNT(id) FROM sales") dialect)],
       Ok out)
    /\ ~ occurs_in (L "```") out
    /\ trimmed out.
Proof.
  destruct (proj1 (query_checker_output world_fenced
                     (L "SELECT COUNT(id) FROM sales"))
              fenced_answer eq_refl) as [out [H [Hfence [Htrim _]]]].
  exists out. split; [exact H |]. split; [exact Hfence | exact Htrim].
Defined.

(** X10. The keyword arguments built by [get_retriever]: [k] is the one
    given (4 when omitted); the [filter] key is absent exactly when the
    filter is [None] or empty, and when present it holds a non-empty
    dictionary, never [None] (the guard of [get_retriever] and the one of
    the conversion agree); the search type is [similarity] without a score
    threshold and [similarity_score_threshold], with the threshold among the
    arguments, with one.  The vector store is opened first, and its failure
    is raised to the caller. *)
Theorem get_retriever_kwargs (w : World) (k : option nat)
    (filter : Optional dict) (threshold : Optional str) :
  (forall r, outcome (get_retriever w k filter threshold) = Ok r ->
     kw_k r = match k with Some k => k | None => 4 end
     /\ (kw_filter r = None <-> filter = None \/ filter = Some [])
     /\ (forall f, kw_filter r = Some f ->
           exists d, f = PDict d /\ d <> []
                     /\ exists given, filter = Some given /\ given <> [])
     /\ (threshold = None ->
         search_type r = L "similarity" /\ kw_score_threshold r = None)
     /\ (forall t, threshold = Some t ->
         search_type r = L "similarity_score_threshold"
         /\ kw_score_threshold r = Some t))
  /\ (forall e, open_vectorstore w = Raise e ->
        get_retriever w k filter threshold = ([EvVectorStore], Raise e)).
Proof.
  split.
  - intros r H. unfold get_retriever, get_vectorstore in H.
    destruct (open_vectorstore w) as [[]|e]; [| discriminate].
    rewrite bind_call_ok in H. cbn [outcome snd] in H.
    assert (Hconv : forall d, d <> [] ->
               exists d', _convert_to_opensearch_filter d = PDict d'
                          /\ d' <> []).
    { intros d Hd. destruct d as [|item d]; [contradiction |].
      unfold _convert_to_opensearch_filter.
      destruct (looks_like_dsl (item :: d)).
      - exists (item :: d). split; [reflexivity | discriminate].
      - destruct (clauses (item :: d)) as [|c [|c' cs]];
          eexists; (split; [reflexivity | discriminate]). }
    destruct threshold as [t|]; cbn in H; injection H as <-; cbn.
    all: split; [reflexivity |].
    all: split;
      [ destruct filter as [[|item d]|]; cbn; split; intros H;
        try reflexivity; try discriminate; auto;
        destruct H as [H | H]; discriminate
      | ].
    all: split;
      [ intros f Hf; destruct filter as [[|item d]|]; cbn in Hf;
        try discriminate; injection Hf as <-;
        destruct (Hconv (item :: d)) as [d' [E Hne]]; [discriminate |];
        exists d'; split; [exact E |]; split; [exact Hne |];
        exists (item :: d); split; [reflexivity | discriminate]
      | ].
    + split; [discriminate |]. intros t' E. injection E as <-.
      split; reflexivity.
    + split; [intros _; split; reflexivity | discriminate].
  - intros e He. unfold get_retriever, get_vectorstore. rewrite He.
    reflexivity.
Qed.

(** A retriever for two results with a filter and a threshold. *)
Lemma get_retriever_kwargs_witness :
  exists d,
    outcome (get_retriever (world_up (Ok both_decision)) (Some 2)
               (Some [(L "year", PStr (L "2024"))]) (Some (L "0.8")))
    = Ok {| search_type := L "similarity_score_threshold"; kw_k := 2;
            kw_filter := Some (PDict d);
            kw_score_threshold := Some (L "0.8") |}
    /\ d <> [].
Proof.
  destruct (proj1 (get_retriever_kwargs (world_up (Ok both_decision)) (Some 2)
                     (Some [(L "year", PStr (L "2024"))]) (Some (L "0.8")))
              _ eq_refl) as [_ [_ [Hf _]]].
  destruct (Hf _ eq_refl) as [d [E [Hne _]]].
  exists d. split; [| exact Hne]. cbn. rewrite <- E. reflexivity.
Defined.

(* ================================================================== *)
(** * Facts about the retrieval and SQL nodes *)
(* ================================================================== *)

Module BranchFacts.
Import Py Effects Vector Rag State Nodes NodesSpec RunSpec.
Import PyFacts EffectsFacts NodeFacts GraphFacts.

Lemma retrieve_documents_unfold (w : World) (query : str) (k : option nat)
    (filters : Optional dict) :
  open_vectorstore w = Ok tt ->
  retrieve_documents w query k filters
  = ([EvVectorStore; EvSearch (retriever_for k filters) query],
     match similarity_search w (retriever_for k filters) query with
     | Ok [] => Ok no_documents
     | Ok (doc :: docs) =>
         Ok (join separator (map (format_doc w) (doc :: docs)))
     | Raise e => Raise e
     end).
Proof.
  intros Hvs. unfold retrieve_documents, get_retriever, get_vectorstore.
  cbv zeta. rewrite Hvs, bind_call_ok.
  assert (E : (if truthy_opt_dict filters
               then match filters with
                    | Some d => Some (_convert_to_opensearch_filter d)
                    | None => None
                    end
               else None)
              = kw_filter (retriever_for k filters)).
  { destruct filters as [[|item d]|]; reflexivity. }
  rewrite E. cbn [log_of outcome fst snd ret].
  fold (retriever_for k filters).
  change {| search_type := L "similarity";
            kw_k := match k with Some k0 => k0 | None => 4 end;
            kw_filter := kw_filter (retriever_for k filters);
            kw_score_threshold := None |} with (retriever_for k filters).
  unfold call, bind, ret.
  destruct (similarity_search w (retriever_for k filters) query)
    as [[|doc docs]|e]; reflexivity.
Qed.

(** A context returned by [retrieve_documents] is never the empty string. *)
Lemma retrieve_documents_not_empty (w : World) (query : str)
    (k : option nat) (filters : Optional dict) (context : str) :
  outcome (retrieve_documents w query k filters) = Ok context ->
  context <> [].
Proof.
  unfold retrieve_documents. cbv zeta. intros H.
  apply bind_outcome_ok in H. destruct H as [retriever [_ H]].
  apply bind_outcome_ok in H. destruct H as [docs [_ H]].
  destruct docs as [|doc docs]; cbn in H; injection H as <-.
  - discriminate.
  - destruct (map (format_doc w) docs); discriminate.
Qed.

Lemma rag_node_unfold (w : World) (s : AgentState) (ms : list BaseMessage)
    (m : BaseMessage) :
  messages s = Some (ms ++ [m]) ->
  rag_node w s
  = bind (retrieve_documents w (content m) None (get (filters s) (Some [])))
         (fun context => ret (rag_dict context)).
Proof.
  intros Hm. unfold rag_node. rewrite (@read_query _ s ms m _ Hm).
  reflexivity.
Qed.

Lemma rag_node_not_empty (w : World) (s u : AgentState) :
  outcome (rag_node w s) = Ok u ->
  exists context, u = rag_dict context /\ context <> [].
Proof.
  unfold rag_node. intros H.
  apply bind_outcome_ok in H. destruct H as [msgs [_ H]].
  apply bind_outcome_ok in H. destruct H as [query [_ H]].
  apply bind_outcome_ok in H. destruct H as [context [Hc H]].
  exists context. cbn in H. injection H as <-. split; [reflexivity |].
  eapply retrieve_documents_not_empty; exact Hc.
Qed.

Lemma sql_gen_node_unfold (w : World) (s : AgentState)
    (ms : list BaseMessage) (m : BaseMessage) :
  messages s = Some (ms ++ [m]) ->
  sql_gen_node w s
  = bind (agent_executor w
            (sql_system_prompt (filter_context w (get (filters s) (Some []))))
            (ms ++ [m]))
         (fun result =>
            bind (last_of result)
                 (fun last_message => ret (sql_dict (content last_message)))).
Proof.
  intros Hm. unfold sql_gen_node. rewrite (@read_query _ s ms m _ Hm).
  reflexivity.
Qed.

End BranchFacts.

Import RunSpec BranchFacts.

(** X11. The retrieval node, on a state with a last message and with the
    vector store open, makes one search: of type [similarity], for the text
    of the last message, with top-k 4, and with the state's filters
    converted (no filter when the state has none, [None] or an empty
    dictionary).  A failed search is raised to the caller.  A context the
    node returns is never empty: a search without result gives the text
    [No relevant documents found.], so the response prompt then still holds
    a [Document Context:] section. *)
Theorem rag_node_search_and_context (w : World) (s : AgentState) :
  (forall ms m,
     messages s = Some (ms ++ [m]) ->
     open_vectorstore w = Ok tt ->
     let retriever := retriever_for None (get (filters s) (Some [])) in
     log_of (rag_node w s) = [EvVectorStore; EvSearch retriever (content m)]
     /\ kw_k retriever = 4
     /\ (filters s = None \/ filters s = Some None \/ filters s = Some (Some [])
         -> kw_filter retriever = None)
     /\ (similarity_search w retriever (content m) = Ok [] ->
         outcome (rag_node w s) = Ok (rag_dict no_documents))
     /\ (forall e, similarity_search w retriever (content m) = Raise e ->
         outcome (rag_node w s) = Raise e))
  /\ (forall u, outcome (rag_node w s) = Ok u ->
      exists context,
        u = rag_dict context /\ context <> []
        /\ forall sql,
             full_context (get (rag_context (apply_update s u)) (Some [])) sql
             = doc_section context
               ++ (if truthy_opt_str sql
                   then db_section (format_opt_str sql) else [])).
Proof.
  split.
  - intros ms m Hm Hvs retriever.
    rewrite (rag_node_unfold w s ms m Hm).
    rewrite (retrieve_documents_unfold w (content m) None _ Hvs).
    fold retriever. split; [| split; [reflexivity | split; [| split]]].
    + unfold bind, ret.
      destruct (similarity_search w retriever (content m)) as [[|d ds]|e];
        reflexivity.
    + unfold retriever. intros [-> | [-> | ->]]; reflexivity.
    + intros ->. reflexivity.
    + intros e ->. reflexivity.
  - intros u H. destruct (rag_node_not_empty w s u H) as [context [-> Hne]].
    exists context. split; [reflexivity |]. split; [exact Hne |].
    intros sql. rewrite full_context_split. f_equal.
    cbn. destruct context; [contradiction | reflexivity].
Qed.

(** A search without result in a world whose store is empty. *)
Lemma rag_node_search_and_context_witness :
  outcome (rag_node world_fenced (turn (L "refund policy")))
  = Ok (rag_dict (L "No relevant documents found.")).
Proof.
  apply (proj1 (proj2 (proj2 (proj2
           (proj1 (rag_node_search_and_context world_fenced
                     (turn (L "refund policy")))
              [] (HumanMessage (L "refund policy")) eq_refl eq_refl))))).
  reflexivity.
Defined.

(** X12. The SQL node, on a state with a last message, calls the agent once,
    with the whole conversation.  Without filters (no key, [None] or an
    empty dictionary) the agent's instructions are one fixed text, in which
    the words [The user has specified] do not occur; with a non-empty
    dictionary the same text holds, before its last paragraph, the
    paragraph [CRITICAL: The user has specified the following
    context/filters. You MUST apply them:] followed by the printed
    dictionary.  The node returns the content of the last message of the
    agent's reply, raises [IndexError] when the reply is empty, and raises
    what the agent raises. *)
Theorem sql_gen_node_contract (w : World) (s : AgentState)
    (ms : list BaseMessage) (m : BaseMessage) :
  messages s = Some (ms ++ [m]) ->
  exists instructions,
    log_of (sql_gen_node w s) = [EvAgent instructions (ms ++ [m])]
    /\ (filters s = None \/ filters s = Some None
        \/ filters s = Some (Some []) ->
        instructions = instructions_before ++ instructions_after
        /\ occursb (L "The user has specified") instructions = false)
    /\ (forall item d, filters s = Some (Some (item :: d)) ->
        instructions
        = instructions_before
            ++ nl
            ++ L "    CRITICAL: The user has specified the following context/filters. You MUST apply them:"
            ++ nl ++ L "    " ++ py_repr w (PDict (item :: d))
            ++ instructions_after)
    /\ (forall reply final,
        react_agent w instructions (ms ++ [m]) = Ok (reply ++ [final]) ->
        outcome (sql_gen_node w s) = Ok (sql_dict (content final)))
    /\ (react_agent w instructions (ms ++ [m]) = Ok [] ->
        outcome (sql_gen_node w s)
        = Raise (Exn (L "IndexError") (L "list index out of range")))
    /\ (forall e, react_agent w instructions (ms ++ [m]) = Raise e ->
        outcome (sql_gen_node w s) = Raise e).
Proof.
  intros Hm.
  exists (sql_system_prompt (filter_context w (get (filters s) (Some [])))).
  set (instructions :=
         sql_system_prompt (filter_context w (get (filters s) (Some [])))).
  assert (Hshape : forall paragraph,
            sql_system_prompt paragraph
            = instructions_before ++ paragraph ++ instructions_after).
  { intros paragraph. reflexivity. }
  rewrite (sql_gen_node_unfold w s ms m Hm). fold instructions.
  unfold agent_executor.
  split; [| split; [| split; [| split; [| split]]]].
  - unfold call, bind.
    destruct (react_agent w instructions (ms ++ [m])) as [reply|e];
      [| reflexivity].
    destruct reply as [|x reply _] using rev_ind; [reflexivity |].
    rewrite last_of_snoc. reflexivity.
  - unfold instructions. intros [-> | [-> | ->]];
      (split; [apply (Hshape []) | vm_compute; reflexivity]).
  - unfold instructions. intros item d ->.
    rewrite Hshape. cbn [get filter_context truthy_opt_dict].
    rewrite <- !app_assoc. reflexivity.
  - intros reply final ->. rewrite bind_call_ok, last_of_snoc. reflexivity.
  - intros ->. reflexivity.
  - intros e ->. reflexivity.
Qed.

(** The SQL node on a state with a filter, in a world whose agent answers
    with one more message. *)
Lemma sql_gen_node_contract_witness :
  exists instructions,
    log_of (sql_gen_node (world_up (Ok both_decision))
              (apply_update (turn (L "how many sales?"))
                 (router_dict (L "SQL") [(L "year", PStr (L "2024"))])))
    = [EvAgent instructions [HumanMessage (L "how many sales?")]]
    /\ instructions
       = instructions_before
           ++ nl
           ++ L "    CRITICAL: The user has specified the following context/filters. You MUST apply them:"
           ++ nl ++ L "    {...}" ++ instructions_after.
Proof.
  destruct (sql_gen_node_contract (world_up (Ok both_decision))
              (apply_update (turn (L "how many sales?"))
                 (router_dict (L "SQL") [(L "year", PStr (L "2024"))]))
              [] (HumanMessage (L "how many sales?")) eq_refl)
    as [instructions [Hlog [_ [Hfilter _]]]].
  exists instructions. split; [exact Hlog |].
  exact (Hfilter (L "year", PStr (L "2024")) [] eq_refl).
Defined.

(* ================================================================== *)
(** * Facts about whole runs *)
(* ================================================================== *)

Module RunFacts.
Import Py Effects Vector Rag State Nodes NodesSpec Graph RunSpec Scenarios.
Import PyFacts EffectsFacts NodeFacts GraphFacts BranchFacts.

(** The last node writes the model's answer twice: as the final answer and
    as one more message. *)
Lemma finish_result (w : World) (joined result : AgentState)
    (ms : list BaseMessage) (m : BaseMessage) :
  messages joined = Some (ms ++ [m]) ->
  outcome (bind (response_node w joined)
             (fun answered => ret (apply_update joined answered)))
  = Ok result ->
  exists answer, result = apply_update joined (response_dict answer).
Proof.
  intros Hm H. apply bind_outcome_ok in H. destruct H as [r [Hr H]].
  injection H as <-.
  rewrite (response_node_outcome w joined ms m Hm) in Hr.
  destruct (chat w response_system_prompt _) as [answer|e];
    [| discriminate].
  injection Hr as <-. exists answer. reflexivity.
Qed.

Lemma after_router_messages (inputs : AgentState) (msgs : list BaseMessage) :
  messages inputs = Some msgs -> messages (after_router inputs) = Some msgs.
Proof.
  intros Hm. unfold after_router, apply_update.
  cbn [messages channels_at_start router_dict add_messages get].
  rewrite Hm. reflexivity.
Qed.


(** The state a run on one user message returns. *)
Lemma invoke_turn_result (w : World) (prompt : str) (result : AgentState) :
  outcome (invoke build_graph w (turn prompt)) = Ok result ->
  exists answer,
    result
    = {| messages := Some [HumanMessage prompt; AIMessage answer];
         clarification_needed := None; sql_query := None;
         rag_context := None; sql_result := None;
         intent := Some (Some (L "OFFTOPIC"));
         filters := Some (Some []);
         final_answer := Some (Some answer) |}.
Proof.
  intros H.
  rewrite (invoke_with_message w (turn prompt) [] (HumanMessage prompt)
             eq_refl) in H.
  destruct (finish_result w (after_router (turn prompt)) result []
              (HumanMessage prompt) eq_refl H) as [answer ->].
  exists answer. reflexivity.
Qed.

End RunFacts.

Import RunFacts.

(** X13. A run on an input without a message.  When the input holds other
    keys but no [messages] key, or an empty list under [messages], the
    channel holds the empty list, the router raises [IndexError] at
    [messages[-1]], and the run raises it before any call is made; no state
    is returned. *)
Theorem invoke_without_last_message (w : World) (inputs : AgentState) :
  (messages inputs = None /\ keys inputs <> [])
  \/ messages inputs = Some [] ->
  invoke build_graph w inputs
  = ([], Raise (Exn (L "IndexError") (L "list index out of range")))
  /\ router_node w (apply_update channels_at_start inputs)
     = ([], Raise (Exn (L "IndexError") (L "list index out of range")))
  /\ ~ (exists result, outcome (invoke build_graph w inputs) = Ok result).
Proof.
  intros H.
  assert (H' : messages inputs = None \/ messages inputs = Some []).
  { destruct H as [[H _] | H]; [left | right]; exact H. }
  rewrite (invoke_without_message w inputs H').
  split; [reflexivity |]. split.
  - assert (H0 : messages (apply_update channels_at_start inputs) = Some []).
    { unfold apply_update.
      cbn [messages channels_at_start add_messages get].
      destruct H' as [-> | ->]; reflexivity. }
    unfold router_node, state_messages. rewrite H0. reflexivity.
  - intros [result Hr]. discriminate.
Qed.

(** A run on an input that holds a filter and no message. *)
Lemma invoke_without_last_message_witness :
  invoke build_graph (world_up (Ok both_decision))
    {| messages := None; clarification_needed := None; sql_query := None;
       rag_context := None; sql_result := None; intent := None;
       filters := Some (Some [(L "year", PStr (L "2024"))]);
       final_answer := None |}
  = ([], Raise (Exn (L "IndexError") (L "list index out of range"))).
Proof.
  apply (proj1 (invoke_without_last_message (world_up (Ok both_decision))
                  {| messages := None; clarification_needed := None;
                     sql_query := None; rag_context := None;
                     sql_result := None; intent := None;
                     filters := Some (Some [(L "year", PStr (L "2024"))]);
                     final_answer := None |}
                  (or_introl (conj eq_refl
                     (fun E : [L "filters"] = [] =>
                        @nil_cons _ (L "filters") [] (eq_sym E)))))).
Defined.

(** X14. What a run never calls.  On every input, with or without a
    message, the log of a run of the graph holds at most one call, and that
    call is the final model call with the response node's system text: the
    router's model, the vector store, the SQL agent and the database are
    never called by a run of the graph. *)
Theorem invoke_calls_the_final_model_only (w : World) (inputs : AgentState) :
  length (log_of (invoke build_graph w inputs)) <= 1
  /\ (forall ev,
        In ev (log_of (invoke build_graph w inputs)) ->
        exists question, ev = EvChat response_system_prompt question)
  /\ (forall system input,
        ~ In (EvRouter system input) (log_of (invoke build_graph w inputs)))
  /\ ~ In EvVectorStore (log_of (invoke build_graph w inputs))
  /\ (forall retriever query,
        ~ In (EvSearch retriever query)
            (log_of (invoke build_graph w inputs)))
  /\ (forall system msgs,
        ~ In (EvAgent system msgs) (log_of (invoke build_graph w inputs)))
  /\ ~ In EvGetDb (log_of (invoke build_graph w inputs))
  /\ (forall query,
        ~ In (EvRun query) (log_of (invoke build_graph w inputs))).
Proof.
  assert (H : log_of (invoke build_graph w inputs) = []
              \/ exists question,
                   log_of (invoke build_graph w inputs)
                   = [EvChat response_system_prompt question]).
  { destruct (last_message_cases inputs) as [Hn | [Hn | [ms [m Hm]]]].
    - left. rewrite (invoke_without_message w inputs (or_introl Hn)).
      reflexivity.
    - left. rewrite (invoke_without_message w inputs (or_intror Hn)).
      reflexivity.
    - right. rewrite (invoke_with_message w inputs ms m Hm).
      rewrite (response_node_unfold w (after_router inputs) ms m
                 (after_router_messages inputs (ms ++ [m]) Hm)).
      unfold response_chain, call. eexists.
      destruct (chat w response_system_prompt _); reflexivity. }
  destruct H as [-> | [question ->]].
  - cbn [length In].
    split; [lia |].
    split; [intros ev [] |].
    split; [intros system input [] |].
    split; [intros [] |].
    split; [intros retriever query [] |].
    split; [intros system msgs [] |].
    split; [intros [] |].
    intros query [].
  - cbn [length In].
    split; [lia |].
    split; [intros ev [<- | []]; exists question; reflexivity |].
    split; [intros system input [E | []]; discriminate E |].
    split; [intros [E | []]; discriminate E |].
    split; [intros retriever query [E | []]; discriminate E |].
    split; [intros system msgs [E | []]; discriminate E |].
    split; [intros [E | []]; discriminate E |].
    intros query [E | []]. discriminate E.
Qed.



(* ================================================================== *)
(** * Facts about the panels and the ingestion *)
(* ================================================================== *)

Module PanelFacts.
Import Py Effects State PyMore UiPanels.

Lemma take_length (n : nat) (s : str) : length (take n s) <= n.
Proof. unfold take. apply firstn_le_length. Qed.

Lemma text_inj (a b : str) : Text a = Text b -> a = b.
Proof. intros H. injection H as H. exact H. Qed.

(** The three parts of the expander, by what the state holds. *)
Lemma expander_body_parts (result : AgentState) (wdg : widget) :
  In wdg (expander_body result) ->
  (truthy_opt_str (get (rag_context result) None) = true
   /\ (wdg = Markdown (L "**RAG Context Used**")
       \/ wdg = Text (take 500 (format_opt_str (get (rag_context result) None))
                        ++ L "...")))
  \/ (truthy_opt_str (get (sql_query result) None) = true
      /\ (wdg = Markdown (L "**SQL Query Generated**")
          \/ wdg = Code (format_opt_str (get (sql_query result) None))
                        (L "sql")))
  \/ (truthy_opt_str (get (sql_result result) None) = true
      /\ (wdg = Markdown (L "**SQL Result**")
          \/ wdg = Text (take 500
                           (format_opt_str (get (sql_result result) None))))).
Proof.
  unfold expander_body. intros H.
  apply in_app_or in H. destruct H as [H | H].
  { destruct (truthy_opt_str (get (rag_context result) None)); [| destruct H].
    left. split; [reflexivity |].
    destruct H as [<- | [<- | []]]; [left | right]; reflexivity. }
  apply in_app_or in H. destruct H as [H | H].
  { destruct (truthy_opt_str (get (sql_query result) None)); [| destruct H].
    right. left. split; [reflexivity |].
    destruct H as [<- | [<- | []]]; [left | right]; reflexivity. }
  destruct (truthy_opt_str (get (sql_result result) None)); [| destruct H].
  right. right. split; [reflexivity |].
  destruct H as [<- | [<- | []]]; [left | right]; reflexivity.
Qed.

(** A value that passes [if result.get(key):] is a non-empty string. *)
Lemma truthy_some (v : option (Optional str)) :
  truthy_opt_str (get v None) = true ->
  exists c, v = Some (Some c) /\ c <> [] /\ format_opt_str (get v None) = c.
Proof.
  destruct v as [[[|c r]|]|]; try discriminate. intros _.
  exists (c :: r). split; [reflexivity |]. split; [discriminate | reflexivity].
Qed.

Lemma code_inj (a b c d : str) : Code a b = Code c d -> a = c /\ b = d.
Proof. intros H. injection H as H1 H2. split; assumption. Qed.

End PanelFacts.

Import PanelFacts.

(** X17. The panels under an answer.  After a run of the graph on one user
    message that returned, the expander is titled
    [Agent Logic (Intent: OFFTOPIC)] and holds no panel.  For any state: a
    text panel is the first 500 characters of the state's non-empty
    [rag_context] followed by three dots (so at most 503 characters, dots
    included whether or not anything was cut), or the first 500 characters
    of its non-empty [sql_result]; both are drawn whenever the state holds
    them; and the code panel is the state's non-empty [sql_query], shown as
    [sql]. *)
Theorem panels_after_run (w : World) (prompt : str) (result : AgentState) :
  outcome (invoke build_graph w (turn prompt)) = Ok result ->
  (expander_title result = L "Agent Logic (Intent: OFFTOPIC)"
   /\ expander_body result = [])
  /\ (forall state body,
        In (UiPanels.Text body) (expander_body state) ->
        (exists context,
           rag_context state = Some (Some context) /\ context <> []
           /\ body = take 500 context ++ L "..."
           /\ length body <= 503)
        \/ (exists answer,
              sql_result state = Some (Some answer) /\ answer <> []
              /\ body = take 500 answer
              /\ length body <= 500))
  /\ (forall state context,
        rag_context state = Some (Some context) -> context <> [] ->
        In (UiPanels.Text (take 500 context ++ L "..."))
           (expander_body state))
  /\ (forall state answer,
        sql_result state = Some (Some answer) -> answer <> [] ->
        In (UiPanels.Text (take 500 answer)) (expander_body state))
  /\ (forall state body language,
        In (UiPanels.Code body language) (expander_body state) ->
        sql_query state = Some (Some body) /\ body <> []
        /\ language = L "sql").
Proof.
  intros H. destruct (invoke_turn_result w prompt result H) as [answer ->].
  split; [split; reflexivity |].
  split; [| split; [| split]].
  - intros state body Hin.
    destruct (expander_body_parts state _ Hin)
      as [[Ht [E | E]] | [[_ [E | E]] | [Ht [E | E]]]]; try discriminate.
    + left. destruct (truthy_some _ Ht) as [context [Hc [Hne Hf]]].
      exists context. split; [exact Hc |]. split; [exact Hne |].
      apply text_inj in E. subst body. rewrite Hf.
      split; [reflexivity |]. rewrite length_app.
      pose proof (take_length 500 context) as Hl.
      change (length (L "...")) with 3. lia.
    + right. destruct (truthy_some _ Ht) as [a [Hc [Hne Hf]]].
      exists a. split; [exact Hc |]. split; [exact Hne |].
      apply text_inj in E. subst body. rewrite Hf.
      split; [reflexivity | apply take_length].
  - intros state context Hc Hne. unfold expander_body. rewrite Hc.
    apply in_or_app. left.
    destruct context; [contradiction |]. right. left. reflexivity.
  - intros state a Hc Hne. unfold expander_body. rewrite Hc.
    apply in_or_app. right. apply in_or_app. right.
    destruct a; [contradiction |]. right. left. reflexivity.
  - intros state body language Hin.
    destruct (expander_body_parts state _ Hin)
      as [[_ [E | E]] | [[Ht [E | E]] | [_ [E | E]]]]; try discriminate.
    destruct (truthy_some _ Ht) as [q [Hq [Hne Hf]]].
    apply code_inj in E. destruct E as [-> ->]. rewrite Hf.
    split; [exact Hq |]. split; [exact Hne | reflexivity].
Qed.

(** The panels after a question about the data, in a world whose router
    model would say SQL. *)
Lemma panels_after_run_witness :
  let result :=
    {| messages :=
         Some [HumanMessage (L "how many sales?");
               AIMessage (L "Here is what I found.")];
       clarification_needed := None;
       sql_query := None;
       rag_context := None;
       sql_result := None;
       intent := Some (Some (L "OFFTOPIC"));
       filters := Some (Some []);
       final_answer := Some (Some (L "Here is what I found.")) |} in
  outcome (invoke build_graph world_no_db (turn (L "how many sales?")))
  = Ok result
  /\ expander_title result = L "Agent Logic (Intent: OFFTOPIC)"
  /\ expander_body result = [].
Proof.
  intros result. split; [reflexivity |].
  apply (proj1 (panels_after_run world_no_db (L "how many sales?") result
                  eq_refl)).
Defined.

Module IngestFacts.
Import Py Effects Vector Rag PyMore IO Ingest MoreSpec.
Import PyFacts PyMoreFacts IOFacts.

Lemma skipped_false (text_content : str) :
  skipped text_content = false <-> kept_text text_content.
Proof.
  unfold skipped, kept_text. rewrite orb_false_iff, negb_false_iff. split.
  - intros [Ht Hn]. split.
    + intros ->. discriminate.
    + intros E. apply str_eqb_eq in E. rewrite E in Hn. discriminate.
  - intros [Ht Hn]. split.
    + destruct text_content; [contradiction | reflexivity].
    + destruct (str_eqb (lower text_content) (L "nan")) eqn:E;
        [| reflexivity].
      apply str_eqb_eq in E. contradiction.
Qed.

(** The documents are the kept rows, in the order of the sheet. *)
Lemma prepare_documents_filter (file_path text_column : str) (df : DataFrame)
    (metadata_columns : Optional (list str)) (rows : list Row) :
  prepare_documents file_path text_column df metadata_columns rows
  = map (fun row =>
           {| page_content := cell row text_column;
              metadata := row_metadata file_path df row metadata_columns |})
        (filter (fun row => negb (skipped (cell row text_column))) rows).
Proof.
  induction rows as [|row rows IH]; simpl; [reflexivity |].
  destruct (skipped (cell row text_column)); simpl; rewrite IH; reflexivity.
Qed.

Lemma add_columns_lookup (df : DataFrame) (row : Row) (cols : list str)
    (metadata : dict) (k : str) :
  dict_lookup k (add_columns df row cols metadata)
  = if str_in k cols && str_in k (df_columns df)
    then Some (PStr (cell row k))
    else dict_lookup k metadata.
Proof.
  revert metadata. induction cols as [|col cols IH]; intros metadata;
    [reflexivity |].
  cbn [add_columns]. rewrite IH.
  change (str_in k (col :: cols)) with (str_eqb k col || str_in k cols).
  destruct (str_in k cols && str_in k (df_columns df)) eqn:E.
  - apply andb_true_iff in E. destruct E as [E1 E2].
    rewrite E1, E2, orb_true_r. reflexivity.
  - destruct (str_eqb k col) eqn:Ek.
    + apply str_eqb_eq in Ek. subst col. cbn [orb andb].
      destruct (str_in k (df_columns df)).
      * apply dict_lookup_set_same.
      * reflexivity.
    + cbn [orb]. rewrite E.
      destruct (str_in col (df_columns df)); [| reflexivity].
      apply dict_lookup_set_other. intros ->.
      rewrite str_eqb_refl in Ek. discriminate.
Qed.

Lemma add_columns_unique (df : DataFrame) (row : Row) (cols : list str)
    (metadata : dict) :
  unique_keys metadata -> unique_keys (add_columns df row cols metadata).
Proof.
  revert metadata. induction cols as [|col cols IH]; intros metadata H;
    [exact H |].
  cbn [add_columns]. apply IH.
  destruct (str_in col (df_columns df)); [| exact H].
  apply dict_set_unique. exact H.
Qed.

Lemma row_metadata_lookup (file_path : str) (df : DataFrame) (row : Row)
    (metadata_columns : Optional (list str)) (k : str) :
  dict_lookup k (row_metadata file_path df row metadata_columns)
  = if listed df metadata_columns k
    then Some (PStr (cell row k))
    else dict_lookup k
           [ (L "source", PStr (basename file_path));
             (L "row_index", PInt (row_label row)) ].
Proof.
  unfold row_metadata, listed.
  destruct metadata_columns as [[|col cols]|]; try reflexivity.
  apply add_columns_lookup.
Qed.

Lemma row_metadata_unique (file_path : str) (df : DataFrame) (row : Row)
    (metadata_columns : Optional (list str)) :
  unique_keys (row_metadata file_path df row metadata_columns).
Proof.
  assert (H : unique_keys
                [ (L "source", PStr (basename file_path));
                  (L "row_index", PInt (row_label row)) ]).
  { unfold unique_keys, dict_keys. cbn [map fst].
    constructor.
    - intros [E | []]. discriminate.
    - constructor; [intros [] | constructor]. }
  unfold row_metadata.
  destruct metadata_columns as [[|col cols]|]; try exact H.
  apply add_columns_unique. exact H.
Qed.

Lemma basename_no_slash (path : str) : ~ In "/"%char (basename path).
Proof.
  induction path as [|c t IH]; [intros [] |].
  cbn [basename].
  destruct (existsb (ascii_eqb "/"%char) t) eqn:E; [exact IH |].
  assert (Ht : ~ In "/"%char t).
  { intros Hin.
    assert (Hex : existsb (ascii_eqb "/"%char) t = true).
    { apply existsb_exists. exists "/"%char.
      split; [exact Hin | apply ascii_eqb_refl]. }
    rewrite Hex in E. discriminate. }
  destruct (ascii_eqb c "/"%char) eqn:Ec; [exact Ht |].
  intros [H | H]; [| exact (Ht H)].
  subst c. rewrite ascii_eqb_refl in Ec. discriminate.
Qed.

Lemma existsb_slash (s : str) :
  existsb (ascii_eqb "/"%char) s = true <-> In "/"%char s.
Proof.
  rewrite existsb_exists. split.
  - intros [x [Hin E]]. apply ascii_eqb_eq in E. subst x. exact Hin.
  - intros H. exists "/"%char. split; [exact H | apply ascii_eqb_refl].
Qed.

Lemma basename_plain (name : str) :
  ~ In "/"%char name -> basename name = name.
Proof.
  destruct name as [|c t]; [reflexivity |]. intros H. cbn [basename].
  destruct (existsb (ascii_eqb "/"%char) t) eqn:E.
  - apply existsb_slash in E. exfalso. apply H. right. exact E.
  - destruct (ascii_eqb c "/"%char) eqn:Ec; [| reflexivity].
    apply ascii_eqb_eq in Ec. subst c. exfalso. apply H. left. reflexivity.
Qed.

(** The file name is what follows the last slash. *)
Lemma basename_app (dir name : str) :
  ~ In "/"%char name -> basename (dir ++ "/"%char :: name) = name.
Proof.
  intros H. induction dir as [|c dir IH].
  - cbn [app basename].
    destruct (existsb (ascii_eqb "/"%char) name) eqn:E.
    + apply existsb_slash in E. contradiction.
    + rewrite ascii_eqb_refl. reflexivity.
  - cbn [app basename].
    assert (E : existsb (ascii_eqb "/"%char) (dir ++ "/"%char :: name) = true).
    { apply existsb_slash. apply in_or_app. right. left. reflexivity. }
    rewrite E. exact IH.
Qed.

(** The whole script, by what the outside answers. *)
Lemma ingest_excel_cases (w : World) (o : Outside)
    (file_path text_column : str) (metadata_columns : Optional (list str)) :
  let loading := ActPrint (L "Loading data from " ++ file_path ++ L "...") in
  ingest_excel w o file_path text_column metadata_columns
  = if negb (path_exists o file_path)
    then ([ActExists file_path],
          Raise (Exn (L "FileNotFoundError")
                     (L "File not found: " ++ file_path)))
    else
      match read_excel o file_path with
      | Raise e =>
          ([ActExists file_path; loading; ActReadExcel file_path], Raise e)
      | Ok df =>
          if negb (str_in text_column (df_columns df))
          then ([ActExists file_path; loading; ActReadExcel file_path],
                Raise
                  (Exn (L "ValueError")
                     (L "Column '" ++ text_column
                        ++ L "' not found in Excel file. Available columns: "
                        ++ py_repr w (PList (map PStr (df_columns df))))))
          else
            let documents :=
              prepare_documents file_path text_column df metadata_columns
                (df_rows df) in
            let prepared :=
              ActPrint (L "Prepared " ++ str_of_nat (length documents)
                          ++ L " documents. Adding to vector store...") in
            match open_vectorstore w with
            | Raise e =>
                ([ActExists file_path; loading; ActReadExcel file_path;
                  prepared; Old EvVectorStore], Raise e)
            | Ok _ =>
                match add_documents o documents with
                | Raise e =>
                    ([ActExists file_path; loading; ActReadExcel file_path;
                      prepared; Old EvVectorStore;
                      ActAddDocuments documents], Raise e)
                | Ok _ =>
                    ([ActExists file_path; loading; ActReadExcel file_path;
                      prepared; Old EvVectorStore;
                      ActAddDocuments documents;
                      ActPrint (L "Ingestion complete!")], Ok tt)
                end
            end
      end.
Proof.
  intros loading. unfold ingest_excel.
  rewrite io_bind_call_ok.
  destruct (negb (path_exists o file_path)); [reflexivity |].
  rewrite io_bind_print. fold loading.
  destruct (read_excel o file_path) as [df|e]; [| reflexivity].
  rewrite io_bind_call_ok.
  destruct (negb (str_in text_column (df_columns df))); [reflexivity |].
  cbv zeta. rewrite io_bind_print.
  unfold get_vectorstore, call.
  destruct (open_vectorstore w) as [[]|e]; [| reflexivity].
  rewrite io_bind_lift_ok.
  destruct (add_documents o _) as [[]|e]; reflexivity.
Qed.

End IngestFacts.

Import IngestFacts.

(** Splits a run of the script by what the outside answers. *)
Ltac ingest_cases w o file_path text_column :=
  rewrite ingest_excel_cases; cbv zeta;
  let Hp := fresh "Hp" in
  let Hr := fresh "Hr" in
  let Hc := fresh "Hc" in
  let Hv := fresh "Hv" in
  let Ha := fresh "Ha" in
  destruct (path_exists o file_path) eqn:Hp; cbn [negb];
  [ destruct (read_excel o file_path) as [?df|?e] eqn:Hr;
    [ destruct (str_in text_column (df_columns df)) eqn:Hc; cbn [negb];
      [ destruct (open_vectorstore w) as [[]|?e] eqn:Hv;
        [ destruct (add_documents o
                     (prepare_documents file_path text_column df _
                        (df_rows df))) as [[]|?e] eqn:Ha | ] | ] | ] | ].

(** Decides membership in a log that is written out. *)
Ltac in_written_log H :=
  cbn [io_log io_outcome fst snd In] in H;
  repeat (destruct H as [H | H]; [try discriminate H |]);
  try contradiction.

(** X18. When the ingestion script stops and when it adds.  A missing file
    raises [FileNotFoundError] after the one check of the path; a sheet
    without the text column raises [ValueError] before the vector store is
    opened.  Documents are handed to the store only when the file exists,
    the sheet was read, it has the text column and the store was opened, and
    they are then the documents prepared from the sheet.  The script ends
    well exactly when it printed [Ingestion complete!], and then the store
    accepted the documents. *)
Theorem ingest_excel_outcomes (w : World) (o : Outside)
    (file_path text_column : str) (metadata_columns : Optional (list str)) :
  let script := ingest_excel w o file_path text_column metadata_columns in
  (path_exists o file_path = false ->
   script = ([ActExists file_path],
             Raise (Exn (L "FileNotFoundError")
                        (L "File not found: " ++ file_path))))
  /\ (forall df,
      path_exists o file_path = true ->
      read_excel o file_path = Ok df ->
      ~ In text_column (df_columns df) ->
      io_outcome script
      = Raise (Exn (L "ValueError")
                 (L "Column '" ++ text_column
                    ++ L "' not found in Excel file. Available columns: "
                    ++ py_repr w (PList (map PStr (df_columns df)))))
      /\ ~ In (Old EvVectorStore) (io_log script))
  /\ (forall docs,
      In (ActAddDocuments docs) (io_log script) ->
      path_exists o file_path = true
      /\ open_vectorstore w = Ok tt
      /\ exists df,
           read_excel o file_path = Ok df
           /\ In text_column (df_columns df)
           /\ docs = prepare_documents file_path text_column df
                       metadata_columns (df_rows df))
  /\ (io_outcome script = Ok tt
      <-> In (ActPrint (L "Ingestion complete!")) (io_log script))
  /\ (io_outcome script = Ok tt ->
      exists docs,
        In (ActAddDocuments docs) (io_log script)
        /\ add_documents o docs = Ok tt).
Proof.
  intros script. unfold script.
  split; [| split; [| split; [| split]]].
  - intros Hp. rewrite ingest_excel_cases. cbv zeta. rewrite Hp. reflexivity.
  - intros df Hp Hr Hc. rewrite ingest_excel_cases. cbv zeta.
    rewrite Hp, Hr. cbn [negb].
    destruct (str_in text_column (df_columns df)) eqn:E.
    + apply str_in_In in E. contradiction.
    + cbn [negb]. split; [reflexivity |]. intros H. in_written_log H.
  - intros docs. ingest_cases w o file_path text_column; intros H;
      in_written_log H.
    + injection H as <-. split; [reflexivity |]. split; [reflexivity |].
      exists df. split; [reflexivity |]. split; [| reflexivity].
      apply str_in_In. exact Hc.
    + injection H as <-. split; [reflexivity |]. split; [reflexivity |].
      exists df. split; [reflexivity |]. split; [| reflexivity].
      apply str_in_In. exact Hc.
  - ingest_cases w o file_path text_column; cbn [io_outcome snd];
      (split; [intros H; try discriminate H | intros H; in_written_log H]).
    + cbn. do 6 right. left. reflexivity.
    + reflexivity.
  - ingest_cases w o file_path text_column; cbn [io_outcome snd]; intros H;
      try discriminate H.
    eexists. split; [| exact Ha]. cbn. do 5 right. left. reflexivity.
Qed.

(** The script on a path that does not exist. *)
Lemma ingest_excel_outcomes_witness :
  ingest_excel world_fenced office (L "data/missing.xlsx") (L "text") None
  = ([ActExists (L "data/missing.xlsx")],
     Raise (Exn (L "FileNotFoundError")
                (L "File not found: data/missing.xlsx"))).
Proof.
  apply (proj1 (ingest_excel_outcomes world_fenced office
                  (L "data/missing.xlsx") (L "text") None)).
  reflexivity.
Defined.

(** X19. Which rows become documents.  The documents prepared from a sheet
    are its rows, in order, without those whose text cell is empty or reads
    [nan] in any letter case: one document per kept row, with the cell as
    its text.  So no document has an empty or [nan] text, and there are at
    most as many documents as rows.  In a run that ends well, the number the
    script prints is the number of documents it hands to the store. *)
Theorem ingested_documents (w : World) (o : Outside)
    (file_path text_column : str) (metadata_columns : Optional (list str))
    (df : DataFrame) :
  let docs :=
    prepare_documents file_path text_column df metadata_columns (df_rows df) in
  map page_content docs
  = filter (fun body => negb (skipped body))
           (map (fun row => cell row text_column) (df_rows df))
  /\ (forall doc, In doc docs <->
        exists row,
          In row (df_rows df) /\ kept_text (cell row text_column)
          /\ doc = {| page_content := cell row text_column;
                      metadata :=
                        row_metadata file_path df row metadata_columns |})
  /\ Forall kept_text (map page_content docs)
  /\ length docs <= length (df_rows df)
  /\ (path_exists o file_path = true ->
      read_excel o file_path = Ok df ->
      In text_column (df_columns df) ->
      open_vectorstore w = Ok tt ->
      add_documents o docs = Ok tt ->
      ingest_excel w o file_path text_column metadata_columns
      = ([ ActExists file_path;
           ActPrint (L "Loading data from " ++ file_path ++ L "...");
           ActReadExcel file_path;
           ActPrint (L "Prepared " ++ str_of_nat (length docs)
                       ++ L " documents. Adding to vector store...");
           Old EvVectorStore;
           ActAddDocuments docs;
           ActPrint (L "Ingestion complete!") ], Ok tt)).
Proof.
  intros docs.
  assert (Hin : forall doc, In doc docs <->
            exists row,
              In row (df_rows df) /\ kept_text (cell row text_column)
              /\ doc = {| page_content := cell row text_column;
                          metadata :=
                            row_metadata file_path df row metadata_columns |}).
  { intros doc. unfold docs. rewrite prepare_documents_filter, in_map_iff.
    split.
    - intros [row [E Hrow]]. apply filter_In in Hrow.
      destruct Hrow as [Hrow Hk]. apply negb_true_iff in Hk.
      exists row. split; [exact Hrow |]. split; [| symmetry; exact E].
      apply skipped_false. exact Hk.
    - intros [row [Hrow [Hk E]]]. exists row. split; [symmetry; exact E |].
      apply filter_In. split; [exact Hrow |].
      apply negb_true_iff, skipped_false. exact Hk. }
  split; [| split; [exact Hin | split; [| split]]].
  - unfold docs. rewrite prepare_documents_filter, map_map. cbn [page_content].
    clear Hin docs. generalize (df_rows df). intros rows.
    induction rows as [|row rows IH]; [reflexivity |].
    cbn [filter map].
    destruct (skipped (cell row text_column)); cbn [negb map];
      rewrite IH; reflexivity.
  - apply Forall_forall. intros body Hbody. apply in_map_iff in Hbody.
    destruct Hbody as [doc [<- Hdoc]]. apply Hin in Hdoc.
    destruct Hdoc as [row [_ [Hk ->]]]. exact Hk.
  - unfold docs. rewrite prepare_documents_filter, length_map.
    apply filter_length_le.
  - intros Hp Hr Hc Hv Ha. rewrite ingest_excel_cases. cbv zeta.
    rewrite Hp, Hr. cbn [negb].
    apply str_in_In in Hc. rewrite Hc. cbn [negb]. rewrite Hv.
    fold docs. rewrite Ha. reflexivity.
Qed.

(** The sheet of three rows, the second of which reads [NaN]. *)
Lemma ingested_documents_witness :
  ingest_excel world_fenced office (L "data/policies.xlsx") (L "text")
    (Some [L "department"])
  = ([ ActExists (L "data/policies.xlsx");
       ActPrint (L "Loading data from data/policies.xlsx...");
       ActReadExcel (L "data/policies.xlsx");
       ActPrint (L "Prepared 2 documents. Adding to vector store...");
       Old EvVectorStore;
       ActAddDocuments
         [ {| page_content := L "Refunds within 30 days.";
              metadata := [ (L "source", PStr (L "policies.xlsx"));
                            (L "row_index", PInt 0);
                            (L "department", PStr (L "sales")) ] |};
           {| page_content := L "Travel needs approval.";
              metadata := [ (L "source", PStr (L "policies.xlsx"));
                            (L "row_index", PInt 2);
                            (L "department", PStr (L "finance")) ] |} ];
       ActPrint (L "Ingestion complete!") ], Ok tt).
Proof.
  apply (proj2 (proj2 (proj2 (proj2
           (ingested_documents world_fenced office (L "data/policies.xlsx")
              (L "text") (Some [L "department"]) policies))))).
  - reflexivity.
  - reflexivity.
  - left. reflexivity.
  - reflexivity.
  - reflexivity.
Defined.

(** X20. The metadata of an ingested document.  Its keys are pairwise
    different.  Every column that is asked for and that the sheet has is a
    key, with the text of the row's cell; a column asked for that the sheet
    does not have is left out without an error.  Unless a column of that
    name is asked for, [source] is the file name (the path after its last
    slash) and [row_index] the label of the row; no other key is there.  So
    every ingested document has a [source], and the retrieval tool prints it
    rather than [Unknown]. *)
Theorem ingested_metadata (w : World) (file_path text_column : str)
    (metadata_columns : Optional (list str)) (df : DataFrame)
    (doc : Document) :
  In doc (prepare_documents file_path text_column df metadata_columns
            (df_rows df)) ->
  unique_keys (metadata doc)
  /\ (exists value,
        dict_lookup (L "source") (metadata doc) = Some (PStr value)
        /\ source_of w doc = value)
  /\ (exists row,
        In row (df_rows df)
        /\ page_content doc = cell row text_column
        /\ (forall col,
              listed df metadata_columns col = true ->
              dict_lookup col (metadata doc) = Some (PStr (cell row col)))
        /\ (listed df metadata_columns (L "source") = false ->
            dict_lookup (L "source") (metadata doc)
            = Some (PStr (basename file_path)))
        /\ (listed df metadata_columns (L "row_index") = false ->
            dict_lookup (L "row_index") (metadata doc)
            = Some (PInt (row_label row)))
        /\ (forall key,
              listed df metadata_columns key = false ->
              key <> L "source" -> key <> L "row_index" ->
              dict_lookup key (metadata doc) = None))
  /\ ~ In "/"%char (basename file_path)
  /\ (forall dir name,
        file_path = dir ++ "/"%char :: name -> ~ In "/"%char name ->
        basename file_path = name)
  /\ (~ In "/"%char file_path -> basename file_path = file_path).
Proof.
  intros Hdoc. rewrite prepare_documents_filter in Hdoc.
  apply in_map_iff in Hdoc. destruct Hdoc as [row [<- Hrow]].
  apply filter_In in Hrow. destruct Hrow as [Hrow _].
  cbn [metadata page_content].
  split; [apply row_metadata_unique |].
  split; [| split; [| split; [| split]]].
  - unfold source_of. cbn [metadata]. rewrite row_metadata_lookup.
    destruct (listed df metadata_columns (L "source")).
    + exists (cell row (L "source")). split; reflexivity.
    + exists (basename file_path). split; reflexivity.
  - exists row. split; [exact Hrow |]. split; [reflexivity |].
    split; [| split; [| split]].
    + intros col Hcol. rewrite row_metadata_lookup, Hcol. reflexivity.
    + intros Hs. rewrite row_metadata_lookup, Hs. reflexivity.
    + intros Hs. rewrite row_metadata_lookup, Hs. reflexivity.
    + intros key Hk Hsource Hindex. rewrite row_metadata_lookup, Hk.
      cbn [dict_lookup].
      destruct (str_eqb key (L "source")) eqn:E1.
      { apply str_eqb_eq in E1. contradiction. }
      destruct (str_eqb key (L "row_index")) eqn:E2.
      { apply str_eqb_eq in E2. contradiction. }
      reflexivity.
  - apply basename_no_slash.
  - intros dir name -> Hname. apply basename_app. exact Hname.
  - apply basename_plain.
Qed.

(** The first document of the sheet, ingested with its department. *)
Lemma ingested_metadata_witness :
  exists value,
    dict_lookup (L "source")
      [ (L "source", PStr (L "policies.xlsx")); (L "row_index", PInt 0);
        (L "department", PStr (L "sales")) ]
    = Some (PStr value)
    /\ source_of world_fenced
         {| page_content := L "Refunds within 30 days.";
            metadata := [ (L "source", PStr (L "policies.xlsx"));
                          (L "row_index", PInt 0);
                          (L "department", PStr (L "sales")) ] |}
       = value.
Proof.
  apply (proj1 (proj2
           (ingested_metadata world_fenced (L "data/policies.xlsx") (L "text")
              (Some [L "department"]) policies
              {| page_content := L "Refunds within 30 days.";
                 metadata := [ (L "source", PStr (L "policies.xlsx"));
                               (L "row_index", PInt 0);
                               (L "department", PStr (L "sales")) ] |}
              (or_introl eq_refl)))).
Defined.
